(** * Migration tools: backend analyzer and Golang generator

    A shallow embedding of [migration-tools/analyze_backend.py] and
    [migration-tools/generate_golang.py], and the properties of the two
    that their specification states.

    Text is modelled as [string], the sequence of the code points of a
    Python [str], each below 256: a character stands for its code point,
    so that the letter e with an acute accent, U+00E9, is the one character
    [Text.e_acute] and not the two bytes of its UTF-8 form.  The character
    classes of the regular expressions ([\w], [\s]) and [str.strip] are
    those of Python on these code points, the letters, digits and white
    space of Latin-1 included.  A text with a code point above 255 is
    outside the embedding.  The lines that the programs print and the
    templates that they write are literals of the source; where one has a
    character above 255 it stands here in its UTF-8 form, byte for
    byte. *)

From Stdlib Require Import String Ascii List Bool Arith Lia DecimalString.
From Stdlib Require Import NArith ZArith Permutation.
Import ListNotations.
Open Scope string_scope.

(** ** Python's [str] operations used by the analyzer *)

Module Text.

Definition dquote : ascii := "034"%char.
Definition newline : ascii := "010"%char.

Definition code (c : ascii) : nat := nat_of_ascii c.

Definition between (lo hi : nat) (c : ascii) : bool :=
  (lo <=? code c)%nat && (code c <=? hi)%nat.

Definition is_upper : ascii -> bool := between 65 90.
Definition is_lower : ascii -> bool := between 97 122.
Definition is_digit : ascii -> bool := between 48 57.

(** [str.isalnum] above 127: the ordinal indicators, the superscript
    digits, the micro sign, the vulgar fractions, and the letters of
    Latin-1, which are all of 192..255 but the signs of multiplication
    (215) and division (247). *)
Definition is_latin1_alnum (c : ascii) : bool :=
  (code c =? 170)%nat || between 178 179 c || (code c =? 181)%nat ||
  between 185 186 c || between 188 190 c ||
  between 192 214 c || between 216 246 c || between 248 255 c.

(** [\w] on [str]: the characters of [str.isalnum], and the underscore. *)
Definition is_word (c : ascii) : bool :=
  is_upper c || is_lower c || is_digit c || (code c =? 95)%nat ||
  is_latin1_alnum c.

(** [\s] on [str], and the characters that [str.strip] takes off: tab,
    line feed, vertical tab, form feed, carriage return, the four
    separators 28..31, the space, the next line control (133) and the
    no-break space (160). *)
Definition is_space (c : ascii) : bool :=
  between 9 13 c || between 28 32 c ||
  (code c =? 133)%nat || (code c =? 160)%nat.

(** The letter e with an acute accent, and the no-break space. *)
Definition e_acute : ascii := "233"%char.
Definition nbsp : ascii := "160"%char.

(** The case of the ASCII letters.  The analyzer changes the case of the
    method of a route, one of five ASCII words, and folds the case of the
    ASCII letters of one pattern; below 256 only the two cases of such a
    letter fold to it. *)
Definition to_lower (c : ascii) : ascii :=
  if is_upper c then ascii_of_nat (code c + 32) else c.

Definition to_upper (c : ascii) : ascii :=
  if is_lower c then ascii_of_nat (code c - 32) else c.

Fixpoint map_chars (f : ascii -> ascii) (s : string) : string :=
  match s with
  | EmptyString => EmptyString
  | String a s' => String (f a) (map_chars f s')
  end.

(** [s.upper()] on a text of ASCII characters *)
Definition upper : string -> string := map_chars to_upper.

(** [sub in s] *)
Fixpoint contains (sub s : string) : bool :=
  prefix sub s ||
  match s with
  | EmptyString => false
  | String _ s' => contains sub s'
  end.

(** [s.split(sep)] for a one-character separator: never the empty list. *)
Fixpoint split (sep : ascii) (s : string) : list string :=
  match s with
  | EmptyString => [EmptyString]
  | String a s' =>
      if Ascii.eqb a sep then EmptyString :: split sep s'
      else match split sep s' with
           | h :: t => String a h :: t
           | [] => [String a EmptyString]
           end
  end.

Fixpoint lstrip (s : string) : string :=
  match s with
  | EmptyString => EmptyString
  | String a s' => if is_space a then lstrip s' else s
  end.

Fixpoint rstrip (s : string) : string :=
  match s with
  | EmptyString => EmptyString
  | String a s' =>
      match rstrip s' with
      | EmptyString => if is_space a then EmptyString else String a EmptyString
      | r => String a r
      end
  end.

(** [s.strip()] *)
Definition strip (s : string) : string := rstrip (lstrip s).

(** [s.replace(old, new)]: every occurrence of [old], found left to right
    and without overlap, becomes [new].  [skip] counts the characters of an
    occurrence that are still to be dropped. *)
Fixpoint replace_from (old new : string) (skip : nat) (s : string) : string :=
  match s with
  | EmptyString => EmptyString
  | String a s' =>
      match skip with
      | S k => replace_from old new k s'
      | O =>
          if prefix old s
          then new ++ replace_from old new (String.length old - 1) s'
          else String a (replace_from old new 0 s')
      end
  end.

(** With an empty [old] Python puts [new] before every character and at
    the end. *)
Fixpoint intersperse (new s : string) : string :=
  match s with
  | EmptyString => new
  | String a s' => new ++ String a (intersperse new s')
  end.

Definition replace (old new s : string) : string :=
  match old with
  | EmptyString => intersperse new s
  | _ => replace_from old new 0 s
  end.

End Text.

(** ** The fragment of Python's [re] the analyzer uses

    A backtracking matcher in continuation-passing style: alternatives are
    tried in order, a greedy repetition tries the longest run first and a
    lazy one the shortest, and a failure of the continuation backtracks
    into the last choice, as the [re] module does.  Repetition is applied
    to character classes only, which is all the analyzer's patterns need. *)

Module Re.

Inductive cclass : Type :=
| Lit (c : ascii)            (* the character itself *)
| Dot                        (* [.]: anything but a line feed *)
| Word                       (* [\w] *)
| Space                      (* [\s] *)
| OneOf (cs : list ascii)    (* a set of characters *)
| NoneOf (cs : list ascii).  (* a negated set of characters *)

Inductive regex : Type :=
| Eps
| Cls (c : cclass)
| Seq (r1 r2 : regex)
| Alt (r1 r2 : regex)
| Rep (greedy : bool) (c : cclass)   (* [c*] when greedy, [c*?] otherwise *)
| Grp (n : nat) (r : regex).         (* capturing group number [n] *)

Fixpoint mem (a : ascii) (cs : list ascii) : bool :=
  match cs with
  | [] => false
  | c :: cs' => Ascii.eqb a c || mem a cs'
  end.

(** [ic] is the [re.IGNORECASE] flag. *)
Definition accepts (ic : bool) (cl : cclass) (a : ascii) : bool :=
  match cl with
  | Lit c => if ic then Ascii.eqb (Text.to_lower a) (Text.to_lower c)
             else Ascii.eqb a c
  | Dot => negb (Ascii.eqb a Text.newline)
  | Word => Text.is_word a
  | Space => Text.is_space a
  | OneOf cs => if ic then mem (Text.to_lower a) (map Text.to_lower cs)
                else mem a cs
  | NoneOf cs => negb (if ic then mem (Text.to_lower a) (map Text.to_lower cs)
                       else mem a cs)
  end.

(** Captured groups, most recent binding first. *)
Definition captures : Type := list (nat * string).

Definition outcome : Type := option (string * captures).

(** Ordered choice: the second branch runs only when the first fails. *)
Notation "x 'orelse' y" :=
  (match x with Some o => Some o | None => y end)
  (at level 60, right associativity, only parsing).

Fixpoint rep_greedy (ok : ascii -> bool) (k : string -> outcome)
    (s : string) : outcome :=
  match s with
  | String a s' =>
      if ok a then rep_greedy ok k s' orelse k s else k s
  | EmptyString => k s
  end.

Fixpoint rep_lazy (ok : ascii -> bool) (k : string -> outcome)
    (s : string) : outcome :=
  k s orelse
  match s with
  | String a s' => if ok a then rep_lazy ok k s' else None
  | EmptyString => None
  end.

(** The text between the start [s] of a group and what is left, [s'],
    when the group closes. *)
Definition consumed (s s' : string) : string :=
  substring 0 (String.length s - String.length s') s.

Fixpoint run (ic : bool) (r : regex) (s : string) (c : captures)
    (k : string -> captures -> outcome) : outcome :=
  match r with
  | Eps => k s c
  | Cls cl =>
      match s with
      | String a s' => if accepts ic cl a then k s' c else None
      | EmptyString => None
      end
  | Seq r1 r2 => run ic r1 s c (fun s' c' => run ic r2 s' c' k)
  | Alt r1 r2 => run ic r1 s c k orelse run ic r2 s c k
  | Rep g cl =>
      (if g then rep_greedy else rep_lazy)
        (accepts ic cl) (fun s' => k s' c) s
  | Grp n r1 =>
      run ic r1 s c (fun s' c' => k s' ((n, consumed s s') :: c'))
  end.

(** A match anchored at the start of [s]: the rest of the text and the
    groups. *)
Definition match_here (ic : bool) (r : regex) (s : string) : outcome :=
  run ic r s [] (fun s' c => Some (s', c)).

(** A match object: group 0 is the whole match. *)
Definition matched : Type := captures.

Fixpoint lookup (n : nat) (c : captures) : option string :=
  match c with
  | [] => None
  | (m, t) :: c' => if Nat.eqb m n then Some t else lookup n c'
  end.

Definition bound (n : nat) (c : captures) : Prop := lookup n c <> None.

(** [match.group(n)]; a group that took no part in the match reads as the
    empty string here ([None] in Python, [''] in [re.findall]). *)
Definition group (n : nat) (m : matched) : string :=
  match lookup n m with
  | Some t => t
  | None => EmptyString
  end.

(** The scan of [re.finditer]: the leftmost match from the current
    position, then on from where it ended.  [skip] counts the characters
    of the last match still to be passed over.  After an empty match the
    scan moves one character on; none of the analyzer's patterns matches
    the empty string ([analyzer_patterns_consume] below). *)
Fixpoint scan (ic : bool) (r : regex) (skip : nat) (s : string)
    {struct s} : list matched :=
  match skip with
  | S k =>
      match s with
      | String _ s' => scan ic r k s'
      | EmptyString => []
      end
  | O =>
      match match_here ic r s with
      | Some (rest, c) =>
          let n := String.length s - String.length rest in
          ((0, substring 0 n s) :: c) ::
          match s with
          | String _ s' => scan ic r (pred n) s'
          | EmptyString => []
          end
      | None =>
          match s with
          | String _ s' => scan ic r 0 s'
          | EmptyString => []
          end
      end
  end.

(** [re.finditer(pattern, content, flags)] as the list of its matches. *)
Definition finditer (ic : bool) (r : regex) (content : string) : list matched :=
  scan ic r 0 content.

(** [re.findall] for a pattern with one group: the text of group 1 of
    every match. *)
Definition findall1 (ic : bool) (r : regex) (content : string) : list string :=
  map (group 1) (finditer ic r content).

(** Whether group [n] is bound on every way through [r]. *)
Fixpoint binds (n : nat) (r : regex) : bool :=
  match r with
  | Eps => false
  | Cls _ => false
  | Seq r1 r2 => binds n r1 || binds n r2
  | Alt r1 r2 => binds n r1 && binds n r2
  | Rep _ _ => false
  | Grp m r1 => Nat.eqb m n || binds n r1
  end.

(** Whether every match of [r] takes at least one character. *)
Fixpoint nonempty (r : regex) : bool :=
  match r with
  | Eps => false
  | Cls _ => true
  | Seq r1 r2 => nonempty r1 || nonempty r2
  | Alt r1 r2 => nonempty r1 && nonempty r2
  | Rep _ _ => false
  | Grp _ r1 => nonempty r1
  end.

(** Pattern syntax: a literal word, [c+], [r?], sequences and
    alternatives. *)
Fixpoint str (s : string) : regex :=
  match s with
  | EmptyString => Eps
  | String a s' => Seq (Cls (Lit a)) (str s')
  end.

Definition plus (greedy : bool) (c : cclass) : regex :=
  Seq (Cls c) (Rep greedy c).

Definition opt (r : regex) : regex := Alt r Eps.

Fixpoint seq (rs : list regex) : regex :=
  match rs with
  | [] => Eps
  | r :: rs' => Seq r (seq rs')
  end.

Fixpoint alt (r : regex) (rs : list regex) : regex :=
  match rs with
  | [] => r
  | r' :: rs' => Alt r (alt r' rs')
  end.

End Re.

(** ** The structural model ([analyze_backend.py], the dataclasses) *)

Record Route : Type := mkRoute {
  method : string;
  path : string;
  handler : string;
  middleware : list string;
  controller : string
}.

Record Controller : Type := mkController {
  ctrl_name : string;
  ctrl_file : string;
  ctrl_functions : list string
}.

Record Middleware : Type := mkMiddleware {
  mw_name : string;
  mw_file : string;
  mw_description : string
}.

Record Service : Type := mkService {
  svc_name : string;
  svc_file : string;
  svc_functions : list string
}.

Record AnalysisResult : Type := mkAnalysisResult {
  routes : list Route;
  controllers : list Controller;
  middleware_list : list Middleware;
  services : list Service;
  database_tables : list string;
  dependencies : list (string * string)
}.

(** ** The patterns of the analyzer *)

Module Patterns.
Import Re.

Definition quote : cclass := OneOf ["'"%char; Text.dquote].
Definition not_quote : cclass := NoneOf ["'"%char; Text.dquote].

Definition http_method : regex :=
  alt (str "get") [str "post"; str "put"; str "delete"; str "patch"].

(** [fastify\.(get|post|put|delete|patch)\(['Q]([^'Q]+)['Q].*?(\w+Controller\.\w+|\w+)],
    where [Q] stands for the escaped double quote of the source. *)
Definition fastify_route : regex :=
  seq [ str "fastify"; Cls (Lit "."); Grp 1 http_method; Cls (Lit "(");
        Cls quote; Grp 2 (plus true not_quote); Cls quote;
        Rep false Dot;
        Grp 3 (Alt (seq [plus true Word; str "Controller"; Cls (Lit ".");
                         plus true Word])
                   (plus true Word)) ].

(** [router\.(get|post|put|delete|patch)\(['Q]([^'Q]+)['Q].*?(\w+)] *)
Definition router_route : regex :=
  seq [ str "router"; Cls (Lit "."); Grp 1 http_method; Cls (Lit "(");
        Cls quote; Grp 2 (plus true not_quote); Cls quote;
        Rep false Dot;
        Grp 3 (plus true Word) ].

Definition route_patterns : list regex := [fastify_route; router_route].

(** The number of groups of a route pattern, [len(match.groups())]. *)
Definition route_groups : nat := 3.

(** [preHandler:\s*\[(.*?)\]] *)
Definition prehandler_list : regex :=
  seq [ str "preHandler:"; Rep true Space; Cls (Lit "[");
        Grp 1 (Rep false Dot); Cls (Lit "]") ].

(** [CREATE\s+TABLE\s+(?:IF\s+NOT\s+EXISTS\s+)?(\w+)], with [re.IGNORECASE] *)
Definition create_table : regex :=
  seq [ str "CREATE"; plus true Space; str "TABLE"; plus true Space;
        opt (seq [ str "IF"; plus true Space; str "NOT"; plus true Space;
                   str "EXISTS"; plus true Space ]);
        Grp 1 (plus true Word) ].

(** Controllers:
    [export\s+async\s+function\s+(\w+)],
    [export\s+const\s+(\w+)\s*=\s*async],
    [export\s+function\s+(\w+)] *)
Definition controller_patterns : list regex :=
  [ seq [ str "export"; plus true Space; str "async"; plus true Space;
          str "function"; plus true Space; Grp 1 (plus true Word) ];
    seq [ str "export"; plus true Space; str "const"; plus true Space;
          Grp 1 (plus true Word); Rep true Space; Cls (Lit "=");
          Rep true Space; str "async" ];
    seq [ str "export"; plus true Space; str "function"; plus true Space;
          Grp 1 (plus true Word) ] ].

(** Services:
    [export\s+(?:async\s+)?function\s+(\w+)],
    [export\s+const\s+(\w+)\s*=],
    [export\s+class\s+(\w+)] *)
Definition service_patterns : list regex :=
  [ seq [ str "export"; plus true Space;
          opt (seq [str "async"; plus true Space]);
          str "function"; plus true Space; Grp 1 (plus true Word) ];
    seq [ str "export"; plus true Space; str "const"; plus true Space;
          Grp 1 (plus true Word); Rep true Space; Cls (Lit "=") ];
    seq [ str "export"; plus true Space; str "class"; plus true Space;
          Grp 1 (plus true Word) ] ].

(** [/\*\*\s*\n\s*\*\s*(.+?)\n] *)
Definition doc_comment : regex :=
  seq [ str "/**"; Rep true Space; Cls (Lit Text.newline); Rep true Space;
        Cls (Lit "*"); Rep true Space; Grp 1 (plus false Dot);
        Cls (Lit Text.newline) ].

(** All the patterns of the analyzer. *)
Definition all : list regex :=
  (route_patterns ++ [prehandler_list; create_table; doc_comment] ++
   controller_patterns ++ service_patterns)%list.

End Patterns.

(** ** Route extraction, one file ([analyze_routes], the loop body) *)

(** [[m.strip() for m in mw.split(',')]]: the comma-separated items of one
    captured list. *)
Definition items (mw : string) : list string :=
  map Text.strip (Text.split "," mw).

(** [re.findall(r'preHandler:\s*\[(.*?)\]', content)]: what stands between
    the brackets after every marker of the file. *)
Definition prehandler_lists (content : string) : list string :=
  Re.findall1 false Patterns.prehandler_list content.

(** The middleware list: computed from the whole file, for each match. *)
Definition middleware_of (content : string) : list string :=
  if Text.contains "preHandler" content
  then flat_map items (prehandler_lists content)
  else [].

Definition route_of_match (stem content : string) (m : Re.matched) : Route :=
  {| method := Text.upper (Re.group 1 m);
     path := Re.group 2 m;
     handler := if (3 <=? Patterns.route_groups)%nat then Re.group 3 m
                else "unknown";
     middleware := middleware_of content;
     controller := Text.replace "Routes" "Controller" stem |}.

Definition routes_of_file (stem content : string) : list Route :=
  flat_map (fun pattern =>
              map (route_of_match stem content)
                  (Re.finditer false pattern content))
           Patterns.route_patterns.

(** ** The source tree as the analyzer reads it *)

(** A Python call either returns or raises. *)
Inductive result (A : Type) : Type :=
| Ok (a : A)
| Raised.
Arguments Ok {A} a.
Arguments Raised {A}.

Definition bind {A B : Type} (x : result A) (f : A -> result B) : result B :=
  match x with
  | Ok a => f a
  | Raised => Raised
  end.

Notation "x <- e ;; k" := (bind e (fun x => k))
  (at level 61, e at next level, right associativity).

(** The loop [for f in files: acc.extend(body(f))]: the first body that
    raises ends the loop and the pass. *)
Fixpoint for_each {A B : Type} (body : A -> result (list B)) (l : list A)
    : result (list B) :=
  match l with
  | [] => Ok []
  | a :: l' =>
      xs <- body a ;;
      ys <- for_each body l' ;;
      Ok (xs ++ ys)%list
  end.

(** A file of a category directory: its name and what [read_text] gives,
    [None] when it raises. *)
Record source_file : Type := mkFile {
  file_name : string;
  file_text : option string
}.

(** A category directory: the files [glob(STAR.js)] yields, in its order
    (STAR the wildcard). *)
Definition directory : Type := list source_file.

(** [package.json] as the analyzer sees it: [read_text] and [json.loads]
    raise, or give a value, of which the analyzer asks two things.
    [data.get] needs a dictionary; [len(deps)] needs a sized value, which a
    number, [true], [false] and [null] are not.  The values of a
    [dependencies] dictionary are taken to be strings, as a package
    manifest has them; a member that is a list or a string, which the
    analyzer would return as it is, is outside the embedding. *)
Inductive dependencies_member : Type :=
| Versions (deps : list (string * string))  (* a dictionary of strings *)
| Unsized.                                  (* a number, a boolean or null *)

Inductive document : Type :=
| Dict (member : option dependencies_member)  (* a dictionary, and its
                                                 [dependencies] if any *)
| NotDict.                                    (* any other value *)

Inductive manifest : Type :=
| Decoded (data : document)
| Undecodable.                (* [read_text] or [json.loads] raises *)

(** The backend directory; [None] is a path that does not exist. *)
Record backend : Type := mkBackend {
  routes_dir : option directory;
  controllers_dir : option directory;
  middleware_dir : option directory;
  services_dir : option directory;
  migrations_dir : option directory;
  setup_js : option (option string);
  package_json : option manifest
}.

Definition read_text (f : source_file) : result string :=
  match file_text f with
  | Some content => Ok content
  | None => Raised
  end.

(** [str.rfind] of a character. *)
Fixpoint rfind (c : ascii) (s : string) : option nat :=
  match s with
  | EmptyString => None
  | String a s' =>
      match rfind c s' with
      | Some i => Some (S i)
      | None => if Ascii.eqb a c then Some 0 else None
      end
  end.

(** [PurePath.stem]: the name up to its last dot, unless that dot is the
    first or the last character. *)
Definition stem (name : string) : string :=
  match rfind "." name with
  | Some i =>
      if (0 <? i)%nat && (i <? String.length name - 1)%nat
      then substring 0 i name
      else name
  | None => name
  end.

(** [list(set(xs))]: the elements of [xs], each once, in an order Python
    does not specify.  The analyzer is parameterised by that order. *)
Record set_order : Type := mkSetOrder {
  list_of_set :> list string -> list string;
  list_of_set_NoDup : forall xs, NoDup (list_of_set xs);
  list_of_set_In : forall xs x, In x (list_of_set xs) <-> In x xs
}.

(** One such order, that of the last occurrences. *)
Definition last_seen : set_order :=
  {| list_of_set := nodup string_dec;
     list_of_set_NoDup := NoDup_nodup string_dec;
     list_of_set_In := fun xs x => nodup_In string_dec xs x |}.

(** ** The passes of [BackendAnalyzer]

    Each pass is the value it returns, or [Raised]; the progress lines the
    passes print are left out. *)

Section Analyzer.

Variable order : set_order.

Definition analyze_routes (b : backend) : result (list Route) :=
  match routes_dir b with
  | None => Ok []
  | Some files =>
      for_each (fun route_file =>
                  content <- read_text route_file ;;
                  Ok (routes_of_file (stem (file_name route_file)) content))
               files
  end.

Definition exported (patterns : list Re.regex) (content : string)
    : list string :=
  flat_map (fun pattern => Re.findall1 false pattern content) patterns.

Definition analyze_controllers (b : backend) : result (list Controller) :=
  match controllers_dir b with
  | None => Ok []
  | Some files =>
      for_each (fun controller_file =>
                  content <- read_text controller_file ;;
                  Ok [ {| ctrl_name := stem (file_name controller_file);
                          ctrl_file := "controllers/" ++ file_name controller_file;
                          ctrl_functions :=
                            order (exported Patterns.controller_patterns content) |} ])
               files
  end.

Definition analyze_middleware (b : backend) : result (list Middleware) :=
  match middleware_dir b with
  | None => Ok []
  | Some files =>
      for_each (fun mw_file =>
                  content <- read_text mw_file ;;
                  Ok [ {| mw_name := stem (file_name mw_file);
                          mw_file := "middleware/" ++ file_name mw_file;
                          mw_description :=
                            match Re.finditer false Patterns.doc_comment content with
                            | desc_match :: _ => Re.group 1 desc_match
                            | [] => ""
                            end |} ])
               files
  end.

Definition analyze_services (b : backend) : result (list Service) :=
  match services_dir b with
  | None => Ok []
  | Some files =>
      for_each (fun service_file =>
                  content <- read_text service_file ;;
                  Ok [ {| svc_name := stem (file_name service_file);
                          svc_file := "services/" ++ file_name service_file;
                          svc_functions :=
                            order (exported Patterns.service_patterns content) |} ])
               files
  end.

Definition table_matches (content : string) : list string :=
  Re.findall1 true Patterns.create_table content.

(** The names collected before [list(set(tables))]. *)
Definition collected_tables (b : backend) (files : directory)
    : result (list string) :=
  tables <- for_each (fun migration_file =>
                        content <- read_text migration_file ;;
                        Ok (table_matches content))
                     files ;;
  match setup_js b with
  | None => Ok tables
  | Some None => Raised
  | Some (Some content) => Ok (tables ++ table_matches content)%list
  end.

Definition analyze_database_schema (b : backend) : result (list string) :=
  match migrations_dir b with
  | None => Ok []
  | Some files =>
      tables <- collected_tables b files ;;
      Ok (order tables)
  end.

Definition analyze_dependencies (b : backend)
    : result (list (string * string)) :=
  match package_json b with
  | None => Ok []
  | Some Undecodable => Raised                        (* [json.loads] *)
  | Some (Decoded NotDict) => Raised                  (* [data.get] *)
  | Some (Decoded (Dict None)) => Ok []               (* the default *)
  | Some (Decoded (Dict (Some Unsized))) => Raised    (* [len(deps)] *)
  | Some (Decoded (Dict (Some (Versions deps)))) => Ok deps
  end.

Definition analyze (b : backend) : result AnalysisResult :=
  routes <- analyze_routes b ;;
  controllers <- analyze_controllers b ;;
  middleware <- analyze_middleware b ;;
  services <- analyze_services b ;;
  tables <- analyze_database_schema b ;;
  deps <- analyze_dependencies b ;;
  Ok {| routes := routes;
        controllers := controllers;
        middleware_list := middleware;
        services := services;
        database_tables := tables;
        dependencies := deps |}.

End Analyzer.

(** Whether every file of a directory can be read, and whether the
    schema pass can read all it reads: the files of the migrations
    directory, and [database/setup.js] if it exists. *)
Definition all_readable (d : option directory) : bool :=
  match d with
  | None => true
  | Some files =>
      forallb (fun f => match file_text f with Some _ => true | None => false end)
              files
  end.

Definition schema_readable (b : backend) : bool :=
  match migrations_dir b with
  | None => true
  | Some files =>
      all_readable (Some files) &&
      match setup_js b with
      | Some None => false
      | _ => true
      end
  end.

(** The directory exists and has a file that cannot be read. *)
Definition unreadable_in (d : option directory) : Prop :=
  exists files f, d = Some files /\ In f files /\ file_text f = None.

(** The renaming rule in the words of the specification: strip the suffix
    token from the base name, then append the controller token. *)
Definition ends_with (suffix s : string) : bool :=
  (String.length suffix <=? String.length s)%nat &&
  String.eqb (substring (String.length s - String.length suffix)
                        (String.length suffix) s)
             suffix.

Definition strip_suffix (suffix s : string) : string :=
  if ends_with suffix s
  then substring 0 (String.length s - String.length suffix) s
  else s.

Definition spec_owner_controller (base_name : string) : string :=
  strip_suffix "Routes" base_name ++ "Controller".

(** ** Sample inputs *)

(** Two routes, one of them with a middleware list. *)
Definition two_routes_one_list : string :=
  "fastify.get('/areas', list)
fastify.post('/areas', { preHandler: [auth, admin] }, create)".

(** A route with an empty middleware list. *)
Definition route_with_empty_list : string :=
  "fastify.get('/areas', { preHandler: [] }, list)".

(** A tree with a route file that reads, one that does not, and a
    controller; and the same tree without the file that does not read. *)
Definition area_routes_js : source_file :=
  mkFile "areaRoutes.js" (Some "fastify.get('/areas', AreaController.list)").

Definition area_controller_js : source_file :=
  mkFile "areaController.js" (Some "export async function list(req) {}").

Definition tree_with_unreadable_file : backend :=
  mkBackend (Some [area_routes_js; mkFile "userRoutes.js" None])
            (Some [area_controller_js]) None None None None None.

Definition tree_without_it : backend :=
  mkBackend (Some [area_routes_js])
            (Some [area_controller_js]) None None None None None.

(** The texts the schema pass scans when the migrations directory exists:
    those of its files, and that of [database/setup.js]. *)
Definition contributes (b : backend) (files : directory) (content : string)
    : Prop :=
  (exists f, In f files /\ file_text f = Some content) \/
  setup_js b = Some (Some content).

(** Two migration files that create the same table, and the same tree
    with a setup file that creates it once more, without the qualifier. *)
Definition init_js : string :=
  "db.exec(`CREATE TABLE IF NOT EXISTS cameras (id INTEGER)`)".

Definition again_js : string :=
  "db.exec(`CREATE TABLE IF NOT EXISTS cameras (id INTEGER, name TEXT)`)".

Definition migration_files : directory :=
  [ mkFile "001_init.js" (Some init_js);
    mkFile "002_again.js" (Some again_js) ].

Definition two_migrations : backend :=
  mkBackend None None None None (Some migration_files) None None.

Definition two_migrations_and_setup : backend :=
  mkBackend None None None None (Some migration_files)
            (Some (Some "db.exec('create table cameras (id INTEGER)')")) None.

(** ** The intermediate artifact: Python's [json]

    The values of [json]: [None], the booleans, the numbers, strings, lists
    and dictionaries with string keys; a dictionary is the list of its
    items in insertion order.  [save_analysis] writes strings, lists and
    dictionaries only.  [dumps] is [json.dumps] with [indent=2] and [loads]
    is [json.loads], which gives [None] where Python raises.  An integer is
    its value.  A float is kept as the literal that the document has for
    it, and [dumps] writes that literal back, where Python writes the
    float in its own notation; neither program writes a number.  A string
    with an escape for a code point above 255 is outside the embedding, as
    every text with such a code point is.  [JsonFacts.loads_dumps] below
    shows that [loads] reads back what [dumps] writes of the values of
    [save_analysis]. *)

Module Json.

#[warnings="-register-all"]
Inductive value : Type :=
| Null
| Bool (b : bool)
| Int (z : Z)
| Float (literal : string)
| Str (s : string)
| Arr (items : list value)
| Obj (members : list (string * value)).

Definition backslash : ascii := "092"%char.

(** *** Encoding ([json.encoder]) *)

Definition hex_digit (n : nat) : ascii :=
  if (n <? 10)%nat then ascii_of_nat (48 + n) else ascii_of_nat (87 + n).

(** [ESCAPE_DCT] and the [\uXXXX] form of [py_encode_basestring_ascii]:
    the quote, the backslash and everything outside space..tilde are
    escaped. *)
Definition escape_char (c : ascii) : string :=
  let n := Text.code c in
  if Ascii.eqb c Text.dquote then String backslash (String Text.dquote "")
  else if Ascii.eqb c backslash then String backslash (String backslash "")
  else if (n =? 8)%nat then String backslash "b"
  else if (n =? 12)%nat then String backslash "f"
  else if (n =? 10)%nat then String backslash "n"
  else if (n =? 13)%nat then String backslash "r"
  else if (n =? 9)%nat then String backslash "t"
  else if (32 <=? n)%nat && (n <=? 126)%nat then String c ""
  else String backslash
         (String "u" (String "0" (String "0"
            (String (hex_digit (n / 16)) (String (hex_digit (n mod 16)) ""))))).

Fixpoint escape (s : string) : string :=
  match s with
  | EmptyString => EmptyString
  | String c s' => escape_char c ++ escape s'
  end.

Definition encode_string (s : string) : string :=
  String Text.dquote (escape s ++ String Text.dquote "").

Fixpoint spaces (n : nat) : string :=
  match n with
  | O => EmptyString
  | S k => String " " (spaces k)
  end.

(** A line feed and the indentation of a nesting level, two spaces each. *)
Definition newline_indent (level : nat) : string :=
  String Text.newline (spaces (2 * level)).

Definition item_separator (level : nat) : string :=
  String "," (newline_indent level).

(** [int.__repr__] *)
Definition string_of_Z (z : Z) : string :=
  NilZero.string_of_int (Z.to_int z).

Fixpoint dumps_at (level : nat) (v : value) : string :=
  match v with
  | Null => "null"
  | Bool true => "true"
  | Bool false => "false"
  | Int z => string_of_Z z
  | Float literal => literal
  | Str s => encode_string s
  | Arr [] => "[]"
  | Arr items =>
      "[" ++ newline_indent (S level) ++
      String.concat (item_separator (S level)) (map (dumps_at (S level)) items) ++
      newline_indent level ++ "]"
  | Obj [] => "{}"
  | Obj members =>
      "{" ++ newline_indent (S level) ++
      String.concat (item_separator (S level))
             (map (fun m => encode_string (fst m) ++ ": " ++
                            dumps_at (S level) (snd m))
                  members) ++
      newline_indent level ++ "}"
  end.

(** [json.dumps(v, indent=2)] *)
Definition dumps (v : value) : string := dumps_at 0 v.

(** *** Decoding ([json.decoder], [json.scanner]) *)

(** The white space of the decoder: space, tab, line feed, carriage
    return. *)
Definition is_ws (c : ascii) : bool :=
  let n := Text.code c in
  (n =? 32)%nat || (n =? 9)%nat || (n =? 10)%nat || (n =? 13)%nat.

Fixpoint skip_ws (s : string) : string :=
  match s with
  | EmptyString => EmptyString
  | String c s' => if is_ws c then skip_ws s' else s
  end.

Definition hex_value (c : ascii) : option nat :=
  let n := Text.code c in
  if (48 <=? n)%nat && (n <=? 57)%nat then Some (n - 48)
  else if (97 <=? n)%nat && (n <=? 102)%nat then Some (n - 87)
  else if (65 <=? n)%nat && (n <=? 70)%nat then Some (n - 55)
  else None.

Definition hex4 (h1 h2 h3 h4 : ascii) : option nat :=
  match hex_value h1, hex_value h2, hex_value h3, hex_value h4 with
  | Some a, Some b, Some c, Some d => Some (((a * 16 + b) * 16 + c) * 16 + d)
  | _, _, _, _ => None
  end.

(** The [BACKSLASH] table of the decoder. *)
Definition unescape (e : ascii) : option ascii :=
  if Ascii.eqb e Text.dquote then Some Text.dquote
  else if Ascii.eqb e backslash then Some backslash
  else if Ascii.eqb e "/" then Some "/"%char
  else if Ascii.eqb e "b" then Some (ascii_of_nat 8)
  else if Ascii.eqb e "f" then Some (ascii_of_nat 12)
  else if Ascii.eqb e "n" then Some (ascii_of_nat 10)
  else if Ascii.eqb e "r" then Some (ascii_of_nat 13)
  else if Ascii.eqb e "t" then Some (ascii_of_nat 9)
  else None.

Definition prepend (c : ascii) (r : option (string * string))
    : option (string * string) :=
  match r with
  | Some (t, rest) => Some (String c t, rest)
  | None => None
  end.

(** [scanstring], strict: from just after the opening quote to the closing
    one; a control character in the string is an error. *)
Fixpoint scanstring (s : string) : option (string * string) :=
  match s with
  | EmptyString => None
  | String c s' =>
      if Ascii.eqb c Text.dquote then Some (EmptyString, s')
      else if Ascii.eqb c backslash then
        match s' with
        | EmptyString => None
        | String e s'' =>
            if Ascii.eqb e "u" then
              match s'' with
              | String h1 (String h2 (String h3 (String h4 s3))) =>
                  match hex4 h1 h2 h3 h4 with
                  | Some n =>
                      if (n <? 256)%nat
                      then prepend (ascii_of_nat n) (scanstring s3)
                      else None
                  | None => None
                  end
              | _ => None
              end
            else
              match unescape e with
              | Some ch => prepend ch (scanstring s'')
              | None => None
              end
        end
      else if (Text.code c <? 32)%nat then None
      else prepend c (scanstring s')
  end.

(** [dict(pairs)]: a key seen again keeps its place and takes the new
    value. *)
Fixpoint dict_set (k : string) (v : value) (d : list (string * value))
    : list (string * value) :=
  match d with
  | [] => [(k, v)]
  | (k', v') :: d' =>
      if String.eqb k' k then (k', v) :: d' else (k', v') :: dict_set k v d'
  end.

Definition dict_of_pairs (pairs : list (string * value))
    : list (string * value) :=
  fold_left (fun d kv => dict_set (fst kv) (snd kv) d) pairs [].

(** The longest run of digits at the start of a text, and the rest. *)
Fixpoint digits (s : string) : string * string :=
  match s with
  | EmptyString => (EmptyString, EmptyString)
  | String c s' =>
      if Text.is_digit c
      then let (ds, rest) := digits s' in (String c ds, rest)
      else (EmptyString, s)
  end.

(** [NUMBER_RE], part by part: a minus sign or none, then a zero alone
    or a digit from 1 to 9 and digits; a dot and digits, or nothing; the
    letter e, small or capital, a sign or none, and digits, or nothing.
    Each part takes the longest text it can, and the two optional parts
    take nothing when they cannot match. *)
Definition integer_part (s : string) : option (string * string) :=
  match s with
  | EmptyString => None
  | String c s' =>
      if Ascii.eqb c "0" then Some ("0", s')
      else if Text.is_digit c
      then let (ds, rest) := digits s' in Some (String c ds, rest)
      else None
  end.

Definition fraction (s : string) : string * string :=
  match s with
  | String "." s' =>
      match digits s' with
      | (EmptyString, _) => (EmptyString, s)
      | (ds, rest) => (String "." ds, rest)
      end
  | _ => (EmptyString, s)
  end.

Definition signed (s : string) : string * string :=
  match s with
  | String c s' =>
      if Ascii.eqb c "+" || Ascii.eqb c "-"
      then (String c EmptyString, s')
      else (EmptyString, s)
  | EmptyString => (EmptyString, s)
  end.

Definition exponent (s : string) : string * string :=
  match s with
  | String e s' =>
      if Ascii.eqb e "e" || Ascii.eqb e "E" then
        let (sign, s1) := signed s' in
        match digits s1 with
        | (EmptyString, _) => (EmptyString, s)
        | (ds, rest) => (String e (sign ++ ds), rest)
        end
      else (EmptyString, s)
  | EmptyString => (EmptyString, s)
  end.

(** [int(literal)] on a run of digits. *)
Fixpoint Z_of_digits (acc : Z) (ds : string) : Z :=
  match ds with
  | EmptyString => acc
  | String c ds' => Z_of_digits (10 * acc + Z.of_nat (Text.code c - 48))%Z ds'
  end.

(** The default of [sys.get_int_max_str_digits]: [int] raises on a
    literal with more digits. *)
Definition int_max_str_digits : nat := 4300.

(** A number: an integer when it has neither fraction nor exponent, a
    float otherwise. *)
Definition scan_number (s : string) : option (value * string) :=
  let (minus, s0) := match s with
                     | String "-" s' => (true, s')
                     | _ => (false, s)
                     end in
  match integer_part s0 with
  | None => None
  | Some (int, s1) =>
      let (frac, s2) := fraction s1 in
      let (exp, s3) := exponent s2 in
      match frac, exp with
      | EmptyString, EmptyString =>
          if (int_max_str_digits <? String.length int)%nat then None
          else Some (Int (if minus then - Z_of_digits 0 int
                          else Z_of_digits 0 int)%Z, s3)
      | _, _ =>
          Some (Float ((if minus then "-" else "") ++ int ++ frac ++ exp), s3)
      end
  end.

(** The text after the first [n] characters. *)
Fixpoint skip (n : nat) (s : string) : string :=
  match n, s with
  | S n', String _ s' => skip n' s'
  | _, _ => s
  end.

(** What [scan_once] tries when the text starts neither a string, nor a
    list, nor a dictionary: the three names, a number, the three
    constants that [float] has besides. *)
Definition scan_scalar (s : string) : option (value * string) :=
  if prefix "null" s then Some (Null, skip 4 s)
  else if prefix "true" s then Some (Bool true, skip 4 s)
  else if prefix "false" s then Some (Bool false, skip 5 s)
  else
    match s with
    | String c _ =>
        if Ascii.eqb c "-" || Text.is_digit c then
          match scan_number s with
          | Some r => Some r
          | None =>
              if prefix "-Infinity" s then Some (Float "-Infinity", skip 9 s)
              else None
          end
        else if prefix "NaN" s then Some (Float "NaN", skip 3 s)
        else if prefix "Infinity" s then Some (Float "Infinity", skip 8 s)
        else None
    | EmptyString => None
    end.

(** [scan_once] with [JSONArray] and [JSONObject].  [fuel] bounds the
    nesting and the number of items; [loads] gives as much as the text is
    long.  [parse_items] starts at the first character of an item,
    [parse_members] just after the opening quote of a key. *)
Fixpoint scan_once (fuel : nat) (s : string) : option (value * string) :=
  match fuel with
  | O => None
  | S fuel' =>
      match s with
      | EmptyString => None
      | String c s' =>
          if Ascii.eqb c Text.dquote then
            match scanstring s' with
            | Some (t, rest) => Some (Str t, rest)
            | None => None
            end
          else if Ascii.eqb c "[" then
            match skip_ws s' with
            | String "]" rest => Some (Arr [], rest)
            | s1 =>
                match parse_items fuel' s1 with
                | Some (items, rest) => Some (Arr items, rest)
                | None => None
                end
            end
          else if Ascii.eqb c "{" then
            match skip_ws s' with
            | String "}" rest => Some (Obj [], rest)
            | String q s1 =>
                if Ascii.eqb q Text.dquote then
                  match parse_members fuel' s1 with
                  | Some (pairs, rest) => Some (Obj (dict_of_pairs pairs), rest)
                  | None => None
                  end
                else None
            | EmptyString => None
            end
          else scan_scalar s
      end
  end

with parse_items (fuel : nat) (s : string) : option (list value * string) :=
  match fuel with
  | O => None
  | S fuel' =>
      match scan_once fuel' s with
      | Some (v, s1) =>
          match skip_ws s1 with
          | String "]" rest => Some ([v], rest)
          | String "," rest =>
              match parse_items fuel' (skip_ws rest) with
              | Some (vs, rest') => Some (v :: vs, rest')
              | None => None
              end
          | _ => None
          end
      | None => None
      end
  end

with parse_members (fuel : nat) (s : string)
    : option (list (string * value) * string) :=
  match fuel with
  | O => None
  | S fuel' =>
      match scanstring s with
      | Some (key, s1) =>
          match skip_ws s1 with
          | String ":" s2 =>
              match scan_once fuel' (skip_ws s2) with
              | Some (v, s3) =>
                  match skip_ws s3 with
                  | String "}" rest => Some ([(key, v)], rest)
                  | String "," rest =>
                      match skip_ws rest with
                      | String q s4 =>
                          if Ascii.eqb q Text.dquote then
                            match parse_members fuel' s4 with
                            | Some (ms, rest') => Some ((key, v) :: ms, rest')
                            | None => None
                            end
                          else None
                      | EmptyString => None
                      end
                  | _ => None
                  end
              | None => None
              end
          | _ => None
          end
      | None => None
      end
  end.

(** [json.loads(text)]: one value, white space around it, nothing else. *)
Definition loads (text : string) : option value :=
  match scan_once (String.length text) (skip_ws text) with
  | Some (v, rest) =>
      match skip_ws rest with
      | EmptyString => Some v
      | _ => None
      end
  | None => None
  end.

(** [d.get(key)] *)
Fixpoint lookup (key : string) (d : list (string * value)) : option value :=
  match d with
  | [] => None
  | (k, v) :: d' => if String.eqb k key then Some v else lookup key d'
  end.

(** [v.get(key)] on a decoded document; [None] also when [v] is not a
    dictionary (Python raises there). *)
Definition get (key : string) (v : value) : option value :=
  match v with
  | Obj d => lookup key d
  | _ => None
  end.

(** The values that [save_analysis] writes: strings, lists and
    dictionaries, the dictionaries with distinct keys, at every depth. *)
#[warnings="-register-all"]
Inductive wf : value -> Prop :=
| wf_Str s : wf (Str s)
| wf_Arr items : Forall wf items -> wf (Arr items)
| wf_Obj members :
    NoDup (map fst members) ->
    Forall (fun m => wf (snd m)) members ->
    wf (Obj members).

(** A value made of strings, lists and dictionaries only. *)
Fixpoint textual (v : value) : bool :=
  match v with
  | Str _ => true
  | Arr items => forallb textual items
  | Obj members => forallb (fun m => textual (snd m)) members
  | _ => false
  end.

(** The nesting of [value] through lists calls for its own induction
    principle. *)
Fixpoint value_induction (P : value -> Prop)
    (HNull : P Null)
    (HBool : forall b, P (Bool b))
    (HInt : forall z, P (Int z))
    (HFloat : forall literal, P (Float literal))
    (HStr : forall s, P (Str s))
    (HArr : forall items, Forall P items -> P (Arr items))
    (HObj : forall members,
        Forall (fun m => P (snd m)) members -> P (Obj members))
    (v : value) : P v :=
  match v with
  | Null => HNull
  | Bool b => HBool b
  | Int z => HInt z
  | Float literal => HFloat literal
  | Str s => HStr s
  | Arr items =>
      HArr items
        ((fix each (l : list value) : Forall P l :=
            match l with
            | [] => Forall_nil P
            | x :: l' =>
                Forall_cons x
                  (value_induction P HNull HBool HInt HFloat HStr HArr HObj x)
                  (each l')
            end) items)
  | Obj members =>
      HObj members
        ((fix each (l : list (string * value))
            : Forall (fun m => P (snd m)) l :=
            match l with
            | [] => Forall_nil _
            | (k, x) :: l' =>
                Forall_cons (k, x)
                  (value_induction P HNull HBool HInt HFloat HStr HArr HObj x)
                  (each l')
            end) members)
  end.

(** What decoding a value costs in [fuel]. *)
Fixpoint size (v : value) : nat :=
  match v with
  | Null | Bool _ | Int _ | Float _ => 1
  | Str _ => 1
  | Arr items => S (fold_right (fun x n => S (size x + n)) 0 items)
  | Obj members => S (fold_right (fun m n => S (size (snd m) + n)) 0 members)
  end.

(** The characters an encoded value can start with. *)
Inductive opener : ascii -> Prop :=
| opener_quote : opener Text.dquote
| opener_bracket : opener "["
| opener_brace : opener "{".

(** What [dumps_at] writes after the first item of a list, and after the
    value of the first member of a dictionary, up to the closing bracket;
    [rest] is the text after it. *)
Fixpoint items_tail (level : nat) (rest : string) (l : list value) : string :=
  match l with
  | [] => newline_indent level ++ String "]" rest
  | y :: l' =>
      item_separator (S level) ++ dumps_at (S level) y ++
      items_tail level rest l'
  end.

Fixpoint members_tail (level : nat) (rest : string)
    (l : list (string * value)) : string :=
  match l with
  | [] => newline_indent level ++ String "}" rest
  | m :: l' =>
      item_separator (S level) ++
      String Text.dquote
        (escape (fst m) ++
         String Text.dquote
           (": " ++ dumps_at (S level) (snd m) ++ members_tail level rest l'))
  end.

(** The statement of the round trip for one value, at any nesting level
    and before any text: enough fuel reads the value back. *)
Definition decodes (v : value) : Prop :=
  wf v ->
  forall level fuel rest,
    size v <= fuel ->
    scan_once fuel (dumps_at level v ++ rest) = Some (v, rest).

End Json.

(** ** [save_analysis]: the model as a dictionary, and its text *)

Definition strings (l : list string) : Json.value :=
  Json.Arr (map Json.Str l).

(** [asdict] of each dataclass: its fields in the order of declaration. *)
Definition asdict_route (r : Route) : Json.value :=
  Json.Obj [ ("method", Json.Str (method r));
             ("path", Json.Str (path r));
             ("handler", Json.Str (handler r));
             ("middleware", strings (middleware r));
             ("controller", Json.Str (controller r)) ].

Definition asdict_controller (c : Controller) : Json.value :=
  Json.Obj [ ("name", Json.Str (ctrl_name c));
             ("file", Json.Str (ctrl_file c));
             ("functions", strings (ctrl_functions c)) ].

Definition asdict_middleware (m : Middleware) : Json.value :=
  Json.Obj [ ("name", Json.Str (mw_name m));
             ("file", Json.Str (mw_file m));
             ("description", Json.Str (mw_description m)) ].

Definition asdict_service (s : Service) : Json.value :=
  Json.Obj [ ("name", Json.Str (svc_name s));
             ("file", Json.Str (svc_file s));
             ("functions", strings (svc_functions s)) ].

Definition dict_of_dependencies (deps : list (string * string)) : Json.value :=
  Json.Obj (map (fun d => (fst d, Json.Str (snd d))) deps).

(** The dictionary [data] of [save_analysis]. *)
Definition analysis_data (result : AnalysisResult) : Json.value :=
  Json.Obj [ ("routes", Json.Arr (map asdict_route (routes result)));
             ("controllers", Json.Arr (map asdict_controller (controllers result)));
             ("middleware", Json.Arr (map asdict_middleware (middleware_list result)));
             ("services", Json.Arr (map asdict_service (services result)));
             ("database_tables", strings (database_tables result));
             ("dependencies", dict_of_dependencies (dependencies result)) ].

(** The text that [save_analysis] writes to the output file. *)
Definition save_analysis (result : AnalysisResult) : string :=
  Json.dumps (analysis_data result).

(** A model with one entry of each kind. *)
Definition sample_model : AnalysisResult :=
  {| routes := [ mkRoute "GET" "/areas/:id" "AreaController.get"
                         ["auth"; ""] "areaController" ];
     controllers := [ mkController "areaController"
                                   "controllers/areaController.js" ["get"] ];
     middleware_list := [ mkMiddleware "auth" "middleware/auth.js"
                                       "Checks the token\ of a request" ];
     services := [ mkService "mail" "services/mail.js" [] ];
     database_tables := ["cameras"; "users"];
     dependencies := [ ("fastify", "^4.0.0"); ("bcrypt", "~5.1") ] |}.

(** ** The generator ([generate_golang.py]) *)

(** What a run does to the world, in order.  A console line is given as
    the UTF-8 text that [print] is called with. *)
Inductive event : Type :=
| Print (line : string)
| Mkdir (path : string)                (* [mkdir(parents=True, exist_ok=True)] *)
| WriteText (path content : string).   (* [write_text] *)

(** The events of a call, and whether it returned or raised. *)
Definition run : Type := (list event * result unit)%type.

Definition emit (events : list event) : run := (events, Ok tt).

Definition raise : run := ([], Raised).

(** One call after another: what follows a call that raised does not
    happen. *)
Definition and_then (a b : run) : run :=
  match snd a with
  | Ok _ => ((fst a ++ fst b)%list, snd b)
  | Raised => a
  end.

Notation "a ;;; b" := (and_then a b) (at level 62, right associativity).

(** The parts of a text that has double quotes in it, a quote standing
    between each two parts. *)
Definition quoted (parts : list string) : string :=
  String.concat (String Text.dquote "") parts.

(** *** The texts of the generated files *)

Module Templates.

(** [go.mod] *)
Definition go_mod (module_name : string) : string :=
  "module " ++
  module_name ++
  "

go 1.21

require (
	github.com/gofiber/fiber/v2 v2.52.0
	github.com/golang-jwt/jwt/v5 v5.2.0
	github.com/mattn/go-sqlite3 v1.14.19
	github.com/joho/godotenv v1.5.1
	golang.org/x/crypto v0.18.0
	github.com/google/uuid v1.5.0
)
".

(** [cmd/server/main.go] *)
Definition main_go (module_name : string) : string :=
  quoted [ "package main

import (
	";
    "log";
    "
	";
    "os";
    "
	";
    "os/signal";
    "
	";
    "syscall";
    "

	";
    "" ] ++
  module_name ++
  quoted [ "/internal/config";
    "
	";
    "" ] ++
  module_name ++
  quoted [ "/internal/database";
    "
	";
    "" ] ++
  module_name ++
  quoted [ "/internal/routes";
    "
	";
    "" ] ++
  module_name ++
  quoted [ "/pkg/logger";
    "

	";
    "github.com/gofiber/fiber/v2";
    "
	";
    "github.com/gofiber/fiber/v2/middleware/cors";
    "
	";
    "github.com/gofiber/fiber/v2/middleware/recover";
    "
)

func main() {
	// Load configuration
	cfg := config.Load()
	
	// Initialize logger
	logger.Init(cfg.Server.Env)
	
	// Initialize database
	db, err := database.Connect(cfg.Database.Path)
	if err != nil {
		log.Fatalf(";
    "Failed to connect to database: %v";
    ", err)
	}
	defer db.Close()
	
	// Run migrations
	if err := database.RunMigrations(db); err != nil {
		log.Fatalf(";
    "Failed to run migrations: %v";
    ", err)
	}
	
	// Create Fiber app
	app := fiber.New(fiber.Config{
		ErrorHandler: customErrorHandler,
		BodyLimit:    1 * 1024 * 1024, // 1MB
	})
	
	// Global middleware
	app.Use(recover.New())
	app.Use(cors.New(cors.Config{
		AllowOrigins:     cfg.Security.AllowedOrigins,
		AllowCredentials: true,
		AllowHeaders:     ";
    "Origin, Content-Type, Accept, Authorization, X-API-Key, X-CSRF-Token";
    ",
		AllowMethods:     ";
    "GET, POST, PUT, DELETE, PATCH, OPTIONS";
    ",
	}))
	
	// Health check
	app.Get(";
    "/health";
    ", func(c *fiber.Ctx) error {
		return c.JSON(fiber.Map{
			";
    "status";
    ": ";
    "ok";
    ",
			";
    "env";
    ":    cfg.Server.Env,
		})
	})
	
	// Setup routes
	routes.Setup(app, db, cfg)
	
	// Graceful shutdown
	go func() {
		sigChan := make(chan os.Signal, 1)
		signal.Notify(sigChan, os.Interrupt, syscall.SIGTERM)
		<-sigChan
		
		logger.Info(";
    "Shutting down gracefully...";
    ")
		app.Shutdown()
	}()
	
	// Start server
	addr := cfg.Server.Host + ";
    ":";
    " + cfg.Server.Port
	logger.Info(";
    "Server starting on ";
    " + addr)
	
	if err := app.Listen(addr); err != nil {
		log.Fatalf(";
    "Failed to start server: %v";
    ", err)
	}
}

func customErrorHandler(c *fiber.Ctx, err error) error {
	code := fiber.StatusInternalServerError
	
	if e, ok := err.(*fiber.Error); ok {
		code = e.Code
	}
	
	return c.Status(code).JSON(fiber.Map{
		";
    "success";
    ": false,
		";
    "message";
    ": err.Error(),
	})
}
" ].

(** [internal/config/config.go] *)
Definition config_go : string :=
  quoted [ "package config

import (
	";
    "log";
    "
	";
    "os";
    "
	";
    "strconv";
    "
	";
    "strings";
    "

	";
    "github.com/joho/godotenv";
    "
)

type Config struct {
	Server   ServerConfig
	Database DatabaseConfig
	JWT      JWTConfig
	Security SecurityConfig
	MediaMTX MediaMTXConfig
}

type ServerConfig struct {
	Host string
	Port string
	Env  string
}

type DatabaseConfig struct {
	Path string
}

type JWTConfig struct {
	Secret     string
	Expiration string
}

type SecurityConfig struct {
	AllowedOrigins       string
	APIKeySecret         string
	CSRFSecret           string
	RateLimitPublic      int
	RateLimitAuth        int
	MaxLoginAttempts     int
	LockoutDurationMins  int
}

type MediaMTXConfig struct {
	APIURL     string
	HLSURLInternal string
	HLSURLPublic   string
}

func Load() *Config {
	// Load .env file
	if err := godotenv.Load(); err != nil {
		log.Println(";
    "No .env file found, using environment variables";
    ")
	}
	
	return &Config{
		Server: ServerConfig{
			Host: getEnv(";
    "HOST";
    ", ";
    "0.0.0.0";
    "),
			Port: getEnv(";
    "PORT";
    ", ";
    "3000";
    "),
			Env:  getEnv(";
    "NODE_ENV";
    ", ";
    "development";
    "),
		},
		Database: DatabaseConfig{
			Path: getEnv(";
    "DATABASE_PATH";
    ", ";
    "./data/cctv.db";
    "),
		},
		JWT: JWTConfig{
			Secret:     getEnv(";
    "JWT_SECRET";
    ", ";
    "change-this-secret";
    "),
			Expiration: getEnv(";
    "JWT_EXPIRATION";
    ", ";
    "1h";
    "),
		},
		Security: SecurityConfig{
			AllowedOrigins:      getEnv(";
    "ALLOWED_ORIGINS";
    ", ";
    "http://localhost:5173";
    "),
			APIKeySecret:        getEnv(";
    "API_KEY_SECRET";
    ", ";
    "";
    "),
			CSRFSecret:          getEnv(";
    "CSRF_SECRET";
    ", ";
    "";
    "),
			RateLimitPublic:     getEnvInt(";
    "RATE_LIMIT_PUBLIC";
    ", 100),
			RateLimitAuth:       getEnvInt(";
    "RATE_LIMIT_AUTH";
    ", 30),
			MaxLoginAttempts:    getEnvInt(";
    "MAX_LOGIN_ATTEMPTS";
    ", 5),
			LockoutDurationMins: getEnvInt(";
    "LOCKOUT_DURATION_MINUTES";
    ", 30),
		},
		MediaMTX: MediaMTXConfig{
			APIURL:         getEnv(";
    "MEDIAMTX_API_URL";
    ", ";
    "http://localhost:9997";
    "),
			HLSURLInternal: getEnv(";
    "MEDIAMTX_HLS_URL_INTERNAL";
    ", ";
    "http://localhost:8888";
    "),
			HLSURLPublic:   getEnv(";
    "PUBLIC_HLS_PATH";
    ", ";
    "/hls";
    "),
		},
	}
}

func getEnv(key, defaultValue string) string {
	if value := os.Getenv(key); value != ";
    "";
    " {
		return value
	}
	return defaultValue
}

func getEnvInt(key string, defaultValue int) int {
	if value := os.Getenv(key); value != ";
    "";
    " {
		if intVal, err := strconv.Atoi(value); err == nil {
			return intVal
		}
	}
	return defaultValue
}
" ].

(** [internal/database/database.go] *)
Definition database_go : string :=
  quoted [ "package database

import (
	";
    "database/sql";
    "
	";
    "fmt";
    "
	";
    "os";
    "
	";
    "path/filepath";
    "

	_ ";
    "github.com/mattn/go-sqlite3";
    "
)

func Connect(dbPath string) (*sql.DB, error) {
	// Ensure directory exists
	dir := filepath.Dir(dbPath)
	if err := os.MkdirAll(dir, 0755); err != nil {
		return nil, fmt.Errorf(";
    "failed to create database directory: %w";
    ", err)
	}
	
	// Open database
	db, err := sql.Open(";
    "sqlite3";
    ", dbPath+";
    "?_foreign_keys=on&_journal_mode=WAL";
    ")
	if err != nil {
		return nil, fmt.Errorf(";
    "failed to open database: %w";
    ", err)
	}
	
	// Test connection
	if err := db.Ping(); err != nil {
		return nil, fmt.Errorf(";
    "failed to ping database: %w";
    ", err)
	}
	
	return db, nil
}

func RunMigrations(db *sql.DB) error {
	// Create tables if not exists
	migrations := []string{
		`CREATE TABLE IF NOT EXISTS users (
			id INTEGER PRIMARY KEY AUTOINCREMENT,
			username TEXT UNIQUE NOT NULL,
			password_hash TEXT NOT NULL,
			role TEXT DEFAULT 'admin',
			created_at DATETIME DEFAULT CURRENT_TIMESTAMP
		)`,
		`CREATE TABLE IF NOT EXISTS areas (
			id INTEGER PRIMARY KEY AUTOINCREMENT,
			name TEXT UNIQUE NOT NULL,
			description TEXT,
			rt TEXT,
			rw TEXT,
			kelurahan TEXT,
			kecamatan TEXT,
			created_at DATETIME DEFAULT CURRENT_TIMESTAMP
		)`,
		`CREATE TABLE IF NOT EXISTS cameras (
			id INTEGER PRIMARY KEY AUTOINCREMENT,
			name TEXT NOT NULL,
			private_rtsp_url TEXT NOT NULL,
			description TEXT,
			location TEXT,
			group_name TEXT,
			area_id INTEGER,
			enabled INTEGER DEFAULT 1,
			stream_key TEXT,
			created_at DATETIME DEFAULT CURRENT_TIMESTAMP,
			updated_at DATETIME DEFAULT CURRENT_TIMESTAMP,
			FOREIGN KEY (area_id) REFERENCES areas(id) ON DELETE SET NULL
		)`,
		`CREATE TABLE IF NOT EXISTS audit_logs (
			id INTEGER PRIMARY KEY AUTOINCREMENT,
			user_id INTEGER,
			action TEXT NOT NULL,
			details TEXT,
			ip_address TEXT,
			created_at DATETIME DEFAULT CURRENT_TIMESTAMP,
			FOREIGN KEY (user_id) REFERENCES users(id) ON DELETE SET NULL
		)`,
		`CREATE TABLE IF NOT EXISTS feedbacks (
			id INTEGER PRIMARY KEY AUTOINCREMENT,
			name TEXT,
			email TEXT,
			message TEXT NOT NULL,
			status TEXT DEFAULT 'unread',
			ip_address TEXT,
			created_at DATETIME DEFAULT CURRENT_TIMESTAMP
		)`,
	}
	
	for _, migration := range migrations {
		if _, err := db.Exec(migration); err != nil {
			return fmt.Errorf(";
    "migration failed: %w";
    ", err)
		}
	}
	
	return nil
}
" ].

(** The entry [users] of [models_map] *)
Definition model_users : string :=
  quoted [ "package models

import ";
    "time";
    "

type User struct {
	ID           int       `json:";
    "id";
    " db:";
    "id";
    "`
	Username     string    `json:";
    "username";
    " db:";
    "username";
    "`
	PasswordHash string    `json:";
    "-";
    " db:";
    "password_hash";
    "`
	Role         string    `json:";
    "role";
    " db:";
    "role";
    "`
	CreatedAt    time.Time `json:";
    "created_at";
    " db:";
    "created_at";
    "`
}

type LoginRequest struct {
	Username string `json:";
    "username";
    " validate:";
    "required";
    "`
	Password string `json:";
    "password";
    " validate:";
    "required";
    "`
}

type LoginResponse struct {
	Success bool   `json:";
    "success";
    "`
	Token   string `json:";
    "token,omitempty";
    "`
	Message string `json:";
    "message,omitempty";
    "`
}
" ].

(** The entry [cameras] of [models_map] *)
Definition model_cameras : string :=
  quoted [ "package models

import ";
    "time";
    "

type Camera struct {
	ID             int       `json:";
    "id";
    " db:";
    "id";
    "`
	Name           string    `json:";
    "name";
    " db:";
    "name";
    "`
	PrivateRTSPURL string    `json:";
    "private_rtsp_url,omitempty";
    " db:";
    "private_rtsp_url";
    "`
	Description    string    `json:";
    "description";
    " db:";
    "description";
    "`
	Location       string    `json:";
    "location";
    " db:";
    "location";
    "`
	GroupName      string    `json:";
    "group_name";
    " db:";
    "group_name";
    "`
	AreaID         *int      `json:";
    "area_id";
    " db:";
    "area_id";
    "`
	Enabled        bool      `json:";
    "enabled";
    " db:";
    "enabled";
    "`
	StreamKey      string    `json:";
    "stream_key";
    " db:";
    "stream_key";
    "`
	CreatedAt      time.Time `json:";
    "created_at";
    " db:";
    "created_at";
    "`
	UpdatedAt      time.Time `json:";
    "updated_at";
    " db:";
    "updated_at";
    "`
}
" ].

(** [internal/middleware/auth.go] *)
Definition auth_content : string :=
  quoted [ "package middleware

import (
	";
    "strings";
    "

	";
    "github.com/gofiber/fiber/v2";
    "
	";
    "github.com/golang-jwt/jwt/v5";
    "
)

type JWTClaims struct {
	UserID   int    `json:";
    "user_id";
    "`
	Username string `json:";
    "username";
    "`
	Role     string `json:";
    "role";
    "`
	jwt.RegisteredClaims
}

func AuthMiddleware(secret string) fiber.Handler {
	return func(c *fiber.Ctx) error {
		// Get token from header
		authHeader := c.Get(";
    "Authorization";
    ")
		if authHeader == ";
    "";
    " {
			// Try cookie
			token := c.Cookies(";
    "token";
    ")
			if token == ";
    "";
    " {
				return c.Status(fiber.StatusUnauthorized).JSON(fiber.Map{
					";
    "success";
    ": false,
					";
    "message";
    ": ";
    "Unauthorized - No token provided";
    ",
				})
			}
			authHeader = ";
    "Bearer ";
    " + token
		}
		
		// Extract token
		parts := strings.Split(authHeader, ";
    " ";
    ")
		if len(parts) != 2 || parts[0] != ";
    "Bearer";
    " {
			return c.Status(fiber.StatusUnauthorized).JSON(fiber.Map{
				";
    "success";
    ": false,
				";
    "message";
    ": ";
    "Invalid authorization header";
    ",
			})
		}
		
		tokenString := parts[1]
		
		// Parse and validate token
		token, err := jwt.ParseWithClaims(tokenString, &JWTClaims{}, func(token *jwt.Token) (interface{}, error) {
			return []byte(secret), nil
		})
		
		if err != nil || !token.Valid {
			return c.Status(fiber.StatusUnauthorized).JSON(fiber.Map{
				";
    "success";
    ": false,
				";
    "message";
    ": ";
    "Invalid or expired token";
    ",
			})
		}
		
		// Store claims in context
		if claims, ok := token.Claims.(*JWTClaims); ok {
			c.Locals(";
    "user_id";
    ", claims.UserID)
			c.Locals(";
    "username";
    ", claims.Username)
			c.Locals(";
    "role";
    ", claims.Role)
		}
		
		return c.Next()
	}
}
" ].

(** [internal/handlers/auth.go] *)
Definition auth_handler (module_name : string) : string :=
  quoted [ "package handlers

import (
	";
    "database/sql";
    "
	";
    "time";
    "

	";
    "" ] ++
  module_name ++
  quoted [ "/internal/config";
    "
	";
    "" ] ++
  module_name ++
  quoted [ "/internal/models";
    "

	";
    "github.com/gofiber/fiber/v2";
    "
	";
    "github.com/golang-jwt/jwt/v5";
    "
	";
    "golang.org/x/crypto/bcrypt";
    "
)

type AuthHandler struct {
	db  *sql.DB
	cfg *config.Config
}

func NewAuthHandler(db *sql.DB, cfg *config.Config) *AuthHandler {
	return &AuthHandler{db: db, cfg: cfg}
}

func (h *AuthHandler) Login(c *fiber.Ctx) error {
	var req models.LoginRequest
	if err := c.BodyParser(&req); err != nil {
		return c.Status(fiber.StatusBadRequest).JSON(fiber.Map{
			";
    "success";
    ": false,
			";
    "message";
    ": ";
    "Invalid request body";
    ",
		})
	}
	
	// Get user from database
	var user models.User
	err := h.db.QueryRow(
		";
    "SELECT id, username, password_hash, role FROM users WHERE username = ?";
    ",
		req.Username,
	).Scan(&user.ID, &user.Username, &user.PasswordHash, &user.Role)
	
	if err == sql.ErrNoRows {
		return c.Status(fiber.StatusUnauthorized).JSON(fiber.Map{
			";
    "success";
    ": false,
			";
    "message";
    ": ";
    "Invalid credentials";
    ",
		})
	}
	
	if err != nil {
		return c.Status(fiber.StatusInternalServerError).JSON(fiber.Map{
			";
    "success";
    ": false,
			";
    "message";
    ": ";
    "Database error";
    ",
		})
	}
	
	// Verify password
	if err := bcrypt.CompareHashAndPassword([]byte(user.PasswordHash), []byte(req.Password)); err != nil {
		return c.Status(fiber.StatusUnauthorized).JSON(fiber.Map{
			";
    "success";
    ": false,
			";
    "message";
    ": ";
    "Invalid credentials";
    ",
		})
	}
	
	// Generate JWT token
	claims := jwt.MapClaims{
		";
    "user_id";
    ":  user.ID,
		";
    "username";
    ": user.Username,
		";
    "role";
    ":     user.Role,
		";
    "exp";
    ":      time.Now().Add(time.Hour * 24).Unix(),
	}
	
	token := jwt.NewWithClaims(jwt.SigningMethodHS256, claims)
	tokenString, err := token.SignedString([]byte(h.cfg.JWT.Secret))
	if err != nil {
		return c.Status(fiber.StatusInternalServerError).JSON(fiber.Map{
			";
    "success";
    ": false,
			";
    "message";
    ": ";
    "Failed to generate token";
    ",
		})
	}
	
	// Set cookie
	c.Cookie(&fiber.Cookie{
		Name:     ";
    "token";
    ",
		Value:    tokenString,
		HTTPOnly: true,
		Secure:   h.cfg.Server.Env == ";
    "production";
    ",
		SameSite: ";
    "Lax";
    ",
		MaxAge:   86400, // 24 hours
	})
	
	return c.JSON(fiber.Map{
		";
    "success";
    ": true,
		";
    "token";
    ":   tokenString,
		";
    "user";
    ": fiber.Map{
			";
    "id";
    ":       user.ID,
			";
    "username";
    ": user.Username,
			";
    "role";
    ":     user.Role,
		},
	})
}

func (h *AuthHandler) Logout(c *fiber.Ctx) error {
	c.Cookie(&fiber.Cookie{
		Name:     ";
    "token";
    ",
		Value:    ";
    "";
    ",
		HTTPOnly: true,
		MaxAge:   -1,
	})
	
	return c.JSON(fiber.Map{
		";
    "success";
    ": true,
		";
    "message";
    ": ";
    "Logged out successfully";
    ",
	})
}

func (h *AuthHandler) Verify(c *fiber.Ctx) error {
	userID := c.Locals(";
    "user_id";
    ")
	username := c.Locals(";
    "username";
    ")
	role := c.Locals(";
    "role";
    ")
	
	return c.JSON(fiber.Map{
		";
    "success";
    ": true,
		";
    "user";
    ": fiber.Map{
			";
    "id";
    ":       userID,
			";
    "username";
    ": username,
			";
    "role";
    ":     role,
		},
	})
}
" ].

(** [internal/routes/routes.go] *)
Definition routes_go (module_name : string) : string :=
  quoted [ "package routes

import (
	";
    "database/sql";
    "

	";
    "" ] ++
  module_name ++
  quoted [ "/internal/config";
    "
	";
    "" ] ++
  module_name ++
  quoted [ "/internal/handlers";
    "
	";
    "" ] ++
  module_name ++
  quoted [ "/internal/middleware";
    "

	";
    "github.com/gofiber/fiber/v2";
    "
)

func Setup(app *fiber.App, db *sql.DB, cfg *config.Config) {
	// Initialize handlers
	authHandler := handlers.NewAuthHandler(db, cfg)
	
	// API routes
	api := app.Group(";
    "/api";
    ")
	
	// Auth routes (public)
	auth := api.Group(";
    "/auth";
    ")
	auth.Post(";
    "/login";
    ", authHandler.Login)
	auth.Post(";
    "/logout";
    ", authHandler.Logout)
	
	// Protected routes
	authMiddleware := middleware.AuthMiddleware(cfg.JWT.Secret)
	auth.Get(";
    "/verify";
    ", authMiddleware, authHandler.Verify)
	
	// TODO: Add more routes here
	// cameras := api.Group(";
    "/cameras";
    ", authMiddleware)
	// areas := api.Group(";
    "/areas";
    ", authMiddleware)
	// etc...
}
" ].

(** [pkg/logger/logger.go] *)
Definition logger_content : string :=
  quoted [ "package logger

import (
	";
    "log";
    "
	";
    "os";
    "
)

var (
	infoLogger  *log.Logger
	errorLogger *log.Logger
)

func Init(env string) {
	infoLogger = log.New(os.Stdout, ";
    "INFO: ";
    ", log.Ldate|log.Ltime|log.Lshortfile)
	errorLogger = log.New(os.Stderr, ";
    "ERROR: ";
    ", log.Ldate|log.Ltime|log.Lshortfile)
}

func Info(v ...interface{}) {
	infoLogger.Println(v...)
}

func Error(v ...interface{}) {
	errorLogger.Println(v...)
}
" ].

(** [Dockerfile] *)
Definition dockerfile : string :=
  quoted [ "# Build stage
FROM golang:1.21-alpine AS builder

WORKDIR /app

# Install dependencies
RUN apk add --no-cache git gcc musl-dev sqlite-dev

# Copy go mod files
COPY go.mod go.sum ./
RUN go mod download

# Copy source code
COPY . .

# Build
RUN CGO_ENABLED=1 GOOS=linux go build -a -installsuffix cgo -o server ./cmd/server

# Runtime stage
FROM alpine:latest

RUN apk --no-cache add ca-certificates sqlite-libs

WORKDIR /root/

# Copy binary from builder
COPY --from=builder /app/server .

# Copy .env if exists
COPY .env* ./

# Expose port
EXPOSE 3000

CMD [";
    "./server";
    "]
" ].

(** [Makefile] *)
Definition makefile : string :=
  quoted [ "# Makefile for Golang CCTV Backend

.PHONY: help build run test clean docker-build docker-run

help:
	@echo ";
    "Available commands:";
    "
	@echo ";
    "  make build        - Build the application";
    "
	@echo ";
    "  make run          - Run the application";
    "
	@echo ";
    "  make test         - Run tests";
    "
	@echo ";
    "  make clean        - Clean build artifacts";
    "
	@echo ";
    "  make docker-build - Build Docker image";
    "
	@echo ";
    "  make docker-run   - Run Docker container";
    "

build:
	go build -o bin/server ./cmd/server

run:
	go run ./cmd/server/main.go

test:
	go test -v ./...

clean:
	rm -rf bin/
	go clean

docker-build:
	docker build -t cctv-backend-go .

docker-run:
	docker run -p 3000:3000 --env-file .env cctv-backend-go

deps:
	go mod download
	go mod tidy

fmt:
	go fmt ./...

lint:
	golangci-lint run
" ].

End Templates.

(** *** The methods of [GolangGenerator] *)

Definition output_dir : string := "backend-go".

(** [self.output_dir / rel] *)
Definition in_output (rel : string) : string := output_dir ++ "/" ++ rel.

Definition dirs : list string :=
  [ "cmd/server"; "internal/config"; "internal/database"; "internal/models";
    "internal/middleware"; "internal/handlers"; "internal/routes";
    "internal/services"; "internal/utils"; "pkg/logger"; "migrations" ].

Definition create_directory_structure : run :=
  emit (map (fun dir_path => Mkdir (in_output dir_path)) dirs ++
        [ Print "  ✓ Created directory structure" ])%list.

Definition generate_go_mod (module_name : string) : run :=
  emit [ WriteText (in_output "go.mod") (Templates.go_mod module_name);
         Print "  ✓ Generated go.mod" ].

Definition generate_main (module_name : string) : run :=
  emit [ WriteText (in_output "cmd/server/main.go") (Templates.main_go module_name);
         Print "  ✓ Generated main.go" ].

Definition generate_config : run :=
  emit [ WriteText (in_output "internal/config/config.go") Templates.config_go;
         Print "  ✓ Generated config.go" ].

Definition generate_database : run :=
  emit [ WriteText (in_output "internal/database/database.go") Templates.database_go;
         Print "  ✓ Generated database.go" ].

Definition models_map : list (string * string) :=
  [ ("users", Templates.model_users); ("cameras", Templates.model_cameras) ].

(** [models_map.get(key, default)] *)
Fixpoint get_or (key default : string) (d : list (string * string)) : string :=
  match d with
  | [] => default
  | (k, v) :: d' => if String.eqb k key then v else get_or key default d'
  end.

Definition string_of_nat (n : nat) : string :=
  NilEmpty.string_of_uint (Nat.to_uint n).

(** [generate_models] reads the tables of the analysis, which raises when
    the analysis is not a dictionary, and does not use them. *)
Definition generate_models (analysis : Json.value) : run :=
  match analysis with
  | Json.Obj d =>
      let tables := match Json.lookup "database_tables" d with
                    | Some t => t
                    | None => Json.Arr []
                    end in
      emit [ WriteText (in_output "internal/models/user.go")
                       (get_or "users" "" models_map);
             WriteText (in_output "internal/models/camera.go")
                       (get_or "cameras" "" models_map);
             Print ("  ✓ Generated " ++ string_of_nat (List.length models_map)
                    ++ " model files") ]
  | _ => raise
  end.

Definition generate_middleware : run :=
  emit [ WriteText (in_output "internal/middleware/auth.go") Templates.auth_content;
         Print "  ✓ Generated middleware" ].

Definition generate_handlers (module_name : string) : run :=
  emit [ WriteText (in_output "internal/handlers/auth.go")
                   (Templates.auth_handler module_name);
         Print "  ✓ Generated handlers" ].

Definition generate_routes (module_name : string) : run :=
  emit [ WriteText (in_output "internal/routes/routes.go")
                   (Templates.routes_go module_name);
         Print "  ✓ Generated routes.go" ].

Definition generate_services : run :=
  emit [ WriteText (in_output "pkg/logger/logger.go") Templates.logger_content;
         Print "  ✓ Generated services" ].

Definition generate_dockerfile : run :=
  emit [ WriteText (in_output "Dockerfile") Templates.dockerfile;
         Print "  ✓ Generated Dockerfile" ].

Definition generate_makefile : run :=
  emit [ WriteText (in_output "Makefile") Templates.makefile;
         Print "  ✓ Generated Makefile" ].

Definition generate_all (analysis : Json.value) (module_name : string) : run :=
  emit [ Print "🚀 Generating Golang project..." ] ;;;
  create_directory_structure ;;;
  generate_go_mod module_name ;;;
  generate_main module_name ;;;
  generate_config ;;;
  generate_database ;;;
  generate_models analysis ;;;
  generate_middleware ;;;
  generate_handlers module_name ;;;
  generate_routes module_name ;;;
  generate_services ;;;
  generate_dockerfile ;;;
  generate_makefile ;;;
  emit [ Print "
✅ Golang project generated successfully!";
         Print ("📁 Output directory: " ++ output_dir) ].

(** *** The entry point *)

Definition analysis_file : string := "migration-tools/analysis_result.json".

Definition default_module_name : string :=
  "github.com/yourusername/cctv-backend".

Fixpoint repeat_string (s : string) (n : nat) : string :=
  match n with
  | O => EmptyString
  | S k => s ++ repeat_string s k
  end.

Definition next_steps : list event :=
  [ Print (String Text.newline (repeat_string "=" 60));
    Print "📝 NEXT STEPS:";
    Print (repeat_string "=" 60);
    Print "1. cd backend-go";
    Print "2. go mod tidy";
    Print "3. Copy .env from backend/ to backend-go/";
    Print "4. go run cmd/server/main.go";
    Print "
Or using Docker:";
    Print "1. cd backend-go";
    Print "2. make docker-build";
    Print "3. make docker-run";
    Print (repeat_string "=" 60) ].

(** The files the generator can see: [None] for a path that does not
    exist, [Some None] for one that exists and cannot be opened and read. *)
Definition files : Type := string -> option (option string).

(** [GolangGenerator.__init__]: the analysis is loaded at once. *)
Definition load_analysis (fs : files) : option Json.value :=
  match fs analysis_file with
  | Some (Some text) => Json.loads text
  | _ => None
  end.

(** [main], with [sys.argv] and the files as they are when it starts. *)
Definition main (argv : list string) (fs : files) : run :=
  let module_name := match argv with
                     | _ :: name :: _ => name
                     | _ => default_module_name
                     end in
  match fs analysis_file with
  | None =>
      emit [ Print ("❌ Analysis file not found: " ++ analysis_file);
             Print "   Run analyze_backend.py first!" ]
  | Some _ =>
      match load_analysis fs with
      | None => raise
      | Some analysis =>
          generate_all analysis module_name ;;; emit next_steps
      end
  end.

(** The writes among the events: directories made, files written. *)
Definition is_write (e : event) : bool :=
  match e with
  | Print _ => false
  | Mkdir _ => true
  | WriteText _ _ => true
  end.

Definition writes (events : list event) : list event :=
  filter is_write events.

Definition printed (events : list event) : list string :=
  flat_map (fun e => match e with Print line => [line] | _ => [] end) events.

(** The text of a file after the events: that of the last write to it. *)
Fixpoint written (path : string) (events : list event) : option string :=
  match events with
  | [] => None
  | e :: events' =>
      match written path events' with
      | Some content => Some content
      | None =>
          match e with
          | WriteText p content => if String.eqb p path then Some content else None
          | _ => None
          end
      end
  end.

(** The five tables of the persistence bootstrap. *)
Definition core_tables : list string :=
  [ "users"; "areas"; "cameras"; "audit_logs"; "feedbacks" ].

(** ** What a pattern can match

    The texts of a pattern, read off its syntax; groups do not change
    them.  The matcher is sound for it ([RegexFacts.run_sound] below), which
    gives what every captured field looks like. *)

Module Lang.
Import Re.

Fixpoint all_chars (ok : ascii -> bool) (s : string) : bool :=
  match s with
  | EmptyString => true
  | String a s' => ok a && all_chars ok s'
  end.

Inductive lang (ic : bool) : regex -> string -> Prop :=
| lang_Eps : lang ic Eps EmptyString
| lang_Cls cl a :
    accepts ic cl a = true -> lang ic (Cls cl) (String a EmptyString)
| lang_Seq r1 r2 t1 t2 :
    lang ic r1 t1 -> lang ic r2 t2 -> lang ic (Seq r1 r2) (t1 ++ t2)
| lang_Alt_l r1 r2 t : lang ic r1 t -> lang ic (Alt r1 r2) t
| lang_Alt_r r1 r2 t : lang ic r2 t -> lang ic (Alt r1 r2) t
| lang_Rep g cl t :
    all_chars (accepts ic cl) t = true -> lang ic (Rep g cl) t
| lang_Grp n r t : lang ic r t -> lang ic (Grp n r) t.

(** The patterns inside the groups numbered [n] of [r]. *)
Fixpoint groups_of (n : nat) (r : regex) : list regex :=
  match r with
  | Eps => []
  | Cls _ => []
  | Seq r1 r2 => (groups_of n r1 ++ groups_of n r2)%list
  | Alt r1 r2 => (groups_of n r1 ++ groups_of n r2)%list
  | Rep _ _ => []
  | Grp m r1 =>
      if Nat.eqb m n then r1 :: groups_of n r1 else groups_of n r1
  end.

(** A non-empty run of word characters: what [\w+] captures. *)
Definition is_identifier (s : string) : bool :=
  match s with
  | EmptyString => false
  | _ => all_chars Text.is_word s
  end.

End Lang.

(** The five methods a route can have. *)
Definition http_methods : list string :=
  [ "GET"; "POST"; "PUT"; "DELETE"; "PATCH" ].

Definition is_quote (a : ascii) : bool :=
  Ascii.eqb a "'" || Ascii.eqb a Text.dquote.

(** A controller with an asynchronous function, an asynchronous constant
    and a plain function; a service with a class; a middleware with a
    leading block comment. *)
Definition auth_controller_js : source_file :=
  mkFile "authController.js"
    (Some "export async function login(request, reply) {}
export const logout = async (request, reply) => {}
export function verify(request) {}").

Definition mail_service_js : source_file :=
  mkFile "mailService.js"
    (Some "export class Mailer {}
export const send = (to) => {}").

Definition auth_middleware_js : source_file :=
  mkFile "authMiddleware.js"
    (Some "/**
 * Checks the token of a request
 */
export function check() {}").

Definition auth_tree : backend :=
  mkBackend (Some [ mkFile "authRoutes.js"
                      (Some "fastify.post('/auth/login', AuthController.login)") ])
            (Some [auth_controller_js]) (Some [auth_middleware_js])
            (Some [mail_service_js]) None None None.

(** No white space at the start. *)
Definition trimmed_left (s : string) : Prop :=
  match s with
  | EmptyString => True
  | String a _ => Text.is_space a = false
  end.

(** ** The file system under the events of the generator *)

(** [Path.parent] of a relative path: the text before its last slash. *)
Definition parent (path : string) : string :=
  match rfind "/" path with
  | Some i => substring 0 i path
  | None => EmptyString
  end.

(** The directories that [mkdir(parents=True)] makes sure of: the path
    and every directory above it.  [above] is the text before [s]. *)
Fixpoint with_parents (above s : string) : list string :=
  match s with
  | EmptyString => [above]
  | String a s' =>
      if Ascii.eqb a "/"
      then above :: with_parents (above ++ "/") s'
      else with_parents (above ++ String a EmptyString) s'
  end.

(** Whether every file is written into a directory that an earlier event
    has made, [made] being the directories at the start. *)
Fixpoint dirs_made_before_files (made : list string) (events : list event)
    : bool :=
  match events with
  | [] => true
  | Print _ :: events' => dirs_made_before_files made events'
  | Mkdir p :: events' =>
      dirs_made_before_files (with_parents "" p ++ made)%list events'
  | WriteText p _ :: events' =>
      existsb (String.eqb (parent p)) made &&
      dirs_made_before_files made events'
  end.

Definition files_written (events : list event) : list string :=
  flat_map (fun e => match e with WriteText p _ => [p] | _ => [] end) events.

Definition dirs_made (events : list event) : list string :=
  flat_map (fun e => match e with Mkdir p => [p] | _ => [] end) events.

(** The files after the events of a run. *)
Definition after (fs : files) (events : list event) : files :=
  fun path =>
    match written path events with
    | Some content => Some (Some content)
    | None => fs path
    end.

(** The characters of a text file that any encoding of ASCII reads the
    same: the printable ones and the line feed. *)
Definition is_plain (a : ascii) : bool :=
  Text.between 32 126 a || Ascii.eqb a Text.newline.

(** ** The console of the analyzer: progress lines, [print_summary], [main] *)

(** [methods[route.method] = methods.get(route.method, 0) + 1] on a
    dictionary kept as the list of its items in insertion order. *)
Fixpoint count_up (key : string) (counts : list (string * nat))
    : list (string * nat) :=
  match counts with
  | [] => [(key, 1)]
  | (k, n) :: rest =>
      if String.eqb k key then (k, n + 1) :: rest
      else (k, n) :: count_up key rest
  end.

Definition method_counts (routes : list Route) : list (string * nat) :=
  fold_left (fun methods route => count_up (method route) methods) routes [].

(** [sorted]: a stable sort, here by insertion from the right. *)
Fixpoint insert_sorted {A : Type} (le : A -> A -> bool) (x : A) (l : list A)
    : list A :=
  match l with
  | [] => [x]
  | y :: l' => if le x y then x :: l else y :: insert_sorted le x l'
  end.

Definition sorted {A : Type} (le : A -> A -> bool) (l : list A) : list A :=
  fold_right (insert_sorted le) [] l.

(** The order of Python on the items of the dictionary: by key, then by
    count. *)
Definition item_le (a b : string * nat) : bool :=
  match String.compare (fst a) (fst b) with
  | Lt => true
  | Eq => (snd a <=? snd b)%nat
  | Gt => false
  end.

Definition rule : string := repeat_string "=" 60.

(** The lines of a list of controllers or services: the first five, then
    how many more there are. *)
Definition entry_line (name : string) (functions : list string) : string :=
  "   - " ++ name ++ " (" ++ string_of_nat (List.length functions) ++
  " functions)".

Definition more_line (n : nat) : string :=
  "   ... and " ++ string_of_nat (n - 5) ++ " more".

Definition first_five {A : Type} (name : A -> string)
    (functions : A -> list string) (l : list A) : list string :=
  List.concat
    [ map (fun x => entry_line (name x) (functions x)) (firstn 5 l);
      if (5 <? List.length l)%nat then [ more_line (List.length l) ] else [] ].

Definition key_deps : list string :=
  [ "fastify"; "better-sqlite3"; "bcrypt"; "jsonwebtoken"; "axios" ].

(** [result.dependencies[dep]] when [dep in result.dependencies] *)
Fixpoint dependency (dep : string) (deps : list (string * string))
    : option string :=
  match deps with
  | [] => None
  | (k, v) :: deps' => if String.eqb k dep then Some v else dependency dep deps'
  end.

(** The lines that [print_summary] prints, in order. *)
Definition summary_lines (result : AnalysisResult) : list string :=
  List.concat
    [ [ String Text.newline rule; "📊 BACKEND ANALYSIS SUMMARY"; rule;
        "
📍 Routes: " ++ string_of_nat (List.length (routes result)) ];
      map (fun item => "   " ++ fst item ++ ": " ++ string_of_nat (snd item))
          (sorted item_le (method_counts (routes result)));
      [ "
🎮 Controllers: " ++ string_of_nat (List.length (controllers result)) ];
      first_five ctrl_name ctrl_functions (controllers result);
      [ "
🛡️  Middleware: " ++ string_of_nat (List.length (middleware_list result)) ];
      map (fun mw => "   - " ++ mw_name mw) (middleware_list result);
      [ "
⚙️  Services: " ++ string_of_nat (List.length (services result)) ];
      first_five svc_name svc_functions (services result);
      [ "
🗄️  Database Tables: " ++ string_of_nat (List.length (database_tables result)) ];
      map (fun table => "   - " ++ table)
          (sorted String.leb (database_tables result));
      [ "
📦 Key Dependencies:" ];
      flat_map (fun dep =>
                  match dependency dep (dependencies result) with
                  | Some version => [ "   - " ++ dep ++ ": " ++ version ]
                  | None => []
                  end) key_deps;
      [ String Text.newline rule ] ].

Definition print_summary (result : AnalysisResult) : list event :=
  map Print (summary_lines result).

(** The line a pass prints when it has gone through its directory; a pass
    that finds no directory returns before it. *)
Definition found (there : bool) (n : nat) (what : string) : list event :=
  if there then [ Print ("  ✓ Found " ++ string_of_nat n ++ " " ++ what) ] else [].

Definition exists_ {A : Type} (x : option A) : bool :=
  match x with
  | Some _ => true
  | None => false
  end.

(** A pass of [analyze] with its console line, then the rest of the
    run. *)
Definition pass {A : Type} (x : result A) (line : A -> list event)
    (rest : A -> run) : run :=
  match x with
  | Ok a => (List.app (line a) (fst (rest a)), snd (rest a))
  | Raised => raise
  end.

Definition saved_to : string := "migration-tools/analysis_result.json".

(** [Path.write_text]: the file is opened for writing, which raises when
    its directory does not exist; [made] are the directories that exist.
    Other failures of a write are left out. *)
Definition write_text (made : list string) (path content : string) : run :=
  if existsb (String.eqb (parent path)) made
  then emit [ WriteText path content ]
  else raise.

(** [main] of the analyzer: [analyze], [print_summary], [save_analysis],
    in a working directory where the directories [made] exist.  The
    analyzer makes no directory of its own. *)
Definition analyzer_main (order : set_order) (b : backend)
    (made : list string) : run :=
  emit [ Print "🔍 Analyzing backend structure..." ] ;;;
  pass (analyze_routes b)
       (fun x => found (exists_ (routes_dir b)) (List.length x) "routes")
  (fun routes =>
  pass (analyze_controllers order b)
       (fun x => found (exists_ (controllers_dir b)) (List.length x) "controllers")
  (fun controllers =>
  pass (analyze_middleware b)
       (fun x => found (exists_ (middleware_dir b)) (List.length x) "middleware")
  (fun middleware =>
  pass (analyze_services order b)
       (fun x => found (exists_ (services_dir b)) (List.length x) "services")
  (fun services =>
  pass (analyze_database_schema order b)
       (fun x => found (exists_ (migrations_dir b)) (List.length x) "database tables")
  (fun tables =>
  pass (analyze_dependencies b)
       (fun x => found (exists_ (package_json b)) (List.length x) "dependencies")
  (fun deps =>
     let result := {| routes := routes;
                      controllers := controllers;
                      middleware_list := middleware;
                      services := services;
                      database_tables := tables;
                      dependencies := deps |} in
     emit (print_summary result) ;;;
     write_text made saved_to (save_analysis result) ;;;
     emit [ Print ("
✅ Analysis saved to " ++ saved_to) ])))))).


(** Only console lines. *)
Definition only_prints (events : list event) : bool :=
  forallb (fun e => negb (is_write e)) events.

(** Another order: that of the first occurrences. *)
Definition first_seen : set_order :=
  {| list_of_set := fun xs => rev (nodup string_dec (rev xs));
     list_of_set_NoDup :=
       fun xs => NoDup_rev (NoDup_nodup string_dec (rev xs));
     list_of_set_In :=
       fun xs x =>
         iff_trans (iff_sym (in_rev (nodup string_dec (rev xs)) x))
           (iff_trans (nodup_In string_dec (rev xs) x)
                      (iff_sym (in_rev xs x))) |}.

(** A tree whose service exports a name twice, and two tables. *)
Definition twice_tree : backend :=
  mkBackend None None None
    (Some [ mkFile "queue.js"
              (Some "export function push() {}
export const pop = () => {}
export class push {}") ])
    (Some [ mkFile "001.js"
              (Some "CREATE TABLE users (id); CREATE TABLE areas (id); CREATE TABLE users (id)") ])
    None None.

(** ** Routes in the two forms that the comments of [analyze_routes] give

    [fastify.get('/path', { preHandler: [...] }, handler)] and
    [fastify.post('/path', handler)]. *)

(** The third group of the first route pattern. *)
Definition fastify_handler : Re.regex :=
  Re.Alt (Re.seq [Re.plus true Re.Word; Re.str "Controller"; Re.Cls (Re.Lit ".");
                  Re.plus true Re.Word])
         (Re.plus true Re.Word).

(** The first route pattern from the closing quote of the path on. *)
Definition after_path : Re.regex :=
  Re.seq [Re.Cls Patterns.quote; Re.Rep false Re.Dot; Re.Grp 3 fastify_handler].

(** The text from the closing quote of the path on, in the two forms. *)
Definition options_text (rest : string) : string :=
  "', { preHandler: " ++ rest.

Definition plain_text (h rest : string) : string :=
  "', " ++ h ++ ")" ++ rest.

(** A route of the first pattern: method, path, and the text from the
    closing quote on. *)
Definition route_text (m path tail : string) : string :=
  "fastify." ++ m ++ "('" ++ path ++ tail.

Definition route_with_options (m path rest : string) : string :=
  route_text m path (options_text rest).

Definition plain_route (m path h rest : string) : string :=
  route_text m path (plain_text h rest).

(** A handler as the first pattern reads it: an identifier, or two
    identifiers around [Controller.]. *)
Definition handler_symbol (h : string) : Prop :=
  Lang.is_identifier h = true \/
  exists x y, h = x ++ "Controller." ++ y /\
              Lang.is_identifier x = true /\ Lang.is_identifier y = true.

(** The continuation of [match_here]. *)
Definition k0 : string -> Re.captures -> Re.outcome :=
  fun s' c => Some (s', c).
(** ** Middleware lists as a route file writes them

    A file in which every marker is followed by a list on one line:
    [preHandler:], white space, and between brackets the items with commas
    between them, each with white space around it. *)

(** An item with the white space around it.  The item may be empty, and
    may be anything that has no comma in it and no white space at its
    ends. *)
Record written_item : Type := mkItem {
  lead : string;
  item : string;
  trail : string
}.

Definition item_text (w : written_item) : string :=
  lead w ++ item w ++ trail w.

(** The text between the brackets.  The empty list is written with one
    empty item. *)
Definition list_body (ws : list written_item) : string :=
  String.concat "," (map item_text ws).

Definition starts_trimmed (s : string) : bool :=
  match s with
  | EmptyString => true
  | String a _ => negb (Text.is_space a)
  end.

Fixpoint ends_trimmed (s : string) : bool :=
  match s with
  | EmptyString => true
  | String a EmptyString => negb (Text.is_space a)
  | String _ s' => ends_trimmed s'
  end.

Definition item_ok (w : written_item) : bool :=
  Lang.all_chars Text.is_space (lead w) &&
  Lang.all_chars Text.is_space (trail w) &&
  Lang.all_chars (fun a => negb (Ascii.eqb a ",")) (item w) &&
  starts_trimmed (item w) && ends_trimmed (item w).

(** No line feed and no closing bracket. *)
Definition one_line (s : string) : bool :=
  Lang.all_chars (fun a => negb (Ascii.eqb a Text.newline) &&
                           negb (Ascii.eqb a "]")) s.

(** A list, with the text of the file before its marker and the white
    space between the marker and the bracket. *)
Record written_list : Type := mkList {
  before : string;
  gap : string;
  members : list written_item
}.

Definition list_text (l : written_list) : string :=
  before l ++ "preHandler:" ++ gap l ++ "[" ++ list_body (members l) ++ "]".

Definition list_ok (l : written_list) : bool :=
  negb (Text.contains "preHandler" (before l)) &&
  Lang.all_chars Text.is_space (gap l) &&
  match members l with
  | [] => false
  | _ => true
  end &&
  forallb item_ok (members l) &&
  one_line (list_body (members l)).

(** The file: its lists, and the text after the last of them. *)
Fixpoint file_with_lists (lists : list written_list) (tail : string)
    : string :=
  match lists with
  | [] => tail
  | l :: more => list_text l ++ file_with_lists more tail
  end.

(** A route in one line and a route whose list spans several lines. *)
Definition list_over_lines : string :=
  "fastify.get('/areas', list)
fastify.post('/areas', {
  preHandler: [
    auth,
    admin
  ]
}, create)".

(** Two routes in one line, the first with a list that is not closed. *)
Definition empty_list_after_open_list : string :=
  "fastify.get('/a', { preHandler: [auth }, h); fastify.get('/b', { preHandler: [] }, g)".

(** ** A backend with a letter of Latin-1 in its names

    The name of a handler, of an exported function, of a class and of a
    table, with the letter e with an acute accent at its end: one
    character, a word character for [\w]. *)
Definition cafe : string := "caf" ++ String Text.e_acute "".

Definition cafe_route : string := "fastify.get('/menu', " ++ cafe ++ ")".

Definition accent_tree : backend :=
  mkBackend
    (Some [ mkFile "cafeRoutes.js" (Some cafe_route) ])
    (Some [ mkFile "cafeController.js"
              (Some ("export function " ++ cafe ++ "() {}")) ])
    None
    (Some [ mkFile "cafeService.js"
              (Some ("export class " ++ cafe ++ " {}")) ])
    (Some [ mkFile "001_menu.js"
              (Some ("CREATE TABLE " ++ cafe ++ " (id INTEGER)")) ])
    None None.

(** ** Manifests that decode and still make the run raise

    The tree whose files all read, with a manifest that is a list, as
    [[]], and with one whose dependencies are a number, as
    [{QdependenciesQ: 5}], [Q] the double quote. *)
Definition tree_with_list_manifest : backend :=
  mkBackend (Some [area_routes_js]) (Some [area_controller_js])
            None None None None (Some (Decoded NotDict)).

Definition tree_with_numeric_dependencies : backend :=
  mkBackend (Some [area_routes_js]) (Some [area_controller_js])
            None None None None (Some (Decoded (Dict (Some Unsized)))).

(** * Properties *)

(** ** Route extraction *)

Lemma flat_map_length_two {A B : Type} (f : A -> list B) (x y : A) :
  List.length (flat_map f [x; y]) = List.length (f x) + List.length (f y).
Proof.
  simpl. rewrite app_nil_r. apply length_app.
Qed.

Lemma in_routes_of_file stem content r :
  In r (routes_of_file stem content) ->
  exists m, r = route_of_match stem content m.
Proof.
  unfold routes_of_file. intros H.
  apply in_flat_map in H. destruct H as [pattern [_ H]].
  apply in_map_iff in H. destruct H as [m [E _]].
  exists m. symmetry. exact E.
Qed.

(** *** Every match of a route pattern binds its three groups *)

Lemma rep_greedy_reaches ok (k : string -> Re.outcome) s o :
  Re.rep_greedy ok k s = Some o ->
  exists s', k s' = Some o /\ String.length s' <= String.length s.
Proof.
  induction s as [ | a s IH ]; cbn [Re.rep_greedy]; intros H.
  - now exists "".
  - destruct (ok a); [ | now exists (String a s) ].
    destruct (Re.rep_greedy ok k s) as [o' | ] eqn:E.
    + injection H as <-. destruct (IH eq_refl) as [s' [Hk Hl]].
      exists s'. split; [ exact Hk | cbn; lia ].
    + now exists (String a s).
Qed.

Lemma rep_lazy_reaches ok (k : string -> Re.outcome) s o :
  Re.rep_lazy ok k s = Some o ->
  exists s', k s' = Some o /\ String.length s' <= String.length s.
Proof.
  induction s as [ | a s IH ]; cbn [Re.rep_lazy]; intros H.
  - destruct (k "") as [o' | ] eqn:E; [ | discriminate ].
    injection H as <-. now exists "".
  - destruct (k (String a s)) as [o' | ] eqn:E.
    + injection H as <-. now exists (String a s).
    + destruct (ok a); [ | discriminate ].
      destruct (IH H) as [s' [Hk Hl]].
      exists s'. split; [ exact Hk | cbn; lia ].
Qed.

(** A run that succeeds has called its continuation: further on in the
    text, and strictly further when the pattern cannot match the empty
    string; with every group that was bound still bound, and every group
    the pattern binds bound. *)
Lemma run_reaches ic r :
  forall s c k o,
    Re.run ic r s c k = Some o ->
    exists s' c',
      k s' c' = Some o /\
      String.length s' <= String.length s /\
      (Re.nonempty r = true -> String.length s' < String.length s) /\
      (forall n, Re.bound n c -> Re.bound n c') /\
      (forall n, Re.binds n r = true -> Re.bound n c').
Proof.
  induction r as [ | cl | r1 IH1 r2 IH2 | r1 IH1 r2 IH2 | g cl | m r1 IH1 ];
    intros s c k o H; cbn [Re.run Re.binds Re.nonempty] in *.
  - exists s, c. repeat split; auto; discriminate.
  - destruct s as [ | a s ]; [ discriminate | ].
    destruct (Re.accepts ic cl a); [ | discriminate ].
    exists s, c. repeat split; auto; cbn; try lia; discriminate.
  - apply IH1 in H. destruct H as (s1 & c1 & H & L1 & N1 & M1 & B1).
    apply IH2 in H. destruct H as (s2 & c2 & H & L2 & N2 & M2 & B2).
    exists s2, c2. repeat split; auto; try lia.
    + intros Hn. apply orb_true_iff in Hn.
      destruct Hn as [Hn | Hn]; [ apply N1 in Hn | apply N2 in Hn ]; lia.
    + intros n Hn. apply orb_true_iff in Hn. destruct Hn; auto.
  - destruct (Re.run ic r1 s c k) as [o' | ] eqn:E.
    + injection H as <-.
      apply IH1 in E. destruct E as (s1 & c1 & E & L1 & N1 & M1 & B1).
      exists s1, c1. repeat split; auto.
      * intros Hn. apply andb_true_iff in Hn. destruct Hn; auto.
      * intros n Hn. apply andb_true_iff in Hn. destruct Hn; auto.
    + apply IH2 in H. destruct H as (s2 & c2 & H & L2 & N2 & M2 & B2).
      exists s2, c2. repeat split; auto.
      * intros Hn. apply andb_true_iff in Hn. destruct Hn; auto.
      * intros n Hn. apply andb_true_iff in Hn. destruct Hn; auto.
  - assert (R : exists s', k s' c = Some o /\
                           String.length s' <= String.length s).
    { destruct g; [ now apply rep_greedy_reaches in H
                  | now apply rep_lazy_reaches in H ]. }
    destruct R as [s' [R L]]. exists s', c.
    repeat split; auto; discriminate.
  - apply IH1 in H. destruct H as (s1 & c1 & H & L1 & N1 & M1 & B1).
    exists s1, ((m, Re.consumed s s1) :: c1).
    repeat split; auto.
    + intros n Hn. unfold Re.bound. cbn [Re.lookup].
      destruct (Nat.eqb m n); [ discriminate | now apply M1 ].
    + intros n Hn. unfold Re.bound. cbn [Re.lookup].
      destruct (Nat.eqb m n); [ discriminate | ].
      cbn [orb] in Hn. now apply B1.
Qed.

(** A match of a pattern that cannot match the empty string takes at
    least one character, so the scan never meets an empty match. *)
Lemma match_here_consumes ic r s rest c :
  Re.nonempty r = true ->
  Re.match_here ic r s = Some (rest, c) ->
  String.length rest < String.length s.
Proof.
  intros N H. unfold Re.match_here in H.
  apply run_reaches in H. destruct H as (s' & c' & H & _ & L & _ & _).
  injection H as <- _. now apply L.
Qed.

Lemma analyzer_patterns_consume :
  Forall (fun r => Re.nonempty r = true) Patterns.all.
Proof.
  repeat constructor.
Qed.

Lemma scan_binds ic r n :
  Re.binds n r = true ->
  forall s skip m, In m (Re.scan ic r skip s) -> Re.bound n m.
Proof.
  intros B.
  assert (Hit : forall s rest c,
             Re.match_here ic r s = Some (rest, c) ->
             Re.bound n ((0, substring 0 (String.length s - String.length rest) s) :: c)).
  { intros s rest c H. unfold Re.match_here in H.
    apply run_reaches in H. destruct H as (s' & c' & H & _ & _ & _ & Hb).
    injection H as _ <-. unfold Re.bound. cbn [Re.lookup].
    destruct (Nat.eqb 0 n); [ discriminate | now apply Hb ]. }
  induction s as [ | a s IH ]; intros skip m H.
  - destruct skip; cbn [Re.scan] in H; [ | contradiction ].
    destruct (Re.match_here ic r "") as [ [rest c] | ] eqn:E;
      [ | contradiction ].
    destruct H as [ <- | [] ]. now apply Hit.
  - destruct skip as [ | j ]; cbn [Re.scan] in H; [ | now apply IH in H ].
    destruct (Re.match_here ic r (String a s)) as [ [rest c] | ] eqn:E.
    + destruct H as [ <- | H ]; [ now apply Hit | now apply IH in H ].
    + now apply IH in H.
Qed.

(** So the three fields read from a match are always captured text: the
    handler is never the sentinel, nor a group that took no part. *)
Lemma route_match_binds_groups pattern content m :
  In pattern Patterns.route_patterns ->
  In m (Re.finditer false pattern content) ->
  Re.bound 1 m /\ Re.bound 2 m /\ Re.bound 3 m.
Proof.
  intros Hp Hm. unfold Re.finditer in Hm.
  destruct Hp as [ <- | [ <- | [] ] ]; repeat split;
    match goal with
    | |- Re.bound ?n _ =>
        refine (scan_binds false _ n _ content 0 m Hm); vm_compute; reflexivity
    end.
Qed.

(** C1. A route file yields one [Route] per match of the two route
    patterns: their number is the sum of the numbers of matches.  The file
    [fastify.get('/areas', AreaController.list)] is matched once by the
    first pattern and not by the second, and yields the single route
    GET /areas handled by AreaController.list. *)
Theorem C1_one_route_per_match :
  (forall stem content,
     List.length (routes_of_file stem content) =
     List.length (Re.finditer false Patterns.fastify_route content) +
     List.length (Re.finditer false Patterns.router_route content)) /\
  (let content := "fastify.get('/areas', AreaController.list)" in
   List.length (Re.finditer false Patterns.fastify_route content) = 1 /\
   List.length (Re.finditer false Patterns.router_route content) = 0 /\
   forall stem,
     routes_of_file stem content =
     [ {| method := "GET";
          path := "/areas";
          handler := "AreaController.list";
          middleware := [];
          controller := Text.replace "Routes" "Controller" stem |} ]).
Proof.
  split.
  - intros stem content. unfold routes_of_file, Patterns.route_patterns.
    rewrite flat_map_length_two. now rewrite !length_map.
  - cbv zeta. split; [ | split ].
    + vm_compute. reflexivity.
    + vm_compute. reflexivity.
    + intros stem. vm_compute. reflexivity.
Qed.

Lemma middleware_of_marker content :
  Text.contains "preHandler" content = true ->
  middleware_of content = flat_map items (prehandler_lists content).
Proof.
  intros H. unfold middleware_of. now rewrite H.
Qed.

Lemma middleware_of_no_marker content :
  Text.contains "preHandler" content = false ->
  middleware_of content = [].
Proof.
  intros H. unfold middleware_of. now rewrite H.
Qed.

(** *** A match of a pattern that starts with a literal word *)

Lemma run_str_inv (w s : string) c k o :
  Re.run false (Re.str w) s c k = Some o ->
  exists s', s = w ++ s' /\ k s' c = Some o.
Proof.
  revert s. induction w as [ | a w IH ]; intros s H; simpl in H.
  - exists s. split; [ reflexivity | exact H ].
  - destruct s as [ | b s ]; [ discriminate | ].
    destruct (Ascii.eqb b a) eqn:E; [ | discriminate ].
    apply Ascii.eqb_eq in E. subst b.
    destruct (IH _ H) as [s' [-> Hk]].
    exists s'. split; [ reflexivity | exact Hk ].
Qed.

Lemma run_seq_str_inv (w : string) r s c k o :
  Re.run false (Re.Seq (Re.str w) r) s c k = Some o ->
  exists s', s = w ++ s'.
Proof.
  intros H. cbn [Re.run] in H. apply run_str_inv in H.
  destruct H as [s' [-> _]]. now exists s'.
Qed.

Lemma prefix_app (w s : string) : prefix w (w ++ s) = true.
Proof.
  induction w as [ | a w IH ]; simpl; [ now destruct s | ].
  destruct (ascii_dec a a); [ exact IH | congruence ].
Qed.

Lemma prefix_app_l (u v s : string) :
  prefix (u ++ v) s = true -> prefix u s = true.
Proof.
  revert s. induction u as [ | a u IH ]; intros s H;
    [ now destruct s | ].
  destruct s as [ | b s ]; simpl in *; [ discriminate | ].
  destruct (ascii_dec a b); [ now apply IH | discriminate ].
Qed.

(** A match found by the scan starts somewhere in the text. *)
Lemma scan_match_somewhere ic r skip s m :
  In m (Re.scan ic r skip s) ->
  exists p t, s = p ++ t /\ Re.match_here ic r t <> None.
Proof.
  revert skip. induction s as [ | a s IH ]; intros skip H.
  - destruct skip; simpl in H; [ | contradiction ].
    destruct (Re.match_here ic r "") as [ [rest c] | ] eqn:E;
      [ | contradiction ].
    exists "", "". split; [ reflexivity | congruence ].
  - destruct skip as [ | k ]; simpl in H.
    + destruct (Re.match_here ic r (String a s)) as [ [rest c] | ] eqn:E.
      * exists "", (String a s). split; [ reflexivity | congruence ].
      * destruct (IH _ H) as [p [t [-> Ht]]].
        exists (String a p), t. split; [ reflexivity | exact Ht ].
    + destruct (IH _ H) as [p [t [-> Ht]]].
      exists (String a p), t. split; [ reflexivity | exact Ht ].
Qed.

Lemma contains_app (sub p t : string) :
  prefix sub t = true -> Text.contains sub (p ++ t) = true.
Proof.
  intros H. induction p as [ | a p IH ]; simpl.
  - destruct t; cbn [append Text.contains]; rewrite H; reflexivity.
  - cbn [append Text.contains]. rewrite IH. apply orb_true_r.
Qed.

(** A file in which the middleware pattern matches contains the marker. *)
Lemma prehandler_match_has_marker content mw :
  In mw (prehandler_lists content) ->
  Text.contains "preHandler" content = true.
Proof.
  unfold prehandler_lists, Re.findall1, Re.finditer. intros H.
  apply in_map_iff in H. destruct H as [m [_ H]].
  apply scan_match_somewhere in H. destruct H as [p [t [-> Ht]]].
  apply contains_app.
  destruct (Re.match_here false Patterns.prehandler_list t) as [o | ] eqn:E;
    [ | congruence ].
  unfold Re.match_here, Patterns.prehandler_list in E. cbn [Re.seq] in E.
  apply run_seq_str_inv in E. destruct E as [s' ->].
  apply (prefix_app_l "preHandler" ":"). apply (prefix_app "preHandler:").
Qed.

(** ** The owner controller of a route *)

Lemma string_length_app (s t : string) :
  String.length (s ++ t) = String.length s + String.length t.
Proof.
  induction s as [ | a s IH ]; simpl; [ reflexivity | now rewrite IH ].
Qed.

Lemma substring_prefix_app (s t : string) :
  substring 0 (String.length s) (s ++ t) = s.
Proof.
  induction s as [ | a s IH ]; simpl.
  - now destruct t.
  - now rewrite IH.
Qed.

Lemma substring_suffix_app (s t : string) :
  substring (String.length s) (String.length t) (s ++ t) = t.
Proof.
  induction s as [ | a s IH ]; simpl; [ | exact IH ].
  induction t as [ | b t IHt ]; simpl; [ reflexivity | now rewrite IHt ].
Qed.

(** The rule of the specification on a base name that ends in the suffix. *)
Lemma spec_owner_controller_suffix (base : string) :
  spec_owner_controller (base ++ "Routes") = base ++ "Controller".
Proof.
  unfold spec_owner_controller, strip_suffix, ends_with.
  rewrite string_length_app.
  replace (String.length base + String.length "Routes"
           - String.length "Routes") with (String.length base) by lia.
  rewrite substring_suffix_app, String.eqb_refl.
  replace (String.length "Routes" <=? String.length base + String.length "Routes")%nat
    with true by (symmetry; apply Nat.leb_le; lia).
  cbn [andb]. now rewrite substring_prefix_app.
Qed.

(** No occurrence of the suffix token can straddle the end of a base name
    and the token that follows it: the token has no proper border. *)
Lemma no_straddling_occurrence (x : string) :
  x <> "" ->
  prefix "Routes" x = false ->
  prefix "Routes" (x ++ "Routes") = false.
Proof.
  intros Hne H.
  destruct x as [ | c1 x ]; [ congruence | clear Hne ].
  cbn [append prefix] in *.
  destruct (ascii_dec "R" c1); [ subst c1 | reflexivity ].
  destruct x as [ | c2 x ]; [ reflexivity | ]. cbn [append prefix] in *.
  destruct (ascii_dec "o" c2); [ subst c2 | reflexivity ].
  destruct x as [ | c3 x ]; [ reflexivity | ]. cbn [append prefix] in *.
  destruct (ascii_dec "u" c3); [ subst c3 | reflexivity ].
  destruct x as [ | c4 x ]; [ reflexivity | ]. cbn [append prefix] in *.
  destruct (ascii_dec "t" c4); [ subst c4 | reflexivity ].
  destruct x as [ | c5 x ]; [ reflexivity | ]. cbn [append prefix] in *.
  destruct (ascii_dec "e" c5); [ subst c5 | reflexivity ].
  destruct x as [ | c6 x ]; [ reflexivity | ]. cbn [append prefix] in *.
  destruct (ascii_dec "s" c6); [ subst c6 | reflexivity ].
  destruct x; discriminate.
Qed.

Lemma replace_from_suffix (base : string) :
  Text.contains "Routes" base = false ->
  Text.replace_from "Routes" "Controller" 0 (base ++ "Routes")
  = base ++ "Controller".
Proof.
  induction base as [ | a base IH ]; intros H.
  - vm_compute. reflexivity.
  - cbn [Text.contains] in H. apply orb_false_iff in H. destruct H as [Hp Hc].
    change (String a base ++ "Routes") with (String a (base ++ "Routes")).
    cbn [Text.replace_from].
    change (String a (base ++ "Routes")) with (String a base ++ "Routes").
    rewrite (no_straddling_occurrence (String a base)) by (congruence || exact Hp).
    cbn [append]. now rewrite IH.
Qed.

(** The same with any text after the token. *)
Lemma no_straddling (x y : string) :
  x <> "" ->
  prefix "Routes" x = false ->
  prefix "Routes" (x ++ "Routes" ++ y) = false.
Proof.
  intros Hne H.
  destruct x as [ | c1 x ]; [ congruence | clear Hne ].
  cbn [append prefix] in *.
  destruct (ascii_dec "R" c1); [ subst c1 | reflexivity ].
  destruct x as [ | c2 x ]; [ reflexivity | ]. cbn [append prefix] in *.
  destruct (ascii_dec "o" c2); [ subst c2 | reflexivity ].
  destruct x as [ | c3 x ]; [ reflexivity | ]. cbn [append prefix] in *.
  destruct (ascii_dec "u" c3); [ subst c3 | reflexivity ].
  destruct x as [ | c4 x ]; [ reflexivity | ]. cbn [append prefix] in *.
  destruct (ascii_dec "t" c4); [ subst c4 | reflexivity ].
  destruct x as [ | c5 x ]; [ reflexivity | ]. cbn [append prefix] in *.
  destruct (ascii_dec "e" c5); [ subst c5 | reflexivity ].
  destruct x as [ | c6 x ]; [ reflexivity | ]. cbn [append prefix] in *.
  destruct (ascii_dec "s" c6); [ subst c6 | reflexivity ].
  destruct x; discriminate.
Qed.

(** A text without the token is left as it is. *)
Lemma replace_from_absent (s : string) :
  Text.contains "Routes" s = false ->
  Text.replace_from "Routes" "Controller" 0 s = s.
Proof.
  induction s as [ | a s IH ]; intros H; [ reflexivity | ].
  cbn [Text.contains] in H. apply orb_false_iff in H. destruct H as [Hp Hc].
  cbn [Text.replace_from]. rewrite Hp. now rewrite IH.
Qed.

(** The first occurrence of the token is replaced where it stands, and
    the replacement goes on after it. *)
Lemma replace_from_occurrence (x y : string) :
  Text.contains "Routes" x = false ->
  Text.replace_from "Routes" "Controller" 0 (x ++ "Routes" ++ y)
  = x ++ "Controller" ++ Text.replace_from "Routes" "Controller" 0 y.
Proof.
  induction x as [ | a x IH ]; intros H.
  - cbn [append]. cbn [Text.replace_from].
    change (String "R" (String "o" (String "u" (String "t" (String "e"
              (String "s" y))))))
      with ("Routes" ++ y).
    rewrite prefix_app. cbn. reflexivity.
  - cbn [Text.contains] in H. apply orb_false_iff in H. destruct H as [Hp Hc].
    change (String a x ++ "Routes" ++ y) with (String a (x ++ "Routes" ++ y)).
    cbn [Text.replace_from].
    change (String a (x ++ "Routes" ++ y)) with (String a x ++ "Routes" ++ y).
    rewrite (no_straddling (String a x) y) by (congruence || exact Hp).
    rewrite (IH Hc). reflexivity.
Qed.

(** [str.replace] on a text given by what stands between the occurrences
    of the token: every occurrence is replaced. *)
Lemma replace_between (parts : list string) :
  Forall (fun p => Text.contains "Routes" p = false) parts ->
  Text.replace "Routes" "Controller" (String.concat "Routes" parts)
  = String.concat "Controller" parts.
Proof.
  unfold Text.replace.
  induction parts as [ | x parts IH ]; intros H; [ reflexivity | ].
  inversion H as [ | ? ? Hx Hparts ]; subst.
  destruct parts as [ | y parts ].
  - cbn [String.concat]. now apply replace_from_absent.
  - change (String.concat "Routes" (x :: y :: parts))
      with (x ++ "Routes" ++ String.concat "Routes" (y :: parts)).
    change (String.concat "Controller" (x :: y :: parts))
      with (x ++ "Controller" ++ String.concat "Controller" (y :: parts)).
    rewrite (replace_from_occurrence x _ Hx). now rewrite (IH Hparts).
Qed.

(** C3, as the code has it.  The owner controller of every route is the
    base name of its file with every occurrence of [Routes] replaced by
    [Controller], whether or not such a controller was extracted: for a
    base name given by the texts between the occurrences, it is these texts
    with [Controller] between them.  So a base name without [Routes] is
    left as it is; and on a base name that ends in [Routes] and has no
    other occurrence of it, the rule is that of the specification: the
    base name without the suffix, followed by [Controller]. *)
Theorem C3_owner_controller_by_replacement stem content r :
  In r (routes_of_file stem content) ->
  (forall parts,
     stem = String.concat "Routes" parts ->
     Forall (fun p => Text.contains "Routes" p = false) parts ->
     controller r = String.concat "Controller" parts) /\
  (Text.contains "Routes" stem = false -> controller r = stem) /\
  (forall base,
     stem = base ++ "Routes" ->
     Text.contains "Routes" base = false ->
     controller r = spec_owner_controller stem /\
     controller r = base ++ "Controller").
Proof.
  intros Hr. destruct (in_routes_of_file _ _ _ Hr) as [m ->].
  cbn [controller route_of_match].
  split; [ | split ].
  - intros parts -> H. now apply replace_between.
  - intros H. apply (replace_between [stem]). now constructor.
  - intros base -> Hbase.
    rewrite spec_owner_controller_suffix.
    unfold Text.replace. now rewrite replace_from_suffix.
Qed.

Lemma C3_witness :
  let r := {| method := "GET"; path := "/admin"; handler := "list";
              middleware := [];
              controller := "ControllerAdminController" |} in
  In r (routes_of_file "RoutesAdminRoutes" "fastify.get('/admin', list)") /\
  controller r = String.concat "Controller" [""; "Admin"; ""] /\
  (exists r', In r' (routes_of_file "areaRoutes"
                       "fastify.get('/areas', AreaController.list)") /\
              controller r' = spec_owner_controller "areaRoutes" /\
              controller r' = "areaController").
Proof.
  cbv zeta. split; [ vm_compute; left; reflexivity | ]. split.
  - assert (H : In {| method := "GET"; path := "/admin"; handler := "list";
                      middleware := [];
                      controller := "ControllerAdminController" |}
                   (routes_of_file "RoutesAdminRoutes"
                      "fastify.get('/admin', list)"))
      by (vm_compute; left; reflexivity).
    destruct (C3_owner_controller_by_replacement _ _ _ H) as [P _].
    apply (P [""; "Admin"; ""]); [ reflexivity | ].
    repeat constructor.
  - eexists. split; [ vm_compute; left; reflexivity | ].
    split; vm_compute; reflexivity.
Defined.

(** C3, as stated, fails: a base name that does not end in [Routes] is
    left as it is, and an occurrence of [Routes] that is not a suffix is
    replaced where it stands. *)
Lemma C3_counterexample :
  (exists r, In r (routes_of_file "health" "fastify.get('/health', check)") /\
             controller r = "health" /\
             spec_owner_controller "health" = "healthController" /\
             controller r <> spec_owner_controller "health") /\
  (exists r, In r (routes_of_file "RoutesAdmin" "fastify.get('/admin', list)") /\
             controller r = "ControllerAdmin" /\
             spec_owner_controller "RoutesAdmin" = "RoutesAdminController" /\
             controller r <> spec_owner_controller "RoutesAdmin").
Proof.
  split.
  - eexists. split; [ vm_compute; left; reflexivity | ].
    repeat split; try (vm_compute; reflexivity).
    vm_compute. discriminate.
  - eexists. split; [ vm_compute; left; reflexivity | ].
    repeat split; try (vm_compute; reflexivity).
    vm_compute. discriminate.
Qed.

(** ** Missing and unreadable inputs *)

(** The run returns a model exactly when each of its six passes returns
    the field of that model. *)
Lemma analyze_ok_iff order b r :
  analyze order b = Ok r <->
  analyze_routes b = Ok (routes r) /\
  analyze_controllers order b = Ok (controllers r) /\
  analyze_middleware b = Ok (middleware_list r) /\
  analyze_services order b = Ok (services r) /\
  analyze_database_schema order b = Ok (database_tables r) /\
  analyze_dependencies b = Ok (dependencies r).
Proof.
  unfold analyze. split.
  - intros H.
    destruct (analyze_routes b); [ | discriminate ].
    destruct (analyze_controllers order b); [ | discriminate ].
    destruct (analyze_middleware b); [ | discriminate ].
    destruct (analyze_services order b); [ | discriminate ].
    destruct (analyze_database_schema order b); [ | discriminate ].
    destruct (analyze_dependencies b); [ | discriminate ].
    cbn [bind] in H. injection H as <-. cbn. repeat split.
  - intros (-> & -> & -> & -> & -> & ->). cbn [bind]. now destruct r.
Qed.

(** C6. When the directory of a category, or the manifest, does not
    exist, its pass returns the empty collection without raising; the run
    then returns a model as soon as the other passes return, and that
    model has the empty collection in the field.  A tree with nothing in
    it yields the empty model. *)
Theorem C6_missing_category_is_empty order b :
  (routes_dir b = None -> analyze_routes b = Ok []) /\
  (controllers_dir b = None -> analyze_controllers order b = Ok []) /\
  (middleware_dir b = None -> analyze_middleware b = Ok []) /\
  (services_dir b = None -> analyze_services order b = Ok []) /\
  (migrations_dir b = None -> analyze_database_schema order b = Ok []) /\
  (package_json b = None -> analyze_dependencies b = Ok []) /\
  (forall r, analyze order b = Ok r ->
     (routes_dir b = None -> routes r = []) /\
     (controllers_dir b = None -> controllers r = []) /\
     (middleware_dir b = None -> middleware_list r = []) /\
     (services_dir b = None -> services r = []) /\
     (migrations_dir b = None -> database_tables r = []) /\
     (package_json b = None -> dependencies r = [])) /\
  (forall rs cs ms ss ts ds,
     analyze_routes b = Ok rs ->
     analyze_controllers order b = Ok cs ->
     analyze_middleware b = Ok ms ->
     analyze_services order b = Ok ss ->
     analyze_database_schema order b = Ok ts ->
     analyze_dependencies b = Ok ds ->
     analyze order b = Ok (mkAnalysisResult rs cs ms ss ts ds)) /\
  analyze order (mkBackend None None None None None None None)
  = Ok (mkAnalysisResult [] [] [] [] [] []).
Proof.
  assert (P1 : routes_dir b = None -> analyze_routes b = Ok [])
    by (intros H; unfold analyze_routes; now rewrite H).
  assert (P2 : controllers_dir b = None -> analyze_controllers order b = Ok [])
    by (intros H; unfold analyze_controllers; now rewrite H).
  assert (P3 : middleware_dir b = None -> analyze_middleware b = Ok [])
    by (intros H; unfold analyze_middleware; now rewrite H).
  assert (P4 : services_dir b = None -> analyze_services order b = Ok [])
    by (intros H; unfold analyze_services; now rewrite H).
  assert (P5 : migrations_dir b = None -> analyze_database_schema order b = Ok [])
    by (intros H; unfold analyze_database_schema; now rewrite H).
  assert (P6 : package_json b = None -> analyze_dependencies b = Ok [])
    by (intros H; unfold analyze_dependencies; now rewrite H).
  repeat (split; [ assumption | ]).
  split; [ | split ].
  - intros r Hr. apply analyze_ok_iff in Hr.
    destruct Hr as (H1 & H2 & H3 & H4 & H5 & H6).
    repeat split; intros H.
    + apply P1 in H. congruence.
    + apply P2 in H. congruence.
    + apply P3 in H. congruence.
    + apply P4 in H. congruence.
    + apply P5 in H. congruence.
    + apply P6 in H. congruence.
  - intros rs cs ms ss ts ds H1 H2 H3 H4 H5 H6.
    apply analyze_ok_iff. cbn. repeat split; assumption.
  - reflexivity.
Qed.

Lemma C6_witness :
  services_dir tree_without_it = None /\
  analyze_services last_seen tree_without_it = Ok [] /\
  package_json tree_without_it = None /\
  analyze_dependencies tree_without_it = Ok [].
Proof.
  destruct (C6_missing_category_is_empty last_seen tree_without_it)
    as (_ & _ & _ & Hs & _ & Hd & _).
  split; [ reflexivity | ]. split; [ apply Hs; reflexivity | ].
  split; [ reflexivity | apply Hd; reflexivity ].
Defined.

Lemma for_each_read_raised {B : Type} (g : source_file -> string -> list B)
    (files : directory) :
  for_each (fun f => content <- read_text f ;; Ok (g f content)) files = Raised
  <-> all_readable (Some files) = false.
Proof.
  induction files as [ | f files IH ]; cbn [for_each all_readable forallb].
  - split; discriminate.
  - unfold read_text at 1. destruct (file_text f) as [content | ]; cbn [bind].
    + cbn [andb]. rewrite <- IH.
      destruct (for_each _ files); cbn [bind]; split; congruence.
    + cbn [andb]. split; reflexivity.
Qed.

Lemma for_each_read_ok {B : Type} (g : source_file -> string -> list B)
    (files : directory) :
  all_readable (Some files) = true ->
  for_each (fun f => content <- read_text f ;; Ok (g f content)) files
  = Ok (flat_map (fun f => match file_text f with
                           | Some content => g f content
                           | None => []
                           end) files).
Proof.
  induction files as [ | f files IH ]; cbn [for_each all_readable forallb].
  - reflexivity.
  - unfold read_text at 1. cbn [flat_map].
    destruct (file_text f) as [content | ]; cbn [bind andb];
      [ | discriminate ].
    intros H. rewrite (IH H). reflexivity.
Qed.

Lemma analyze_routes_raised b :
  analyze_routes b = Raised <-> all_readable (routes_dir b) = false.
Proof.
  unfold analyze_routes. destruct (routes_dir b) as [files | ].
  - apply (for_each_read_raised
             (fun f content => routes_of_file (stem (file_name f)) content)).
  - split; discriminate.
Qed.

Lemma analyze_controllers_raised order b :
  analyze_controllers order b = Raised
  <-> all_readable (controllers_dir b) = false.
Proof.
  unfold analyze_controllers. destruct (controllers_dir b) as [files | ].
  - apply (for_each_read_raised
             (fun f content =>
                [ {| ctrl_name := stem (file_name f);
                     ctrl_file := "controllers/" ++ file_name f;
                     ctrl_functions :=
                       order (exported Patterns.controller_patterns content) |} ])).
  - split; discriminate.
Qed.

Lemma analyze_middleware_raised b :
  analyze_middleware b = Raised <-> all_readable (middleware_dir b) = false.
Proof.
  unfold analyze_middleware. destruct (middleware_dir b) as [files | ].
  - apply (for_each_read_raised
             (fun f content =>
                [ {| mw_name := stem (file_name f);
                     mw_file := "middleware/" ++ file_name f;
                     mw_description :=
                       match Re.finditer false Patterns.doc_comment content with
                       | desc_match :: _ => Re.group 1 desc_match
                       | [] => ""
                       end |} ])).
  - split; discriminate.
Qed.

Lemma analyze_services_raised order b :
  analyze_services order b = Raised <-> all_readable (services_dir b) = false.
Proof.
  unfold analyze_services. destruct (services_dir b) as [files | ].
  - apply (for_each_read_raised
             (fun f content =>
                [ {| svc_name := stem (file_name f);
                     svc_file := "services/" ++ file_name f;
                     svc_functions :=
                       order (exported Patterns.service_patterns content) |} ])).
  - split; discriminate.
Qed.

Lemma analyze_database_schema_raised order b :
  analyze_database_schema order b = Raised <-> schema_readable b = false.
Proof.
  unfold analyze_database_schema, schema_readable, collected_tables.
  destruct (migrations_dir b) as [files | ]; [ | split; discriminate ].
  pose proof (for_each_read_raised (fun _ content => table_matches content)
                files) as R.
  destruct (for_each _ files) as [tables | ]; cbn [bind].
  - destruct (all_readable (Some files)).
    + cbn [andb]. destruct (setup_js b) as [ [content | ] | ]; cbn [bind];
        split; congruence.
    + exfalso. assert (Ok tables = Raised) by (now apply R). discriminate.
  - replace (all_readable (Some files)) with false
      by (symmetry; now apply R).
    split; reflexivity.
Qed.

Lemma analyze_dependencies_raised b :
  analyze_dependencies b = Raised <->
  package_json b = Some Undecodable \/
  package_json b = Some (Decoded NotDict) \/
  package_json b = Some (Decoded (Dict (Some Unsized))).
Proof.
  unfold analyze_dependencies.
  destruct (package_json b) as [ [ [ [ [deps | ] | ] | ] | ] | ];
    (split; intros H;
     [ try discriminate; tauto
     | try reflexivity; destruct H as [ H | [ H | H ] ]; discriminate ]).
Qed.

Lemma all_readable_false (d : option directory) :
  all_readable d = false <-> unreadable_in d.
Proof.
  unfold unreadable_in. destruct d as [files | ]; cbn [all_readable].
  - split.
    + intros H. exists files.
      induction files as [ | f files IH ]; [ discriminate | ].
      cbn [forallb] in H.
      destruct (file_text f) as [content | ] eqn:T.
      * destruct (IH H) as (g & _ & Hg & Tg).
        exists g. split; [ reflexivity | ]. split; [ now right | exact Tg ].
      * exists f. split; [ reflexivity | ]. split; [ now left | exact T ].
    + intros (files' & f & E & Hf & T). injection E as <-.
      induction files as [ | g files IH ]; [ contradiction | ].
      cbn [forallb]. destruct Hf as [ -> | Hf ].
      * now rewrite T.
      * rewrite (IH Hf). apply andb_false_r.
  - split; [ discriminate | ]. intros (files & f & E & _). discriminate.
Qed.

Lemma schema_readable_false b :
  schema_readable b = false <->
  unreadable_in (migrations_dir b) \/
  (migrations_dir b <> None /\ setup_js b = Some None).
Proof.
  unfold schema_readable. rewrite <- all_readable_false.
  destruct (migrations_dir b) as [files | ].
  - rewrite andb_false_iff.
    destruct (setup_js b) as [ [content | ] | ]; split; intros H.
    + destruct H as [ H | H ]; [ now left | discriminate ].
    + destruct H as [ H | [_ H] ]; [ now left | discriminate ].
    + right. split; [ discriminate | reflexivity ].
    + now right.
    + destruct H as [ H | H ]; [ now left | discriminate ].
    + destruct H as [ H | [_ H] ]; [ now left | discriminate ].
  - split; [ discriminate | ]. intros [ H | [H _] ]; [ discriminate | ].
    now elim H.
Qed.

Lemma analyze_raised_iff order b :
  analyze order b = Raised <->
  analyze_routes b = Raised \/
  analyze_controllers order b = Raised \/
  analyze_middleware b = Raised \/
  analyze_services order b = Raised \/
  analyze_database_schema order b = Raised \/
  analyze_dependencies b = Raised.
Proof.
  unfold analyze.
  destruct (analyze_routes b); cbn [bind]; [ | tauto ].
  destruct (analyze_controllers order b); cbn [bind]; [ | tauto ].
  destruct (analyze_middleware b); cbn [bind]; [ | tauto ].
  destruct (analyze_services order b); cbn [bind]; [ | tauto ].
  destruct (analyze_database_schema order b); cbn [bind]; [ | tauto ].
  destruct (analyze_dependencies b); cbn [bind]; [ | tauto ].
  split; [ discriminate | ].
  intros [ H | [ H | [ H | [ H | [ H | H ] ] ] ] ]; discriminate.
Qed.

(** C7, as the code has it.  No pass catches an error, so there is no
    skipping: the run raises, and returns no model, exactly when a file of
    a category directory cannot be read, when [database/setup.js] cannot be
    read while the migrations directory exists, or when the manifest cannot
    be read or decoded, is no dictionary, or has a number, a boolean or
    [null] for its dependencies.  A run that returns has read every route
    file, and its routes are those of all the route files, in order. *)
Theorem C7_unreadable_file_aborts_run order b :
  (analyze order b = Raised <->
     unreadable_in (routes_dir b) \/
     unreadable_in (controllers_dir b) \/
     unreadable_in (middleware_dir b) \/
     unreadable_in (services_dir b) \/
     (unreadable_in (migrations_dir b) \/
      (migrations_dir b <> None /\ setup_js b = Some None)) \/
     (package_json b = Some Undecodable \/
      package_json b = Some (Decoded NotDict) \/
      package_json b = Some (Decoded (Dict (Some Unsized))))) /\
  (forall r, analyze order b = Ok r ->
     forall files, routes_dir b = Some files ->
       Forall (fun f => file_text f <> None) files /\
       routes r = flat_map (fun f => match file_text f with
                                     | Some content =>
                                         routes_of_file (stem (file_name f)) content
                                     | None => []
                                     end) files).
Proof.
  split.
  - rewrite analyze_raised_iff.
    rewrite analyze_routes_raised, analyze_controllers_raised,
      analyze_middleware_raised, analyze_services_raised,
      analyze_database_schema_raised, analyze_dependencies_raised.
    rewrite !all_readable_false, schema_readable_false. reflexivity.
  - intros r E files Hd.
    apply analyze_ok_iff in E. destruct E as [E _].
    assert (R : all_readable (Some files) = true).
    { destruct (all_readable (Some files)) eqn:R; [ reflexivity | ].
      rewrite <- Hd in R. apply analyze_routes_raised in R. congruence. }
    split.
    + cbn [all_readable] in R. rewrite forallb_forall in R.
      apply Forall_forall. intros f Hf. specialize (R f Hf).
      destruct (file_text f); [ discriminate | discriminate R ].
    + unfold analyze_routes in E. rewrite Hd in E.
      rewrite (for_each_read_ok
                 (fun f content => routes_of_file (stem (file_name f)) content))
        in E by exact R.
      now injection E.
Qed.

Lemma C7_witness :
  (exists r, analyze last_seen tree_without_it = Ok r /\
             List.length (routes r) = 1) /\
  analyze last_seen tree_with_list_manifest = Raised /\
  analyze last_seen tree_with_numeric_dependencies = Raised.
Proof.
  split; [ | split ].
  - destruct (analyze last_seen tree_without_it) as [r | ] eqn:E;
      [ | vm_compute in E; discriminate ].
    exists r. split; [ reflexivity | ].
    destruct (C7_unreadable_file_aborts_run last_seen tree_without_it)
      as [_ H].
    destruct (H r E [area_routes_js] eq_refl) as [_ R].
    rewrite R. reflexivity.
  - apply (proj1 (C7_unreadable_file_aborts_run last_seen
                    tree_with_list_manifest)).
    do 5 right. right. left. reflexivity.
  - apply (proj1 (C7_unreadable_file_aborts_run last_seen
                    tree_with_numeric_dependencies)).
    do 5 right. right. right. reflexivity.
Defined.

(** C7, as stated, fails: one route file that cannot be read makes the
    run raise, and the route and the controller that the other files give
    are lost with it. *)
Lemma C7_counterexample :
  analyze last_seen tree_with_unreadable_file = Raised /\
  analyze last_seen tree_without_it
  = Ok (mkAnalysisResult
          [ mkRoute "GET" "/areas" "AreaController.list" [] "areaController" ]
          [ mkController "areaController" "controllers/areaController.js"
                         ["list"] ]
          [] [] [] []).
Proof.
  split; vm_compute; reflexivity.
Qed.

(** ** The schema tables *)

Lemma for_each_read_ok_inv {B : Type} (g : source_file -> string -> list B)
    (files : directory) l :
  for_each (fun f => content <- read_text f ;; Ok (g f content)) files = Ok l ->
  l = flat_map (fun f => match file_text f with
                         | Some content => g f content
                         | None => []
                         end) files.
Proof.
  intros H.
  destruct (all_readable (Some files)) eqn:R.
  - rewrite (for_each_read_ok g files R) in H. now injection H.
  - apply (for_each_read_raised g) in R. congruence.
Qed.

Lemma collected_tables_In b files all content t :
  collected_tables b files = Ok all ->
  contributes b files content ->
  In t (table_matches content) ->
  In t all.
Proof.
  unfold collected_tables. intros H C Ht.
  destruct (for_each _ files) as [tables | ] eqn:E; cbn [bind] in H;
    [ | discriminate ].
  apply (for_each_read_ok_inv (fun _ content => table_matches content)) in E.
  assert (Hfiles : forall f, In f files -> file_text f = Some content ->
                             In t tables).
  { intros f Hf Hc. rewrite E. apply in_flat_map. exists f.
    split; [ exact Hf | ]. now rewrite Hc. }
  destruct C as [ [f [Hf Hc]] | Hs ].
  - specialize (Hfiles f Hf Hc).
    destruct (setup_js b) as [ [c | ] | ]; try discriminate;
      injection H as <-; [ apply in_or_app; now left | exact Hfiles ].
  - rewrite Hs in H. injection H as <-. apply in_or_app. now right.
Qed.

(** A list without duplicates whose elements are all [x], and which has
    [x], is the list of [x] alone. *)
Lemma NoDup_singleton (x : string) (l : list string) :
  NoDup l -> In x l -> (forall y, In y l -> y = x) -> l = [x].
Proof.
  intros N I A. destruct l as [ | a l ]; [ contradiction | ].
  assert (a = x) by (apply A; now left). subst a.
  destruct l as [ | a' l ]; [ reflexivity | ].
  assert (a' = x) by (apply A; right; now left). subst a'.
  inversion N as [ | ? ? Hn _ ]. exfalso. apply Hn. now left.
Qed.

(** C9. The schema tables have no duplicates, whatever order the set gives
    them: a table name that some [CREATE TABLE] statement, with or without
    [IF NOT EXISTS], defines in one, two or more of the files scanned has
    exactly one entry.  Two migration files that both create [cameras]
    yield the one table [cameras]. *)
Theorem C9_tables_are_deduplicated order b tables :
  analyze_database_schema order b = Ok tables ->
  NoDup tables /\
  (forall files content1 content2 t,
     migrations_dir b = Some files ->
     contributes b files content1 -> In t (table_matches content1) ->
     contributes b files content2 -> In t (table_matches content2) ->
     count_occ string_dec tables t = 1) /\
  analyze_database_schema order two_migrations = Ok ["cameras"] /\
  analyze_database_schema order two_migrations_and_setup = Ok ["cameras"].
Proof.
  intros H. unfold analyze_database_schema in H.
  split; [ | split ].
  - destruct (migrations_dir b) as [files | ].
    + destruct (collected_tables b files) as [all | ]; cbn [bind] in H;
        [ | discriminate ].
      injection H as <-. apply list_of_set_NoDup.
    + injection H as <-. constructor.
  - intros files content1 content2 t Hd C1 T1 _ _. rewrite Hd in H.
    destruct (collected_tables b files) as [all | ] eqn:E; cbn [bind] in H;
      [ | discriminate ].
    injection H as <-.
    apply NoDup_count_occ'; [ apply list_of_set_NoDup | ].
    apply list_of_set_In. exact (collected_tables_In _ _ _ _ _ E C1 T1).
  - assert (S : forall l, In "cameras" l ->
                          (forall y, In y l -> y = "cameras") ->
                          order l = ["cameras"]).
    { intros l I A. apply NoDup_singleton.
      - apply list_of_set_NoDup.
      - now apply list_of_set_In.
      - intros y Hy. apply list_of_set_In in Hy. now apply A. }
    split.
    + assert (E : analyze_database_schema order two_migrations
                  = Ok (order ["cameras"; "cameras"]))
        by (vm_compute; reflexivity).
      rewrite E. f_equal. apply S; [ now left | ].
      intros y [ <- | [ <- | [] ] ]; reflexivity.
    + assert (E : analyze_database_schema order two_migrations_and_setup
                  = Ok (order ["cameras"; "cameras"; "cameras"]))
        by (vm_compute; reflexivity).
      rewrite E. f_equal. apply S; [ now left | ].
      intros y [ <- | [ <- | [ <- | [] ] ] ]; reflexivity.
Qed.

Lemma C9_witness :
  analyze_database_schema last_seen two_migrations = Ok ["cameras"] /\
  NoDup ["cameras"] /\
  count_occ string_dec ["cameras"] "cameras" = 1.
Proof.
  assert (H : analyze_database_schema last_seen two_migrations = Ok ["cameras"])
    by (vm_compute; reflexivity).
  split; [ exact H | ].
  destruct (C9_tables_are_deduplicated last_seen two_migrations _ H)
    as [N [C _]].
  split; [ exact N | ].
  apply (C migration_files init_js again_js "cameras").
  - reflexivity.
  - left. exists (mkFile "001_init.js" (Some init_js)).
    split; [ left; reflexivity | reflexivity ].
  - vm_compute. left. reflexivity.
  - left. exists (mkFile "002_again.js" (Some again_js)).
    split; [ right; left; reflexivity | reflexivity ].
  - vm_compute. left. reflexivity.
Defined.

(** ** The round trip through [json] *)

Module JsonFacts.
Import Json.

Lemma append_assoc (a b c : string) : (a ++ b) ++ c = a ++ (b ++ c).
Proof.
  induction a as [ | x a IH ]; simpl; [ reflexivity | now rewrite IH ].
Qed.

Lemma append_nil_r (a : string) : a ++ "" = a.
Proof.
  induction a as [ | x a IH ]; simpl; [ reflexivity | now rewrite IH ].
Qed.

(** Decoding undoes the escape of one character. *)
Lemma scanstring_escape_char (c : ascii) (t : string) :
  scanstring (escape_char c ++ t) = prepend c (scanstring t).
Proof.
  destruct c as [[] [] [] [] [] [] [] []]; reflexivity.
Qed.

Lemma scanstring_escape (s rest : string) :
  scanstring (escape s ++ String Text.dquote rest) = Some (s, rest).
Proof.
  induction s as [ | c s IH ].
  - reflexivity.
  - cbn [escape]. rewrite append_assoc, scanstring_escape_char, IH.
    reflexivity.
Qed.

Lemma encode_string_app (s rest : string) :
  encode_string s ++ rest
  = String Text.dquote (escape s ++ String Text.dquote rest).
Proof.
  unfold encode_string. cbn [append]. now rewrite append_assoc.
Qed.

Lemma scan_once_string fuel (s rest : string) :
  scan_once (S fuel) (encode_string s ++ rest) = Some (Str s, rest).
Proof.
  rewrite encode_string_app. cbn [scan_once].
  change (Ascii.eqb Text.dquote Text.dquote) with true. cbv iota.
  now rewrite scanstring_escape.
Qed.

(** *** White space *)

Lemma skip_ws_spaces (n : nat) (s : string) :
  skip_ws (spaces n ++ s) = skip_ws s.
Proof.
  induction n as [ | n IH ]; [ reflexivity | exact IH ].
Qed.

Lemma skip_ws_newline_indent (level : nat) (s : string) :
  skip_ws (newline_indent level ++ s) = skip_ws s.
Proof.
  unfold newline_indent. cbn [append skip_ws].
  change (is_ws Text.newline) with true. cbv iota. apply skip_ws_spaces.
Qed.

(** *** The first character of an encoded value *)

Lemma dumps_at_head level v :
  wf v -> exists c t, dumps_at level v = String c t /\ opener c.
Proof.
  intros W.
  destruct W as [ s | [ | x items ] W | [ | m members ] N W ].
  - eexists _, _. split; [ reflexivity | constructor ].
  - eexists _, _. split; [ reflexivity | constructor ].
  - eexists _, _. split; [ reflexivity | constructor ].
  - eexists _, _. split; [ reflexivity | constructor ].
  - eexists _, _. split; [ reflexivity | constructor ].
Qed.

Lemma skip_ws_opener c t : opener c -> skip_ws (String c t) = String c t.
Proof.
  intros []; reflexivity.
Qed.

Lemma skip_ws_dumps level v rest :
  wf v -> skip_ws (dumps_at level v ++ rest) = dumps_at level v ++ rest.
Proof.
  intros W. destruct (dumps_at_head level v W) as [c [t [-> Hc]]].
  cbn [append]. now apply skip_ws_opener.
Qed.

Lemma skip_ws_encode_string s rest :
  skip_ws (encode_string s ++ rest) = encode_string s ++ rest.
Proof.
  rewrite encode_string_app. reflexivity.
Qed.

(** *** One step of each decoder *)

Lemma scan_once_array fuel level s1 :
  (exists c t, s1 = String c t /\ opener c) ->
  scan_once (S fuel) ("[" ++ newline_indent level ++ s1)
  = match parse_items fuel s1 with
    | Some (items, rest) => Some (Arr items, rest)
    | None => None
    end.
Proof.
  intros [c [t [-> Hc]]].
  cbn [append scan_once]. change (Ascii.eqb "[" Text.dquote) with false.
  change (Ascii.eqb "[" "[") with true. cbv iota.
  change (String Text.newline (spaces (2 * level) ++ String c t))
    with (newline_indent level ++ String c t).
  rewrite skip_ws_newline_indent, (skip_ws_opener _ _ Hc).
  destruct Hc; reflexivity.
Qed.

Lemma scan_once_object fuel level s1 :
  scan_once (S fuel) ("{" ++ newline_indent level ++ String Text.dquote s1)
  = match parse_members fuel s1 with
    | Some (pairs, rest) => Some (Obj (dict_of_pairs pairs), rest)
    | None => None
    end.
Proof.
  cbn [append scan_once]. change (Ascii.eqb "{" Text.dquote) with false.
  change (Ascii.eqb "{" "[") with false.
  change (Ascii.eqb "{" "{") with true. cbv iota.
  change (String Text.newline (spaces (2 * level) ++ String Text.dquote s1))
    with (newline_indent level ++ String Text.dquote s1).
  rewrite skip_ws_newline_indent. reflexivity.
Qed.

Lemma parse_items_last fuel v s1 level rest :
  scan_once fuel s1 = Some (v, newline_indent level ++ String "]" rest) ->
  parse_items (S fuel) s1 = Some ([v], rest).
Proof.
  intros H. cbn [parse_items]. rewrite H, skip_ws_newline_indent.
  reflexivity.
Qed.

Lemma parse_items_more fuel v vs s1 s2 level rest :
  scan_once fuel s1 = Some (v, item_separator level ++ s2) ->
  skip_ws s2 = s2 ->
  parse_items fuel s2 = Some (vs, rest) ->
  parse_items (S fuel) s1 = Some (v :: vs, rest).
Proof.
  intros H Hs Hp. cbn [parse_items]. rewrite H.
  unfold item_separator. cbn [append skip_ws].
  change (is_ws ",") with false. cbv iota.
  change (String Text.newline (spaces (2 * level) ++ s2))
    with (newline_indent level ++ s2).
  now rewrite skip_ws_newline_indent, Hs, Hp.
Qed.

Lemma parse_members_last fuel key v s2 level rest :
  scan_once fuel s2 = Some (v, newline_indent level ++ String "}" rest) ->
  skip_ws s2 = s2 ->
  parse_members (S fuel)
    (escape key ++ String Text.dquote (": " ++ s2))
  = Some ([(key, v)], rest).
Proof.
  intros H Hs. cbn [parse_members]. rewrite scanstring_escape.
  cbn [append skip_ws]. change (is_ws ":") with false. cbv iota.
  cbn [skip_ws]. change (is_ws " ") with true. cbv iota.
  rewrite Hs, H, skip_ws_newline_indent. reflexivity.
Qed.

Lemma parse_members_more fuel key v ms s2 s4 level rest :
  scan_once fuel s2
  = Some (v, item_separator level ++ String Text.dquote s4) ->
  skip_ws s2 = s2 ->
  parse_members fuel s4 = Some (ms, rest) ->
  parse_members (S fuel)
    (escape key ++ String Text.dquote (": " ++ s2))
  = Some ((key, v) :: ms, rest).
Proof.
  intros H Hs Hp. cbn [parse_members]. rewrite scanstring_escape.
  cbn [append skip_ws]. change (is_ws ":") with false. cbv iota.
  cbn [skip_ws]. change (is_ws " ") with true. cbv iota.
  rewrite Hs, H. unfold item_separator. cbn [append skip_ws].
  change (is_ws ",") with false. cbv iota.
  change (String Text.newline (spaces (2 * level) ++ String Text.dquote s4))
    with (newline_indent level ++ String Text.dquote s4).
  rewrite skip_ws_newline_indent. cbn [skip_ws].
  change (is_ws Text.dquote) with false. cbv iota.
  change (Ascii.eqb Text.dquote Text.dquote) with true. cbv iota.
  now rewrite Hp.
Qed.

(** *** The text of a list and of a dictionary, item by item *)

Lemma concat_cons2 sep (a b : string) l :
  String.concat sep (a :: b :: l) = a ++ sep ++ String.concat sep (b :: l).
Proof. reflexivity. Qed.

Lemma items_text level rest x l :
  String.concat (item_separator (S level)) (map (dumps_at (S level)) (x :: l))
    ++ newline_indent level ++ String "]" rest
  = dumps_at (S level) x ++ items_tail level rest l.
Proof.
  revert x. induction l as [ | y l IH ]; intros x.
  - reflexivity.
  - cbn [map] in *. rewrite concat_cons2, !append_assoc, IH. reflexivity.
Qed.

Lemma member_text (k d more : string) :
  (encode_string k ++ ": " ++ d) ++ more
  = String Text.dquote (escape k ++ String Text.dquote (": " ++ d ++ more)).
Proof.
  rewrite append_assoc, encode_string_app. reflexivity.
Qed.

Lemma members_text level rest m l :
  String.concat (item_separator (S level))
    (map (fun m => encode_string (fst m) ++ ": " ++ dumps_at (S level) (snd m))
         (m :: l))
    ++ newline_indent level ++ String "}" rest
  = String Text.dquote
      (escape (fst m) ++
       String Text.dquote
         (": " ++ dumps_at (S level) (snd m) ++ members_tail level rest l)).
Proof.
  revert m. induction l as [ | m' l IH ]; intros m.
  - cbn [map String.concat]. apply member_text.
  - cbn [map] in *. rewrite concat_cons2, append_assoc, member_text.
    rewrite append_assoc, IH. reflexivity.
Qed.

Lemma dumps_at_array level x l rest :
  dumps_at level (Arr (x :: l)) ++ rest
  = "[" ++ newline_indent (S level) ++
    dumps_at (S level) x ++ items_tail level rest l.
Proof.
  cbn [dumps_at]. rewrite <- items_text. cbn [append].
  now rewrite !append_assoc.
Qed.

Lemma dumps_at_object level m l rest :
  dumps_at level (Obj (m :: l)) ++ rest
  = "{" ++ newline_indent (S level) ++
    String Text.dquote
      (escape (fst m) ++
       String Text.dquote
         (": " ++ dumps_at (S level) (snd m) ++ members_tail level rest l)).
Proof.
  cbn [dumps_at]. rewrite <- members_text. cbn [append].
  now rewrite !append_assoc.
Qed.

(** *** Distinct keys are kept as they are *)

Lemma dict_set_fresh k v d :
  ~ In k (map fst d) -> dict_set k v d = (d ++ [(k, v)])%list.
Proof.
  induction d as [ | [k' v'] d IH ]; intros H; cbn [dict_set app].
  - reflexivity.
  - cbn [map fst In] in H.
    destruct (String.eqb k' k) eqn:E.
    + apply String.eqb_eq in E. tauto.
    + rewrite IH by tauto. reflexivity.
Qed.

Lemma dict_of_pairs_from acc pairs :
  NoDup (map fst (acc ++ pairs)%list) ->
  fold_left (fun d kv => dict_set (fst kv) (snd kv) d) pairs acc
  = (acc ++ pairs)%list.
Proof.
  revert acc. induction pairs as [ | [k v] pairs IH ]; intros acc H.
  - cbn. now rewrite app_nil_r.
  - cbn [fold_left fst snd].
    assert (F : ~ In k (map fst acc)).
    { rewrite map_app in H. cbn [map fst] in H.
      apply NoDup_remove_2 in H. intros I. apply H.
      apply in_or_app. now left. }
    rewrite (dict_set_fresh _ _ _ F), IH.
    + now rewrite <- app_assoc.
    + now rewrite <- app_assoc.
Qed.

Lemma dict_of_pairs_distinct pairs :
  NoDup (map fst pairs) -> dict_of_pairs pairs = pairs.
Proof.
  intros H. unfold dict_of_pairs. now rewrite dict_of_pairs_from.
Qed.

(** *** Decoding what was encoded *)

Lemma dumps_at_opens level v rest :
  wf v -> exists c t, dumps_at level v ++ rest = String c t /\ opener c.
Proof.
  intros W. destruct (dumps_at_head level v W) as [c [t [-> Hc]]].
  now exists c, (t ++ rest).
Qed.

Lemma parse_items_dumps level rest l :
  Forall decodes l -> Forall wf l ->
  forall x fuel,
    decodes x -> wf x ->
    fold_right (fun y n => S (size y + n)) 0 (x :: l) <= fuel ->
    parse_items fuel (dumps_at (S level) x ++ items_tail level rest l)
    = Some (x :: l, rest).
Proof.
  induction l as [ | y l IH ]; intros Dl Wl x fuel Dx Wx Hf;
    cbn [fold_right] in Hf; (destruct fuel as [ | fuel ]; [ lia | ]).
  - cbn [items_tail]. apply (parse_items_last _ _ _ level).
    apply Dx; [ exact Wx | lia ].
  - cbn [items_tail]. inversion Dl; subst. inversion Wl; subst.
    apply (parse_items_more _ _ _ _
             (dumps_at (S level) y ++ items_tail level rest l) (S level)).
    + apply Dx; [ exact Wx | lia ].
    + now apply skip_ws_dumps.
    + apply IH; try assumption. cbn [fold_right]. lia.
Qed.

Lemma parse_members_dumps level rest l :
  Forall (fun m => decodes (snd m)) l ->
  Forall (fun m => wf (snd m)) l ->
  forall m fuel,
    decodes (snd m) -> wf (snd m) ->
    fold_right (fun y n => S (size (snd y) + n)) 0 (m :: l) <= fuel ->
    parse_members fuel
      (escape (fst m) ++
       String Text.dquote
         (": " ++ dumps_at (S level) (snd m) ++ members_tail level rest l))
    = Some (m :: l, rest).
Proof.
  induction l as [ | m' l IH ]; intros Dl Wl m fuel Dm Wm Hf;
    cbn [fold_right] in Hf; (destruct fuel as [ | fuel ]; [ lia | ]);
    destruct m as [k v]; cbn [fst snd] in *.
  - cbn [members_tail]. apply (parse_members_last _ _ _ _ level).
    + apply Dm; [ exact Wm | lia ].
    + now apply skip_ws_dumps.
  - cbn [members_tail]. inversion Dl; subst. inversion Wl; subst.
    eapply (parse_members_more _ _ _ _ _ _ (S level)).
    + apply Dm; [ exact Wm | lia ].
    + now apply skip_ws_dumps.
    + apply IH; try assumption. cbn [fold_right]. lia.
Qed.

Theorem scan_once_dumps v : decodes v.
Proof.
  induction v as [ | b | z | literal | s | items IH | members IH ]
    using value_induction;
    intros W level fuel rest Hf; try (now inversion W).
  - destruct fuel as [ | fuel ]; [ cbn in Hf; lia | ].
    apply scan_once_string.
  - inversion W as [ | ? Wi | ]; subst.
    destruct fuel as [ | fuel ]; [ cbn in Hf; lia | ].
    destruct items as [ | x l ]; [ reflexivity | ].
    inversion IH; subst. inversion Wi; subst.
    rewrite dumps_at_array, scan_once_array by now apply dumps_at_opens.
    rewrite (parse_items_dumps level rest l) by
      (try assumption; cbn [size] in Hf; lia).
    reflexivity.
  - inversion W as [ | | ? Wk Wm ]; subst.
    destruct fuel as [ | fuel ]; [ cbn in Hf; lia | ].
    destruct members as [ | m l ]; [ reflexivity | ].
    rewrite dumps_at_object, scan_once_object.
    inversion IH; subst. inversion Wm; subst.
    rewrite (parse_members_dumps level rest l) by
      (try assumption; cbn [size] in Hf; lia).
    now rewrite dict_of_pairs_distinct.
Qed.

(** *** The text is long enough to pay for its decoding *)

Lemma items_tail_length level rest l :
  Forall (fun y => forall lvl, size y <= String.length (dumps_at lvl y)) l ->
  2 + fold_right (fun y n => S (size y + n)) 0 l
  <= String.length (items_tail level rest l).
Proof.
  induction 1 as [ | y l Hy _ IH ]; cbn [items_tail fold_right].
  - rewrite string_length_app. cbn. lia.
  - unfold item_separator. rewrite !string_length_app.
    specialize (Hy (S level)). cbn [String.length]. cbn [String.length append] in *.
    lia.
Qed.

Lemma members_tail_length level rest l :
  Forall (fun m => forall lvl,
            size (snd m) <= String.length (dumps_at lvl (snd m))) l ->
  2 + fold_right (fun m n => S (size (snd m) + n)) 0 l
  <= String.length (members_tail level rest l).
Proof.
  induction 1 as [ | m l Hm _ IH ]; cbn [members_tail fold_right].
  - rewrite string_length_app. cbn. lia.
  - unfold item_separator. rewrite !string_length_app.
    specialize (Hm (S level)). cbn [String.length append].
    rewrite !string_length_app. cbn [String.length append].
    rewrite !string_length_app. lia.
Qed.

Lemma Forall_wf {A : Type} (f : A -> value) (P : value -> Prop) (l : list A) :
  Forall (fun x => wf (f x) -> P (f x)) l ->
  Forall (fun x => wf (f x)) l ->
  Forall (fun x => P (f x)) l.
Proof.
  induction 1 as [ | x l Hx _ IH ]; intros W; [ constructor | ].
  inversion W; subst. constructor; auto.
Qed.

Lemma size_le_length v :
  wf v -> forall level, size v <= String.length (dumps_at level v).
Proof.
  induction v as [ | b | z | literal | s | items IH | members IH ]
    using value_induction;
    intros W level; try (now inversion W).
  - cbn. lia.
  - inversion W as [ | ? Wi | ]; subst.
    apply (Forall_wf (fun x => x)) in IH; [ | exact Wi ].
    destruct items as [ | x l ]; [ cbn; lia | ].
    rewrite <- (append_nil_r (dumps_at level (Arr (x :: l)))).
    rewrite dumps_at_array. inversion IH as [ | ? ? Hx Hl ]; subst.
    pose proof (items_tail_length level "" l Hl) as T.
    specialize (Hx (S level)).
    cbn [append String.length size fold_right].
    rewrite !string_length_app. lia.
  - inversion W as [ | | ? Wk Wm ]; subst.
    apply (Forall_wf snd
             (fun v => forall level,
                size v <= String.length (dumps_at level v))) in IH;
      [ | exact Wm ].
    destruct members as [ | m l ]; [ cbn; lia | ].
    rewrite <- (append_nil_r (dumps_at level (Obj (m :: l)))).
    rewrite dumps_at_object. inversion IH as [ | ? ? Hm Hl ]; subst.
    pose proof (members_tail_length level "" l Hl) as T.
    specialize (Hm (S level)).
    cbn [append String.length size fold_right].
    rewrite !string_length_app. cbn [String.length].
    rewrite !string_length_app. cbn [String.length append].
    rewrite !string_length_app. lia.
Qed.

(** A value with distinct keys is read back from its text. *)
Theorem loads_dumps v : wf v -> loads (dumps v) = Some v.
Proof.
  intros W. unfold loads, dumps.
  rewrite <- (append_nil_r (dumps_at 0 v)) at 2.
  rewrite skip_ws_dumps by exact W.
  rewrite (scan_once_dumps v W).
  - reflexivity.
  - now apply size_le_length.
Qed.

End JsonFacts.

(** ** The model and its dictionary *)

Lemma map_injective {A B : Type} (f : A -> B) :
  (forall x y, f x = f y -> x = y) ->
  forall l l', map f l = map f l' -> l = l'.
Proof.
  intros Hf. induction l as [ | x l IH ]; intros [ | y l' ] H;
    try discriminate; [ reflexivity | ].
  cbn [map] in H. injection H as Hx Hl.
  f_equal; [ now apply Hf | now apply IH ].
Qed.

Lemma map_Str_injective l l' : map Json.Str l = map Json.Str l' -> l = l'.
Proof.
  apply map_injective. intros x y E. now injection E.
Qed.

Lemma strings_injective l l' : strings l = strings l' -> l = l'.
Proof.
  unfold strings. intros H. injection H as H. now apply map_Str_injective.
Qed.

Lemma asdict_route_injective r r' :
  asdict_route r = asdict_route r' -> r = r'.
Proof.
  destruct r, r'. unfold asdict_route. cbn. intros H.
  injection H as -> -> -> Hm ->. apply map_Str_injective in Hm. now subst.
Qed.

Lemma asdict_controller_injective c c' :
  asdict_controller c = asdict_controller c' -> c = c'.
Proof.
  destruct c, c'. unfold asdict_controller. cbn. intros H.
  injection H as -> -> Hf. apply map_Str_injective in Hf. now subst.
Qed.

Lemma asdict_middleware_injective m m' :
  asdict_middleware m = asdict_middleware m' -> m = m'.
Proof.
  destruct m, m'. unfold asdict_middleware. cbn. intros H.
  now injection H as -> -> ->.
Qed.

Lemma asdict_service_injective s s' :
  asdict_service s = asdict_service s' -> s = s'.
Proof.
  destruct s, s'. unfold asdict_service. cbn. intros H.
  injection H as -> -> Hf. apply map_Str_injective in Hf. now subst.
Qed.

Lemma dict_of_dependencies_injective d d' :
  dict_of_dependencies d = dict_of_dependencies d' -> d = d'.
Proof.
  unfold dict_of_dependencies. intros H. injection H as H.
  revert H. apply map_injective.
  intros [k v] [k' v'] E. cbn in E. now injection E as -> ->.
Qed.

(** The dictionary determines the model: no field is lost or merged. *)
Lemma analysis_data_injective r r' :
  analysis_data r = analysis_data r' -> r = r'.
Proof.
  destruct r, r'. unfold analysis_data. cbn. intros H.
  injection H as Hr Hc Hm Hs Ht Hd.
  apply (map_injective _ asdict_route_injective) in Hr.
  apply (map_injective _ asdict_controller_injective) in Hc.
  apply (map_injective _ asdict_middleware_injective) in Hm.
  apply (map_injective _ asdict_service_injective) in Hs.
  apply map_Str_injective in Ht.
  apply (f_equal Json.Obj) in Hd.
  apply dict_of_dependencies_injective in Hd.
  now subst.
Qed.

Lemma wf_strings l : Json.wf (strings l).
Proof.
  constructor. apply Forall_forall. intros x H.
  apply in_map_iff in H. destruct H as [s [<- _]]. constructor.
Qed.

Ltac distinct_keys :=
  repeat (constructor; [ cbn; intuition discriminate | ]); constructor.

Ltac wf_members :=
  repeat (constructor; [ cbn; try apply wf_strings; try constructor | ]);
  try constructor.

Lemma wf_all {A : Type} (f : A -> Json.value) (l : list A) :
  (forall x, Json.wf (f x)) -> Json.wf (Json.Arr (map f l)).
Proof.
  intros H. constructor. apply Forall_forall. intros v Hv.
  apply in_map_iff in Hv. destruct Hv as [x [<- _]]. apply H.
Qed.

Lemma wf_asdict_route r : Json.wf (asdict_route r).
Proof. constructor; [ distinct_keys | wf_members ]. Qed.

Lemma wf_asdict_controller c : Json.wf (asdict_controller c).
Proof. constructor; [ distinct_keys | wf_members ]. Qed.

Lemma wf_asdict_middleware m : Json.wf (asdict_middleware m).
Proof. constructor; [ distinct_keys | wf_members ]. Qed.

Lemma wf_asdict_service s : Json.wf (asdict_service s).
Proof. constructor; [ distinct_keys | wf_members ]. Qed.

Lemma wf_dict_of_dependencies deps :
  NoDup (map fst deps) -> Json.wf (dict_of_dependencies deps).
Proof.
  intros H. constructor.
  - now rewrite map_map.
  - apply Forall_forall. intros m Hm.
    apply in_map_iff in Hm. destruct Hm as [d [<- _]]. constructor.
Qed.

Lemma wf_analysis_data r :
  NoDup (map fst (dependencies r)) -> Json.wf (analysis_data r).
Proof.
  intros H. constructor; [ distinct_keys | ].
  repeat apply Forall_cons; try apply Forall_nil; cbn [snd].
  - apply wf_all, wf_asdict_route.
  - apply wf_all, wf_asdict_controller.
  - apply wf_all, wf_asdict_middleware.
  - apply wf_all, wf_asdict_service.
  - apply wf_strings.
  - now apply wf_dict_of_dependencies.
Qed.

(** C4. What the generator loads from the text that [save_analysis]
    writes is the dictionary of the model: each of its six entries is the
    image of the field of the model, and the model is the only one with
    that dictionary. *)
Theorem C4_analysis_round_trip (r : AnalysisResult) :
  NoDup (map fst (dependencies r)) ->
  exists loaded,
    Json.loads (save_analysis r) = Some loaded /\
    loaded = analysis_data r /\
    Json.get "routes" loaded = Some (Json.Arr (map asdict_route (routes r))) /\
    Json.get "controllers" loaded
    = Some (Json.Arr (map asdict_controller (controllers r))) /\
    Json.get "middleware" loaded
    = Some (Json.Arr (map asdict_middleware (middleware_list r))) /\
    Json.get "services" loaded
    = Some (Json.Arr (map asdict_service (services r))) /\
    Json.get "database_tables" loaded = Some (strings (database_tables r)) /\
    Json.get "dependencies" loaded
    = Some (dict_of_dependencies (dependencies r)) /\
    (forall r', analysis_data r' = loaded -> r' = r).
Proof.
  intros H. exists (analysis_data r).
  split; [ apply JsonFacts.loads_dumps, wf_analysis_data, H | ].
  repeat (split; [ reflexivity | ]).
  intros r'. apply analysis_data_injective.
Qed.

Lemma C4_witness :
  Json.loads (save_analysis sample_model) = Some (analysis_data sample_model).
Proof.
  assert (H : NoDup (map fst (dependencies sample_model)))
    by (repeat (constructor; [ cbn; intuition discriminate | ]); constructor).
  destruct (C4_analysis_round_trip sample_model H) as [loaded [L [E _]]].
  rewrite L, E. reflexivity.
Defined.

(** ** The generator *)

(** C5. When the analysis file does not exist, [main] prints that the file
    was not found and that the analyzer is to be run first, returns, and
    has made no directory and written no file. *)
Theorem C5_missing_analysis_file argv (fs : files) :
  fs analysis_file = None ->
  main argv fs
  = ([ Print "❌ Analysis file not found: migration-tools/analysis_result.json";
       Print "   Run analyze_backend.py first!" ], Ok tt) /\
  writes (fst (main argv fs)) = [] /\
  Text.contains "Run analyze_backend.py first" 
    (String.concat "" (printed (fst (main argv fs)))) = true.
Proof.
  intros H. unfold main. rewrite H. repeat split; vm_compute; reflexivity.
Qed.

Lemma C5_witness :
  let fs : files := fun _ => None in
  writes (fst (main ["generate_golang.py"; "example.com/cctv"] fs)) = [].
Proof.
  cbv zeta.
  apply (C5_missing_analysis_file ["generate_golang.py"; "example.com/cctv"]
           (fun _ => None)).
  reflexivity.
Defined.

(** C8. Whatever dictionary the analysis is, and so also with no schema
    tables in it, the run returns and leaves the same four files: the
    persistence bootstrap, the configuration and the middleware are fixed
    texts, and the handlers a text of the module name alone.  The bootstrap
    creates the five core tables and no other, each with
    [CREATE TABLE IF NOT EXISTS]. *)
Theorem C8_fixed_artifacts (d : list (string * Json.value)) (module_name : string) :
  let events := fst (generate_all (Json.Obj d) module_name) in
  snd (generate_all (Json.Obj d) module_name) = Ok tt /\
  written "backend-go/internal/database/database.go" events
  = Some Templates.database_go /\
  written "backend-go/internal/config/config.go" events
  = Some Templates.config_go /\
  written "backend-go/internal/middleware/auth.go" events
  = Some Templates.auth_content /\
  written "backend-go/internal/handlers/auth.go" events
  = Some (Templates.auth_handler module_name) /\
  table_matches Templates.database_go = core_tables /\
  Forall (fun t => Text.contains ("CREATE TABLE IF NOT EXISTS " ++ t ++ " (")
                                 Templates.database_go = true)
         core_tables /\
  (forall d',
     let events' := fst (generate_all (Json.Obj d') module_name) in
     Forall (fun p => written p events' = written p events)
            [ "backend-go/internal/database/database.go";
              "backend-go/internal/config/config.go";
              "backend-go/internal/middleware/auth.go";
              "backend-go/internal/handlers/auth.go" ]).
Proof.
  cbv zeta.
  assert (E : forall d0, generate_all (Json.Obj d0) module_name
                         = generate_all (Json.Obj []) module_name)
    by reflexivity.
  rewrite (E d).
  split; [ reflexivity | ].
  split; [ vm_compute; reflexivity | ].
  split; [ vm_compute; reflexivity | ].
  split; [ vm_compute; reflexivity | ].
  split; [ vm_compute; reflexivity | ].
  split; [ vm_compute; reflexivity | ].
  split; [ repeat constructor | ].
  intros d'. rewrite (E d'). repeat constructor.
Qed.

(** * Further properties of the analyzer and the generator *)

(** ** The matcher is sound for the texts of a pattern *)

Module RegexFacts.
Import Re Lang.

Lemma rep_greedy_sound ok (k : string -> outcome) s o :
  rep_greedy ok k s = Some o ->
  exists t s', s = t ++ s' /\ all_chars ok t = true /\ k s' = Some o.
Proof.
  induction s as [ | a s IH ]; cbn [rep_greedy]; intros H.
  - now exists "", "".
  - destruct (ok a) eqn:A; [ | now exists "", (String a s) ].
    destruct (rep_greedy ok k s) as [o' | ] eqn:E.
    + injection H as <-. destruct (IH eq_refl) as (t & s' & -> & T & K).
      exists (String a t), s'. cbn. rewrite A, T. auto.
    + now exists "", (String a s).
Qed.

Lemma rep_lazy_sound ok (k : string -> outcome) s o :
  rep_lazy ok k s = Some o ->
  exists t s', s = t ++ s' /\ all_chars ok t = true /\ k s' = Some o.
Proof.
  induction s as [ | a s IH ]; cbn [rep_lazy]; intros H.
  - destruct (k "") as [o' | ] eqn:E; [ | discriminate ].
    injection H as <-. now exists "", "".
  - destruct (k (String a s)) as [o' | ] eqn:E.
    + injection H as <-. now exists "", (String a s).
    + destruct (ok a) eqn:A; [ | discriminate ].
      destruct (IH H) as (t & s' & -> & T & K).
      exists (String a t), s'. cbn. rewrite A, T. auto.
Qed.

Lemma consumed_app t s' : consumed (t ++ s') s' = t.
Proof.
  unfold consumed. rewrite string_length_app.
  replace (String.length t + String.length s' - String.length s')
    with (String.length t) by lia.
  apply substring_prefix_app.
Qed.

(** A run that succeeds has matched a text of the pattern at the start of
    its input and called its continuation on the rest; a group that is
    bound then was bound before, or holds a text of one of the groups of
    that number. *)
Lemma run_sound ic r :
  forall s c k o,
    run ic r s c k = Some o ->
    exists t s' c',
      s = t ++ s' /\ lang ic r t /\ k s' c' = Some o /\
      (forall n u, lookup n c' = Some u ->
         lookup n c = Some u \/
         exists r1, In r1 (groups_of n r) /\ lang ic r1 u).
Proof.
  induction r as [ | cl | r1 IH1 r2 IH2 | r1 IH1 r2 IH2 | g cl | m r1 IH1 ];
    intros s c k o H; cbn [run groups_of] in *.
  - exists "", s, c. repeat split; auto. constructor.
  - destruct s as [ | a s ]; [ discriminate | ].
    destruct (accepts ic cl a) eqn:A; [ | discriminate ].
    exists (String a ""), s, c. repeat split; auto. now constructor.
  - apply IH1 in H. destruct H as (t1 & s1 & c1 & -> & L1 & H & G1).
    apply IH2 in H. destruct H as (t2 & s2 & c2 & -> & L2 & H & G2).
    exists (t1 ++ t2), s2, c2. repeat split.
    + now rewrite JsonFacts.append_assoc.
    + now constructor.
    + exact H.
    + intros n u Hu. destruct (G2 n u Hu) as [Hc | (r' & I & L)].
      * destruct (G1 n u Hc) as [Hc' | (r' & I & L)]; [ now left | ].
        right. exists r'. split; [ apply in_or_app; now left | exact L ].
      * right. exists r'. split; [ apply in_or_app; now right | exact L ].
  - destruct (run ic r1 s c k) as [o' | ] eqn:E.
    + injection H as <-.
      apply IH1 in E. destruct E as (t1 & s1 & c1 & -> & L1 & E & G1).
      exists t1, s1, c1. repeat split; auto; [ now apply lang_Alt_l | ].
      intros n u Hu. destruct (G1 n u Hu) as [Hc | (r' & I & L)];
        [ now left | ].
      right. exists r'. split; [ apply in_or_app; now left | exact L ].
    + apply IH2 in H. destruct H as (t2 & s2 & c2 & -> & L2 & H & G2).
      exists t2, s2, c2. repeat split; auto; [ now apply lang_Alt_r | ].
      intros n u Hu. destruct (G2 n u Hu) as [Hc | (r' & I & L)];
        [ now left | ].
      right. exists r'. split; [ apply in_or_app; now right | exact L ].
  - assert (R : exists t s', s = t ++ s' /\
                             all_chars (accepts ic cl) t = true /\
                             k s' c = Some o).
    { destruct g; [ now apply rep_greedy_sound in H
                  | now apply rep_lazy_sound in H ]. }
    destruct R as (t & s' & -> & T & K). exists t, s', c.
    repeat split; auto. now constructor.
  - apply IH1 in H. destruct H as (t1 & s1 & c1 & -> & L1 & H & G1).
    rewrite consumed_app in H.
    exists t1, s1, ((m, t1) :: c1). repeat split; auto.
    + now constructor.
    + intros n u Hu. cbn [lookup] in Hu.
      destruct (Nat.eqb m n) eqn:E.
      * injection Hu as <-. right. exists r1. split; [ now left | exact L1 ].
      * destruct (G1 n u Hu) as [Hc | (r' & I & L)]; [ now left | ].
        right. exists r'. split; [ exact I | exact L ].
Qed.

(** Every match that the scan finds: group 0 is a text of the pattern, and
    any other group that is bound holds a text of a group of its number. *)
Lemma scan_sound ic r :
  forall s skip m,
    In m (scan ic r skip s) ->
    (exists u, lookup 0 m = Some u /\ lang ic r u) /\
    (forall n u, n <> 0 -> lookup n m = Some u ->
       exists r1, In r1 (groups_of n r) /\ lang ic r1 u).
Proof.
  assert (Hit : forall s rest c,
             match_here ic r s = Some (rest, c) ->
             let m := (0, substring 0 (String.length s - String.length rest) s)
                      :: c in
             (exists u, lookup 0 m = Some u /\ lang ic r u) /\
             (forall n u, n <> 0 -> lookup n m = Some u ->
                exists r1, In r1 (groups_of n r) /\ lang ic r1 u)).
  { intros s rest c H. unfold match_here in H.
    apply run_sound in H. destruct H as (t & s' & c' & -> & L & H & G).
    injection H as <- <-. cbv zeta. split.
    - exists t. split; [ | exact L ]. cbn [lookup Nat.eqb].
      f_equal. apply (consumed_app t s').
    - intros n u Hn Hu. cbn [lookup] in Hu.
      destruct n as [ | n ]; [ congruence | ]. cbn [Nat.eqb] in Hu.
      destruct (G _ _ Hu) as [Hc | Hg]; [ discriminate | exact Hg ]. }
  induction s as [ | a s IH ]; intros skip m H.
  - destruct skip; cbn [scan] in H; [ | contradiction ].
    destruct (match_here ic r "") as [ [rest c] | ] eqn:E;
      [ | contradiction ].
    destruct H as [ <- | [] ]. now apply Hit.
  - destruct skip as [ | j ]; cbn [scan] in H; [ | now apply IH in H ].
    destruct (match_here ic r (String a s)) as [ [rest c] | ] eqn:E.
    + destruct H as [ <- | H ]; [ now apply Hit | now apply IH in H ].
    + now apply IH in H.
Qed.

(** The field read from group [n] of a match, for a pattern that binds
    it. *)
Lemma group_sound ic r n content m :
  n <> 0 -> binds n r = true ->
  In m (finditer ic r content) ->
  exists r1, In r1 (groups_of n r) /\ lang ic r1 (group n m).
Proof.
  intros Hn B H. unfold finditer in H.
  pose proof (scan_binds ic r n B content 0 m H) as Hb.
  apply scan_sound in H. destruct H as [_ G].
  unfold group. destruct (lookup n m) as [u | ] eqn:E.
  - exact (G n u Hn E).
  - now elim Hb.
Qed.

(** *** Reading the texts of the patterns of the analyzer *)

Lemma lang_str_inv w t : lang false (str w) t -> t = w.
Proof.
  revert t. induction w as [ | a w IH ]; intros t H; cbn [str] in H.
  - now inversion H.
  - inversion H as [ | | ? ? t1 t2 H1 H2 | | | | ]; subst.
    inversion H1 as [ | ? b A | | | | | ]; subst.
    cbn in A. apply Ascii.eqb_eq in A. subst b.
    cbn. f_equal. now apply IH.
Qed.

Lemma lang_plus_inv ic g cl t :
  lang ic (plus g cl) t ->
  t <> "" /\ all_chars (accepts ic cl) t = true.
Proof.
  unfold plus. intros H.
  inversion H as [ | | ? ? t1 t2 H1 H2 | | | | ]; subst.
  inversion H1 as [ | ? a A | | | | | ]; subst.
  inversion H2 as [ | | | | | ? ? ? T | ]; subst.
  cbn. split; [ discriminate | ]. now rewrite A, T.
Qed.

Lemma lang_word_inv ic g t :
  lang ic (plus g Word) t -> is_identifier t = true.
Proof.
  intros H. apply lang_plus_inv in H. destruct H as [N A].
  destruct t; [ congruence | exact A ].
Qed.

End RegexFacts.

(** ** The fields of an extracted route *)

(** The pattern of group [n] of the pattern that [Hm] has a match of, and
    that the field read from the match is one of its texts, as [L]. *)
Ltac field_of n Hm L :=
  let r1 := fresh "r1" in
  let I := fresh "I" in
  match type of Hm with
  | In ?m (Re.finditer ?ic ?p ?content) =>
      destruct (RegexFacts.group_sound ic p n content m) as (r1 & I & L);
      [ discriminate | vm_compute; reflexivity | exact Hm | ];
      vm_compute in I; destruct I as [ <- | [] ]
  end.

Lemma route_has_match stem content r :
  In r (routes_of_file stem content) ->
  exists pattern m,
    In pattern Patterns.route_patterns /\
    In m (Re.finditer false pattern content) /\
    r = route_of_match stem content m.
Proof.
  unfold routes_of_file. intros H.
  apply in_flat_map in H. destruct H as [pattern [Hp H]].
  apply in_map_iff in H. destruct H as [m [E Hm]].
  exists pattern, m. auto.
Qed.

Lemma all_chars_ext (p q : ascii -> bool) s :
  (forall a, p a = q a) -> Lang.all_chars p s = Lang.all_chars q s.
Proof.
  intros E. induction s as [ | a s IH ]; cbn; [ reflexivity | ].
  now rewrite E, IH.
Qed.

Lemma lang_alt_inv ic r1 r2 t :
  Lang.lang ic (Re.Alt r1 r2) t -> Lang.lang ic r1 t \/ Lang.lang ic r2 t.
Proof.
  intros H. inversion H; subst; auto.
Qed.

Lemma lang_seq_inv ic r1 r2 t :
  Lang.lang ic (Re.Seq r1 r2) t ->
  exists t1 t2, t = t1 ++ t2 /\ Lang.lang ic r1 t1 /\ Lang.lang ic r2 t2.
Proof.
  intros H. inversion H; subst. eauto.
Qed.

Lemma lang_http_method t :
  Lang.lang false Patterns.http_method t ->
  In t [ "get"; "post"; "put"; "delete"; "patch" ].
Proof.
  unfold Patterns.http_method. cbn [Re.alt]. intros H.
  repeat (apply lang_alt_inv in H; destruct H as [H | H]);
    apply RegexFacts.lang_str_inv in H; subst; cbn; tauto.
Qed.

(** The method of every extracted route is one of the five HTTP methods,
    in upper case. *)
Theorem route_method_is_http_method stem content r :
  In r (routes_of_file stem content) ->
  In (method r) http_methods.
Proof.
  intros H. destruct (route_has_match _ _ _ H) as (p & m & Hp & Hm & ->).
  cbn [method route_of_match].
  assert (G : In (Re.group 1 m) [ "get"; "post"; "put"; "delete"; "patch" ]).
  { destruct Hp as [ <- | [ <- | [] ] ]; field_of 1 Hm L;
      now apply lang_http_method. }
  cbn in G.
  destruct G as [ <- | [ <- | [ <- | [ <- | [ <- | [] ] ] ] ] ];
    vm_compute; tauto.
Qed.

Lemma route_method_witness :
  In "GET" http_methods.
Proof.
  apply (route_method_is_http_method "areaRoutes"
           "fastify.get('/areas', AreaController.list)"
           (mkRoute "GET" "/areas" "AreaController.list" [] "areaController")).
  vm_compute. left. reflexivity.
Defined.

(** The path of every extracted route is not empty and has no quote of
    either kind in it. *)
Theorem route_path_is_quoted_text stem content r :
  In r (routes_of_file stem content) ->
  path r <> "" /\
  Lang.all_chars (fun a => negb (is_quote a)) (path r) = true.
Proof.
  intros H. destruct (route_has_match _ _ _ H) as (p & m & Hp & Hm & ->).
  cbn [path route_of_match].
  assert (G : Lang.lang false (Re.plus true Patterns.not_quote) (Re.group 2 m)).
  { destruct Hp as [ <- | [ <- | [] ] ]; field_of 2 Hm L; exact L. }
  apply RegexFacts.lang_plus_inv in G. destruct G as [N A].
  split; [ exact N | ]. rewrite <- A. apply all_chars_ext.
  intros a. unfold is_quote. cbn. now rewrite orb_false_r.
Qed.

Lemma route_path_witness :
  "/areas" <> "" /\
  Lang.all_chars (fun a => negb (is_quote a)) "/areas" = true.
Proof.
  apply (route_path_is_quoted_text "areaRoutes"
           "fastify.get('/areas', AreaController.list)"
           (mkRoute "GET" "/areas" "AreaController.list" [] "areaController")).
  vm_compute. left. reflexivity.
Defined.

(** The handler of every extracted route is an identifier, or two
    identifiers around [Controller.]: the text of the third group of the
    match, which both patterns have. *)
Theorem route_handler_is_symbol stem content r :
  In r (routes_of_file stem content) ->
  Lang.is_identifier (handler r) = true \/
  exists x y,
    handler r = x ++ "Controller." ++ y /\
    Lang.is_identifier x = true /\ Lang.is_identifier y = true.
Proof.
  intros H. destruct (route_has_match _ _ _ H) as (p & m & Hp & Hm & ->).
  cbn [handler route_of_match]. change (3 <=? Patterns.route_groups)%nat with true.
  cbv iota.
  destruct Hp as [ <- | [ <- | [] ] ]; field_of 3 Hm L.
  - apply lang_alt_inv in L. destruct L as [L | L].
    + right. cbn [Re.seq] in L.
      apply lang_seq_inv in L. destruct L as (x & t2 & -> & Lx & L).
      apply (RegexFacts.lang_word_inv false true) in Lx.
      apply lang_seq_inv in L. destruct L as (w & t3 & -> & Lw & L).
      apply (RegexFacts.lang_str_inv "Controller") in Lw. subst w.
      apply lang_seq_inv in L. destruct L as (d & t4 & -> & Ld & L).
      inversion Ld as [ | ? a A | | | | | ]; subst.
      cbn in A. apply Ascii.eqb_eq in A. subst a.
      apply lang_seq_inv in L. destruct L as (y & t5 & -> & Ly & L).
      apply (RegexFacts.lang_word_inv false true) in Ly.
      inversion L; subst.
      exists x, y. rewrite JsonFacts.append_nil_r. cbn [append]. auto.
    + left. now apply (RegexFacts.lang_word_inv false true) in L.
  - left. now apply (RegexFacts.lang_word_inv false true) in L.
Qed.

Lemma route_handler_witness :
  routes_of_file "cafeRoutes" cafe_route
  = [ mkRoute "GET" "/menu" cafe [] "cafeController" ] /\
  (Lang.is_identifier cafe = true \/
   exists x y,
     cafe = x ++ "Controller." ++ y /\
     Lang.is_identifier x = true /\ Lang.is_identifier y = true).
Proof.
  split; [ vm_compute; reflexivity | ].
  apply (route_handler_is_symbol "cafeRoutes" cafe_route
           (mkRoute "GET" "/menu" cafe [] "cafeController")).
  vm_compute. left. reflexivity.
Defined.

(** ** Tables, exported functions and descriptions *)

Lemma table_match_is_identifier content t :
  In t (table_matches content) -> Lang.is_identifier t = true.
Proof.
  unfold table_matches, Re.findall1. intros H.
  apply in_map_iff in H. destruct H as [m [<- Hm]].
  field_of 1 Hm L. now apply (RegexFacts.lang_word_inv true true) in L.
Qed.

Lemma collected_tables_from b files all t :
  collected_tables b files = Ok all ->
  In t all ->
  exists content, contributes b files content /\ In t (table_matches content).
Proof.
  unfold collected_tables. intros H Ht.
  destruct (for_each _ files) as [tables | ] eqn:E; cbn [bind] in H;
    [ | discriminate ].
  apply (for_each_read_ok_inv (fun _ content => table_matches content)) in E.
  assert (Hfiles : In t tables ->
                   exists content, contributes b files content /\
                                   In t (table_matches content)).
  { rewrite E. intros I. apply in_flat_map in I. destruct I as [f [Hf I]].
    destruct (file_text f) as [content | ] eqn:T; [ | contradiction ].
    exists content. split; [ left; now exists f | exact I ]. }
  destruct (setup_js b) as [ [content | ] | ] eqn:S; try discriminate;
    injection H as <-; [ | now apply Hfiles ].
  apply in_app_or in Ht. destruct Ht as [Ht | Ht]; [ now apply Hfiles | ].
  exists content. split; [ now right | exact Ht ].
Qed.

(** Every schema table is an identifier, and is the name that a
    [CREATE TABLE] statement of one of the scanned files gives: the pass
    invents no table. *)
Theorem schema_tables_come_from_statements order b tables t :
  analyze_database_schema order b = Ok tables ->
  In t tables ->
  Lang.is_identifier t = true /\
  exists files content,
    migrations_dir b = Some files /\
    contributes b files content /\ In t (table_matches content).
Proof.
  unfold analyze_database_schema. intros H Ht.
  destruct (migrations_dir b) as [files | ];
    [ | injection H as <-; contradiction ].
  destruct (collected_tables b files) as [all | ] eqn:E; cbn [bind] in H;
    [ | discriminate ].
  injection H as <-. apply list_of_set_In in Ht.
  destruct (collected_tables_from _ _ _ _ E Ht) as (content & C & I).
  split; [ now apply (table_match_is_identifier content) | ].
  now exists files, content.
Qed.

Lemma schema_tables_witness :
  analyze_database_schema last_seen accent_tree = Ok [cafe] /\
  Lang.is_identifier cafe = true.
Proof.
  split; [ vm_compute; reflexivity | ].
  apply (schema_tables_come_from_statements last_seen accent_tree
           [cafe] cafe).
  - vm_compute. reflexivity.
  - left. reflexivity.
Defined.

(** A loop whose body gives one entry for a file gives one entry for each
    file, in order. *)
Lemma for_each_one_per_file {B : Type} (g : source_file -> string -> B)
    (files : directory) (l : list B) :
  for_each (fun f => content <- read_text f ;; Ok [g f content]) files = Ok l ->
  Forall2 (fun f x => exists content,
                        file_text f = Some content /\ x = g f content)
          files l.
Proof.
  revert l. induction files as [ | f files IH ]; intros l H;
    cbn [for_each] in H.
  - injection H as <-. constructor.
  - unfold read_text at 1 in H.
    destruct (file_text f) as [content | ] eqn:T; cbn [bind] in H;
      [ | discriminate ].
    destruct (for_each _ files) as [ys | ]; cbn [bind] in H;
      [ | discriminate ].
    injection H as <-. constructor; [ now exists content | now apply IH ].
Qed.

Lemma exported_is_identifier patterns content x :
  Forall (fun p => Re.binds 1 p = true /\
                   Lang.groups_of 1 p = [Re.plus true Re.Word]) patterns ->
  In x (exported patterns content) -> Lang.is_identifier x = true.
Proof.
  unfold exported. intros F H.
  apply in_flat_map in H. destruct H as [p [Hp H]].
  rewrite Forall_forall in F. destruct (F p Hp) as [B G].
  unfold Re.findall1 in H. apply in_map_iff in H. destruct H as [m [<- Hm]].
  destruct (RegexFacts.group_sound false p 1 content m) as (r1 & I & L);
    [ discriminate | exact B | exact Hm | ].
  rewrite G in I. destruct I as [ <- | [] ].
  now apply (RegexFacts.lang_word_inv false true) in L.
Qed.

(** The controllers pass gives one controller for each file, in the order
    of the files: named by the stem of the file, located under
    [controllers/], and with the exported names of the file, each once and
    each an identifier, whatever order the set gives them. *)
Theorem controllers_one_per_file order b files cs :
  controllers_dir b = Some files ->
  analyze_controllers order b = Ok cs ->
  Forall2 (fun f c =>
             ctrl_name c = stem (file_name f) /\
             ctrl_file c = "controllers/" ++ file_name f /\
             NoDup (ctrl_functions c) /\
             Forall (fun x => Lang.is_identifier x = true) (ctrl_functions c) /\
             exists content,
               file_text f = Some content /\
               forall x, In x (ctrl_functions c) <->
                         In x (exported Patterns.controller_patterns content))
          files cs.
Proof.
  unfold analyze_controllers. intros -> H.
  apply (for_each_one_per_file
           (fun f content =>
              {| ctrl_name := stem (file_name f);
                 ctrl_file := "controllers/" ++ file_name f;
                 ctrl_functions :=
                   order (exported Patterns.controller_patterns content) |}))
    in H.
  eapply Forall2_impl; [ | exact H ].
  intros f c (content & T & ->). cbn.
  repeat split; try apply list_of_set_NoDup.
  - apply Forall_forall. intros x Hx. apply list_of_set_In in Hx.
    apply (exported_is_identifier Patterns.controller_patterns content);
      [ repeat constructor | exact Hx ].
  - exists content. split; [ exact T | ]. intros x. apply list_of_set_In.
Qed.

(** The same for the services pass, with its own patterns. *)
Theorem services_one_per_file order b files ss :
  services_dir b = Some files ->
  analyze_services order b = Ok ss ->
  Forall2 (fun f s =>
             svc_name s = stem (file_name f) /\
             svc_file s = "services/" ++ file_name f /\
             NoDup (svc_functions s) /\
             Forall (fun x => Lang.is_identifier x = true) (svc_functions s) /\
             exists content,
               file_text f = Some content /\
               forall x, In x (svc_functions s) <->
                         In x (exported Patterns.service_patterns content))
          files ss.
Proof.
  unfold analyze_services. intros -> H.
  apply (for_each_one_per_file
           (fun f content =>
              {| svc_name := stem (file_name f);
                 svc_file := "services/" ++ file_name f;
                 svc_functions :=
                   order (exported Patterns.service_patterns content) |}))
    in H.
  eapply Forall2_impl; [ | exact H ].
  intros f s (content & T & ->). cbn.
  repeat split; try apply list_of_set_NoDup.
  - apply Forall_forall. intros x Hx. apply list_of_set_In in Hx.
    apply (exported_is_identifier Patterns.service_patterns content);
      [ repeat constructor | exact Hx ].
  - exists content. split; [ exact T | ]. intros x. apply list_of_set_In.
Qed.

Lemma controllers_witness :
  exists c,
    analyze_controllers last_seen accent_tree = Ok [c] /\
    ctrl_name c = "cafeController" /\
    ctrl_file c = "controllers/cafeController.js" /\
    ctrl_functions c = [cafe] /\
    Forall (fun x => Lang.is_identifier x = true) (ctrl_functions c).
Proof.
  assert (E : analyze_controllers last_seen accent_tree
              = Ok [ mkController "cafeController"
                       "controllers/cafeController.js" [cafe] ])
    by (vm_compute; reflexivity).
  eexists. split; [ exact E | ].
  pose proof (controllers_one_per_file last_seen accent_tree _ _ eq_refl E) as H.
  inversion H as [ | ? ? ? ? (N & F & D & I & _) _ ]; subst.
  repeat split; assumption.
Defined.

Lemma services_witness :
  exists s,
    analyze_services last_seen accent_tree = Ok [s] /\
    svc_file s = "services/cafeService.js" /\
    svc_functions s = [cafe] /\
    Forall (fun x => Lang.is_identifier x = true) (svc_functions s).
Proof.
  assert (E : analyze_services last_seen accent_tree
              = Ok [ mkService "cafeService" "services/cafeService.js"
                       [cafe] ])
    by (vm_compute; reflexivity).
  eexists. split; [ exact E | ].
  pose proof (services_one_per_file last_seen accent_tree _ _ eq_refl E) as H.
  inversion H as [ | ? ? ? ? (N & F & D & I & _) _ ]; subst.
  repeat split; assumption.
Defined.

(** A match of a pattern that starts with a literal word needs the word
    in the text. *)
Lemma finditer_needs_literal (w : string) r content m :
  In m (Re.finditer false (Re.Seq (Re.str w) r) content) ->
  Text.contains w content = true.
Proof.
  unfold Re.finditer. intros H.
  apply scan_match_somewhere in H. destruct H as (p & t & -> & Ht).
  apply contains_app.
  destruct (Re.match_here false (Re.Seq (Re.str w) r) t) as [o | ] eqn:E;
    [ | congruence ].
  unfold Re.match_here in E. apply run_seq_str_inv in E.
  destruct E as [s' ->]. apply prefix_app.
Qed.

(** The middleware pass gives one entry for each file, in the order of the
    files: named by the stem of the file and located under [middleware/].
    Its description has no line feed in it, and is empty when the file
    has no opening of a block comment. *)
Theorem middleware_one_per_file b files ms :
  middleware_dir b = Some files ->
  analyze_middleware b = Ok ms ->
  Forall2 (fun f m =>
             mw_name m = stem (file_name f) /\
             mw_file m = "middleware/" ++ file_name f /\
             Lang.all_chars (fun a => negb (Ascii.eqb a Text.newline))
                            (mw_description m) = true /\
             exists content,
               file_text f = Some content /\
               (Text.contains "/**" content = false -> mw_description m = ""))
          files ms.
Proof.
  unfold analyze_middleware. intros -> H.
  apply (for_each_one_per_file
           (fun f content =>
              {| mw_name := stem (file_name f);
                 mw_file := "middleware/" ++ file_name f;
                 mw_description :=
                   match Re.finditer false Patterns.doc_comment content with
                   | desc_match :: _ => Re.group 1 desc_match
                   | [] => ""
                   end |}))
    in H.
  eapply Forall2_impl; [ | exact H ].
  intros f m (content & T & ->). cbn [mw_name mw_file mw_description].
  repeat split.
  - destruct (Re.finditer false Patterns.doc_comment content) as [ | d l ] eqn:E;
      [ reflexivity | ].
    assert (Hd : In d (Re.finditer false Patterns.doc_comment content))
      by (rewrite E; now left).
    field_of 1 Hd L.
    apply (RegexFacts.lang_plus_inv false false Re.Dot) in L. now destruct L.
  - exists content. split; [ exact T | ]. intros C.
    destruct (Re.finditer false Patterns.doc_comment content) as [ | d l ] eqn:E;
      [ reflexivity | ].
    assert (Hd : In d (Re.finditer false Patterns.doc_comment content))
      by (rewrite E; now left).
    unfold Patterns.doc_comment in Hd. cbn [Re.seq] in Hd.
    apply finditer_needs_literal in Hd. congruence.
Qed.

Lemma middleware_witness :
  exists m,
    analyze_middleware auth_tree = Ok [m] /\
    mw_name m = "authMiddleware" /\
    mw_description m = "Checks the token of a request".
Proof.
  assert (E : analyze_middleware auth_tree
              = Ok [ mkMiddleware "authMiddleware" "middleware/authMiddleware.js"
                                  "Checks the token of a request" ])
    by (vm_compute; reflexivity).
  eexists. split; [ exact E | ].
  pose proof (middleware_one_per_file auth_tree _ _ eq_refl E) as H.
  inversion H as [ | ? ? ? ? (N & _) _ ]; subst.
  split; [ exact N | reflexivity ].
Defined.

(** ** File names, stems and the link from routes to controllers *)

Lemma rfind_dot_js (base : string) :
  rfind "." (base ++ ".js") = Some (String.length base).
Proof.
  induction base as [ | a base IH ]; [ reflexivity | ].
  cbn [append rfind String.length]. now rewrite IH.
Qed.

(** The stem of [base.js] is [base], dots in [base] included, as long as
    [base] is not empty. *)
Lemma stem_js (base : string) :
  base <> "" -> stem (base ++ ".js") = base.
Proof.
  intros N. unfold stem. rewrite rfind_dot_js, string_length_app.
  replace (0 <? String.length base)%nat with true
    by (symmetry; apply Nat.ltb_lt; destruct base; [ congruence | cbn; lia ]).
  replace (String.length base <? String.length base + String.length ".js" - 1)%nat
    with true by (symmetry; apply Nat.ltb_lt; cbn; lia).
  cbn [andb]. apply substring_prefix_app.
Qed.

Lemma app_not_empty (x y : string) : y <> "" -> x ++ y <> "".
Proof.
  destruct x; cbn; [ auto | discriminate ].
Qed.

(** With the usual file names the reference of a route resolves: every
    route of [xRoutes.js] names as its controller what the controllers pass
    calls the file [xController.js], provided [x] has no [Routes] in it. *)
Theorem route_controller_resolves (x content : string) r :
  Text.contains "Routes" x = false ->
  In r (routes_of_file (stem (x ++ "Routes.js")) content) ->
  controller r = x ++ "Controller" /\
  controller r = stem (x ++ "Controller.js").
Proof.
  intros Hx H.
  change (x ++ "Routes.js") with (x ++ "Routes" ++ ".js") in H.
  change (x ++ "Controller.js") with (x ++ "Controller" ++ ".js").
  rewrite <- JsonFacts.append_assoc in H. rewrite <- JsonFacts.append_assoc.
  rewrite stem_js in H by (apply app_not_empty; discriminate).
  rewrite stem_js by (apply app_not_empty; discriminate).
  destruct (in_routes_of_file _ _ _ H) as [m ->].
  cbn [controller route_of_match]. unfold Text.replace.
  rewrite replace_from_suffix by exact Hx. auto.
Qed.

Lemma route_controller_witness :
  exists r, analyze_routes auth_tree = Ok [r] /\
            controller r = stem "authController.js".
Proof.
  assert (E : analyze_routes auth_tree
              = Ok [ mkRoute "POST" "/auth/login" "AuthController.login" []
                             "authController" ])
    by (vm_compute; reflexivity).
  eexists. split; [ exact E | ].
  apply (route_controller_resolves "auth"
           "fastify.post('/auth/login', AuthController.login)").
  - reflexivity.
  - vm_compute. left. reflexivity.
Defined.

(** ** The items of a middleware list *)

Lemma split_not_empty sep s : Text.split sep s <> [].
Proof.
  destruct s as [ | a s ]; cbn [Text.split]; [ discriminate | ].
  destruct (Ascii.eqb a sep); [ discriminate | ].
  destruct (Text.split sep s); discriminate.
Qed.

Lemma split_keeps (p : ascii -> bool) sep s :
  Lang.all_chars p s = true ->
  Forall (fun x => Lang.all_chars p x = true) (Text.split sep s).
Proof.
  induction s as [ | a s IH ]; cbn [Text.split Lang.all_chars]; intros H.
  - repeat constructor.
  - apply andb_true_iff in H. destruct H as [Ha Hs]. specialize (IH Hs).
    destruct (Ascii.eqb a sep); [ constructor; [ reflexivity | exact IH ] | ].
    destruct (Text.split sep s) as [ | h t ].
    + constructor; [ cbn; now rewrite Ha | constructor ].
    + inversion IH; subst. constructor; [ cbn; now rewrite Ha | assumption ].
Qed.

Lemma split_drops_separator sep s :
  Forall (fun x => Lang.all_chars (fun a => negb (Ascii.eqb a sep)) x = true)
         (Text.split sep s).
Proof.
  induction s as [ | a s IH ]; cbn [Text.split].
  - repeat constructor.
  - destruct (Ascii.eqb a sep) eqn:E; [ constructor; [ reflexivity | exact IH ] | ].
    destruct (Text.split sep s) as [ | h t ].
    + constructor; [ cbn; now rewrite E | constructor ].
    + inversion IH; subst. constructor; [ cbn; now rewrite E | assumption ].
Qed.

Lemma lstrip_keeps p s :
  Lang.all_chars p s = true -> Lang.all_chars p (Text.lstrip s) = true.
Proof.
  induction s as [ | a s IH ]; cbn [Text.lstrip]; [ auto | ]. intros H.
  destruct (Text.is_space a); [ | exact H ].
  cbn in H. apply andb_true_iff in H. now apply IH.
Qed.

Lemma rstrip_keeps p s :
  Lang.all_chars p s = true -> Lang.all_chars p (Text.rstrip s) = true.
Proof.
  induction s as [ | a s IH ]; cbn [Text.rstrip]; [ auto | ]. intros H.
  cbn in H. apply andb_true_iff in H. destruct H as [Ha Hs].
  specialize (IH Hs).
  destruct (Text.rstrip s) as [ | b r ].
  - destruct (Text.is_space a); [ reflexivity | cbn; now rewrite Ha ].
  - change (Lang.all_chars p (String a (String b r)))
      with (p a && Lang.all_chars p (String b r)).
    now rewrite Ha, IH.
Qed.

Lemma strip_keeps p s :
  Lang.all_chars p s = true -> Lang.all_chars p (Text.strip s) = true.
Proof.
  intros H. unfold Text.strip. now apply rstrip_keeps, lstrip_keeps.
Qed.

Lemma lstrip_trimmed s : trimmed_left (Text.lstrip s).
Proof.
  induction s as [ | a s IH ]; cbn [Text.lstrip]; [ exact I | ].
  destruct (Text.is_space a) eqn:E; [ exact IH | exact E ].
Qed.

Lemma lstrip_fixed s : trimmed_left s -> Text.lstrip s = s.
Proof.
  destruct s as [ | a s ]; cbn; [ reflexivity | ]. now intros ->.
Qed.

Lemma rstrip_trimmed s : trimmed_left s -> trimmed_left (Text.rstrip s).
Proof.
  destruct s as [ | a s ]; cbn [Text.rstrip trimmed_left]; [ auto | ].
  intros E. destruct (Text.rstrip s); [ now rewrite E | exact E ].
Qed.

Lemma rstrip_cons a s :
  Text.rstrip (String a s)
  = match Text.rstrip s with
    | EmptyString =>
        if Text.is_space a then EmptyString else String a EmptyString
    | String b r => String a (String b r)
    end.
Proof. reflexivity. Qed.

Lemma rstrip_idempotent s : Text.rstrip (Text.rstrip s) = Text.rstrip s.
Proof.
  induction s as [ | a s IH ]; [ reflexivity | ].
  rewrite (rstrip_cons a s).
  destruct (Text.rstrip s) as [ | b r ] eqn:E.
  - destruct (Text.is_space a) eqn:S; [ reflexivity | ].
    cbn [Text.rstrip]. now rewrite S.
  - rewrite rstrip_cons, IH. reflexivity.
Qed.

(** Stripping what is stripped changes nothing. *)
Lemma strip_idempotent s : Text.strip (Text.strip s) = Text.strip s.
Proof.
  unfold Text.strip.
  rewrite (lstrip_fixed (Text.rstrip (Text.lstrip s)))
    by apply rstrip_trimmed, lstrip_trimmed.
  apply rstrip_idempotent.
Qed.

Lemma prehandler_list_has_no_newline content mw :
  In mw (prehandler_lists content) ->
  Lang.all_chars (fun a => negb (Ascii.eqb a Text.newline)) mw = true.
Proof.
  unfold prehandler_lists, Re.findall1. intros H.
  apply in_map_iff in H. destruct H as [m [<- Hm]].
  field_of 1 Hm L. inversion L; subst. assumption.
Qed.

(** Every middleware reference of a route is stripped of white space at
    both ends and has no comma and no line feed in it. *)
Theorem middleware_items_are_clean stem content r x :
  In r (routes_of_file stem content) ->
  In x (middleware r) ->
  Text.strip x = x /\
  Lang.all_chars (fun a => negb (Ascii.eqb a ",")) x = true /\
  Lang.all_chars (fun a => negb (Ascii.eqb a Text.newline)) x = true.
Proof.
  intros Hr Hx. destruct (in_routes_of_file _ _ _ Hr) as [m ->].
  cbn [middleware route_of_match] in Hx. unfold middleware_of in Hx.
  destruct (Text.contains "preHandler" content); [ | contradiction ].
  apply in_flat_map in Hx. destruct Hx as [mw [Hmw Hx]].
  unfold items in Hx. apply in_map_iff in Hx. destruct Hx as [y [<- Hy]].
  split; [ apply strip_idempotent | ]. split; apply strip_keeps.
  - pose proof (split_drops_separator "," mw) as F.
    rewrite Forall_forall in F. now apply F.
  - pose proof (split_keeps _ "," mw
                  (prehandler_list_has_no_newline _ _ Hmw)) as F.
    rewrite Forall_forall in F. now apply F.
Qed.

Lemma middleware_items_witness :
  Text.strip "admin" = "admin".
Proof.
  apply (middleware_items_are_clean "areaRoutes" two_routes_one_list
           (mkRoute "GET" "/areas" "list" ["auth"; "admin"] "areaController")
           "admin").
  - vm_compute. left. reflexivity.
  - right. left. reflexivity.
Defined.

(** The routes of a file have no middleware exactly when the middleware
    pattern matches nowhere in the file: a match, even of an empty list,
    leaves at least one item. *)
Theorem no_middleware_iff_no_list stem content r :
  In r (routes_of_file stem content) ->
  (middleware r = [] <-> prehandler_lists content = []).
Proof.
  intros Hr. destruct (in_routes_of_file _ _ _ Hr) as [m ->].
  cbn [middleware route_of_match]. split.
  - intros H. destruct (prehandler_lists content) as [ | mw l ] eqn:E;
      [ reflexivity | exfalso ].
    assert (M : Text.contains "preHandler" content = true)
      by (apply (prehandler_match_has_marker content mw); rewrite E; now left).
    rewrite (middleware_of_marker _ M), E in H. cbn [flat_map] in H.
    apply app_eq_nil in H. destruct H as [H _].
    unfold items in H. apply map_eq_nil in H.
    now apply (split_not_empty "," mw).
  - intros H. unfold middleware_of. rewrite H.
    now destruct (Text.contains "preHandler" content).
Qed.

Lemma no_middleware_witness :
  prehandler_lists "fastify.get('/areas', AreaController.list)" = [].
Proof.
  apply (no_middleware_iff_no_list "areaRoutes"
           "fastify.get('/areas', AreaController.list)"
           (mkRoute "GET" "/areas" "AreaController.list" [] "areaController")).
  - vm_compute. left. reflexivity.
  - reflexivity.
Defined.

(** ** The runs of the generator *)

(** For every dictionary and module name the generator returns, having
    made eleven directories and written twelve files, each once and each
    into a directory made before it, starting from nothing; the events do
    not depend on the dictionary. *)
Theorem generate_all_layout (d : list (string * Json.value)) (module_name : string) :
  let events := fst (generate_all (Json.Obj d) module_name) in
  snd (generate_all (Json.Obj d) module_name) = Ok tt /\
  dirs_made events = map in_output dirs /\
  files_written events
  = map in_output
      [ "go.mod"; "cmd/server/main.go"; "internal/config/config.go";
        "internal/database/database.go"; "internal/models/user.go";
        "internal/models/camera.go"; "internal/middleware/auth.go";
        "internal/handlers/auth.go"; "internal/routes/routes.go";
        "pkg/logger/logger.go"; "Dockerfile"; "Makefile" ] /\
  NoDup (files_written events) /\
  dirs_made_before_files [] events = true /\
  events = fst (generate_all (Json.Obj []) module_name).
Proof.
  cbv zeta.
  change (generate_all (Json.Obj d) module_name)
    with (generate_all (Json.Obj []) module_name).
  split; [ reflexivity | ].
  split; [ vm_compute; reflexivity | ].
  assert (F : files_written (fst (generate_all (Json.Obj []) module_name))
              = map in_output
                  [ "go.mod"; "cmd/server/main.go"; "internal/config/config.go";
                    "internal/database/database.go"; "internal/models/user.go";
                    "internal/models/camera.go"; "internal/middleware/auth.go";
                    "internal/handlers/auth.go"; "internal/routes/routes.go";
                    "pkg/logger/logger.go"; "Dockerfile"; "Makefile" ])
    by (vm_compute; reflexivity).
  split; [ exact F | ].
  split.
  - rewrite F. apply (NoDup_count_occ' string_dec). intros x Hx.
    repeat (destruct Hx as [ <- | Hx ]; [ vm_compute; reflexivity | ]).
    contradiction.
  - split; [ vm_compute; reflexivity | reflexivity ].
Qed.

(** When the analysis file holds a document that is not a dictionary, a
    list say, [main] raises in the middle of the generation: the
    directories and the first four files are there, the models and all that
    follows them are not, and no line says that the project was
    generated. *)
Theorem main_stops_midway_without_dictionary argv (fs : files) text analysis :
  fs analysis_file = Some (Some text) ->
  Json.loads text = Some analysis ->
  (forall d, analysis <> Json.Obj d) ->
  let events := fst (main argv fs) in
  snd (main argv fs) = Raised /\
  dirs_made events = map in_output dirs /\
  files_written events
  = map in_output
      [ "go.mod"; "cmd/server/main.go"; "internal/config/config.go";
        "internal/database/database.go" ] /\
  printed events
  = [ "🚀 Generating Golang project..."; "  ✓ Created directory structure";
      "  ✓ Generated go.mod"; "  ✓ Generated main.go";
      "  ✓ Generated config.go"; "  ✓ Generated database.go" ].
Proof.
  intros Hf Hl Hd. cbv zeta. unfold main, load_analysis. rewrite Hf, Hl.
  destruct analysis as [ | b | z | literal | s | items | d ];
    try (now elim (Hd d));
    repeat split; vm_compute; reflexivity.
Qed.

Lemma main_stops_midway_witness :
  let fs : files :=
    fun path => if String.eqb path analysis_file then Some (Some "[]") else None in
  snd (main ["generate_golang.py"] fs) = Raised.
Proof.
  cbv zeta.
  apply (main_stops_midway_without_dictionary ["generate_golang.py"]
           (fun path => if String.eqb path analysis_file
                        then Some (Some "[]") else None)
           "[]" (Json.Arr [])).
  - reflexivity.
  - reflexivity.
  - discriminate.
Defined.

(** ** Sorting, as [print_summary] does it *)

Section Sorting.

Variable A : Type.
Variable le : A -> A -> bool.
Hypothesis le_total : forall x y, le x y = true \/ le y x = true.
Hypothesis le_antisym : forall x y, le x y = true -> le y x = true -> x = y.
Hypothesis le_trans :
  forall x y z, le x y = true -> le y z = true -> le x z = true.



Lemma insert_two x y l :
  insert_sorted le x (y :: l)
  = if le x y then x :: y :: l else y :: insert_sorted le x l.
Proof. reflexivity. Qed.

Lemma insert_sorted_comm x y l :
  insert_sorted le x (insert_sorted le y l)
  = insert_sorted le y (insert_sorted le x l).
Proof.
  assert (Base : forall l0,
             (if le x y then x :: y :: l0 else y :: x :: l0)
             = (if le y x then y :: x :: l0 else x :: y :: l0)).
  { intros l0. destruct (le x y) eqn:Exy, (le y x) eqn:Eyx; try reflexivity.
    - now rewrite (le_antisym x y Exy Eyx).
    - destruct (le_total x y); congruence. }
  induction l as [ | z l IH ].
  - cbn [insert_sorted]. apply Base.
  - rewrite (insert_two y z l), (insert_two x z l).
    destruct (le y z) eqn:Eyz, (le x z) eqn:Exz.
    + rewrite (insert_two x y), (insert_two y x), !insert_two, Exz, Eyz.
      apply Base.
    + rewrite (insert_two x y), !insert_two, Exz, Eyz.
      destruct (le x y) eqn:Exy; [ | reflexivity ].
      rewrite (le_trans x y z Exy Eyz) in Exz. discriminate.
    + rewrite (insert_two y x), !insert_two, Exz, Eyz.
      destruct (le y x) eqn:Eyx; [ | reflexivity ].
      rewrite (le_trans y x z Eyx Exz) in Eyz. discriminate.
    + rewrite !insert_two, Exz, Eyz, IH. reflexivity.
Qed.

(** The sorted list depends on the elements only, not on their order. *)
Lemma sorted_permutation l l' :
  Permutation l l' -> sorted le l = sorted le l'.
Proof.
  induction 1 as [ | x l l' _ IH | x y l | l l' l'' _ IH1 _ IH2 ].
  - reflexivity.
  - cbn [sorted fold_right]. fold (sorted le l) (sorted le l'). now rewrite IH.
  - cbn [sorted fold_right]. apply insert_sorted_comm.
  - now rewrite IH1.
Qed.

End Sorting.

Lemma ascii_compare_N a b :
  Ascii.compare a b = N.compare (N_of_ascii a) (N_of_ascii b).
Proof. reflexivity. Qed.

Lemma string_leb_trans x y z :
  String.leb x y = true -> String.leb y z = true -> String.leb x z = true.
Proof.
  unfold String.leb. revert y z.
  induction x as [ | a x IH ]; intros [ | b y ] [ | c z ];
    cbn [String.compare]; try congruence.
  rewrite !ascii_compare_N.
  destruct (N.compare_spec (N_of_ascii a) (N_of_ascii b)) as [E1 | L1 | G1];
    destruct (N.compare_spec (N_of_ascii b) (N_of_ascii c)) as [E2 | L2 | G2];
    destruct (N.compare_spec (N_of_ascii a) (N_of_ascii c)) as [E3 | L3 | G3];
    try congruence; try lia.
  apply IH.
Qed.

(** Two lists with the same elements, each once, sort to the same list. *)
Lemma sorted_strings_of_set (l l' : list string) :
  NoDup l -> NoDup l' -> (forall x, In x l <-> In x l') ->
  sorted String.leb l = sorted String.leb l' /\
  List.length l = List.length l'.
Proof.
  intros N N' E.
  assert (P : Permutation l l') by now apply NoDup_Permutation.
  split; [ | now apply Permutation_length ].
  exact (sorted_permutation string String.leb String.leb_total
           String.leb_antisym string_leb_trans l l' P).
Qed.

(** ** The summary does not depend on the order of the sets *)

Lemma set_orders_agree (order order' : set_order) (l : list string) :
  sorted String.leb (order l) = sorted String.leb (order' l) /\
  List.length (order l) = List.length (order' l).
Proof.
  apply sorted_strings_of_set; try apply list_of_set_NoDup.
  intros x. now rewrite !list_of_set_In.
Qed.

(** The lines of a list of controllers or services show the names and the
    numbers of functions only. *)
Lemma first_five_shape {A : Type} (name : A -> string)
    (functions : A -> list string) (l l' : list A) :
  map (fun x => (name x, List.length (functions x))) l
  = map (fun x => (name x, List.length (functions x))) l' ->
  first_five name functions l = first_five name functions l' /\
  List.length l = List.length l'.
Proof.
  intros E.
  assert (L : List.length l = List.length l')
    by (apply (f_equal (@List.length _)) in E; now rewrite !length_map in E).
  split; [ | exact L ]. unfold first_five. rewrite L. f_equal.
  assert (M : map (fun x => entry_line (name x) (functions x)) l
              = map (fun x => entry_line (name x) (functions x)) l').
  { apply (f_equal (map (fun p => "   - " ++ fst p ++ " (" ++
                                   string_of_nat (snd p) ++ " functions)")))
      in E.
    rewrite !map_map in E. exact E. }
  rewrite <- !firstn_map. now rewrite M.
Qed.

Lemma flat_map_read_shape {B C : Type} (g g' : source_file -> string -> B)
    (shape : B -> C) (files : directory) :
  (forall f content, shape (g f content) = shape (g' f content)) ->
  map shape (flat_map (fun f => match file_text f with
                                | Some content => [g f content]
                                | None => []
                                end) files)
  = map shape (flat_map (fun f => match file_text f with
                                  | Some content => [g' f content]
                                  | None => []
                                  end) files).
Proof.
  intros E. induction files as [ | f files IH ]; cbn [flat_map];
    [ reflexivity | ].
  rewrite !map_app, IH. f_equal.
  destruct (file_text f); cbn [map]; [ now rewrite E | reflexivity ].
Qed.

Lemma controllers_shape order order' b cs cs' :
  analyze_controllers order b = Ok cs ->
  analyze_controllers order' b = Ok cs' ->
  map (fun c => (ctrl_name c, List.length (ctrl_functions c))) cs
  = map (fun c => (ctrl_name c, List.length (ctrl_functions c))) cs'.
Proof.
  unfold analyze_controllers. destruct (controllers_dir b) as [files | ].
  - intros H H'.
    apply (for_each_read_ok_inv
             (fun f content =>
                [ {| ctrl_name := stem (file_name f);
                     ctrl_file := "controllers/" ++ file_name f;
                     ctrl_functions :=
                       order (exported Patterns.controller_patterns content) |} ]))
      in H.
    apply (for_each_read_ok_inv
             (fun f content =>
                [ {| ctrl_name := stem (file_name f);
                     ctrl_file := "controllers/" ++ file_name f;
                     ctrl_functions :=
                       order' (exported Patterns.controller_patterns content) |} ]))
      in H'.
    subst cs cs'.
    apply (flat_map_read_shape
             (fun f content =>
                {| ctrl_name := stem (file_name f);
                   ctrl_file := "controllers/" ++ file_name f;
                   ctrl_functions :=
                     order (exported Patterns.controller_patterns content) |})
             (fun f content =>
                {| ctrl_name := stem (file_name f);
                   ctrl_file := "controllers/" ++ file_name f;
                   ctrl_functions :=
                     order' (exported Patterns.controller_patterns content) |})).
    intros f content. cbn. f_equal. apply set_orders_agree.
  - intros H H'. injection H as <-. injection H' as <-. reflexivity.
Qed.

Lemma services_shape order order' b ss ss' :
  analyze_services order b = Ok ss ->
  analyze_services order' b = Ok ss' ->
  map (fun s => (svc_name s, List.length (svc_functions s))) ss
  = map (fun s => (svc_name s, List.length (svc_functions s))) ss'.
Proof.
  unfold analyze_services. destruct (services_dir b) as [files | ].
  - intros H H'.
    apply (for_each_read_ok_inv
             (fun f content =>
                [ {| svc_name := stem (file_name f);
                     svc_file := "services/" ++ file_name f;
                     svc_functions :=
                       order (exported Patterns.service_patterns content) |} ]))
      in H.
    apply (for_each_read_ok_inv
             (fun f content =>
                [ {| svc_name := stem (file_name f);
                     svc_file := "services/" ++ file_name f;
                     svc_functions :=
                       order' (exported Patterns.service_patterns content) |} ]))
      in H'.
    subst ss ss'.
    apply (flat_map_read_shape
             (fun f content =>
                {| svc_name := stem (file_name f);
                   svc_file := "services/" ++ file_name f;
                   svc_functions :=
                     order (exported Patterns.service_patterns content) |})
             (fun f content =>
                {| svc_name := stem (file_name f);
                   svc_file := "services/" ++ file_name f;
                   svc_functions :=
                     order' (exported Patterns.service_patterns content) |})).
    intros f content. cbn. f_equal. apply set_orders_agree.
  - intros H H'. injection H as <-. injection H' as <-. reflexivity.
Qed.

Lemma tables_agree order order' b ts ts' :
  analyze_database_schema order b = Ok ts ->
  analyze_database_schema order' b = Ok ts' ->
  sorted String.leb ts = sorted String.leb ts' /\
  List.length ts = List.length ts'.
Proof.
  unfold analyze_database_schema. destruct (migrations_dir b) as [files | ].
  - destruct (collected_tables b files) as [all | ]; cbn [bind];
      [ | discriminate ].
    intros H H'. injection H as <-. injection H' as <-.
    apply set_orders_agree.
  - intros H H'. injection H as <-. injection H' as <-. auto.
Qed.

(** The summary that [print_summary] prints is the same whatever order the
    sets of exported names and of tables are listed in: it shows the
    lengths of the lists of names, and the tables sorted. *)
Theorem summary_independent_of_set_order order order' b r r' :
  analyze order b = Ok r ->
  analyze order' b = Ok r' ->
  print_summary r = print_summary r'.
Proof.
  intros H H'. apply analyze_ok_iff in H, H'.
  destruct H as (R & C & M & S & T & D).
  destruct H' as (R' & C' & M' & S' & T' & D').
  assert (Er : routes r = routes r') by congruence.
  assert (Em : middleware_list r = middleware_list r') by congruence.
  assert (Ed : dependencies r = dependencies r') by congruence.
  destruct (first_five_shape ctrl_name ctrl_functions _ _
              (controllers_shape _ _ _ _ _ C C')) as [Fc Lc].
  destruct (first_five_shape svc_name svc_functions _ _
              (services_shape _ _ _ _ _ S S')) as [Fs Ls].
  destruct (tables_agree _ _ _ _ _ T T') as [St Lt].
  unfold print_summary, summary_lines.
  now rewrite Er, Em, Ed, Fc, Lc, Fs, Ls, St, Lt.
Qed.

Lemma summary_witness :
  let r := mkAnalysisResult [] [] []
             [ mkService "queue" "services/queue.js" ["pop"; "push"] ]
             ["areas"; "users"] [] in
  let r' := mkAnalysisResult [] [] []
              [ mkService "queue" "services/queue.js" ["push"; "pop"] ]
              ["users"; "areas"] [] in
  analyze last_seen twice_tree = Ok r /\
  analyze first_seen twice_tree = Ok r' /\
  r <> r' /\
  print_summary r = print_summary r'.
Proof.
  cbv zeta.
  assert (E : analyze last_seen twice_tree
              = Ok (mkAnalysisResult [] [] []
                      [ mkService "queue" "services/queue.js" ["pop"; "push"] ]
                      ["areas"; "users"] []))
    by (vm_compute; reflexivity).
  assert (E' : analyze first_seen twice_tree
               = Ok (mkAnalysisResult [] [] []
                       [ mkService "queue" "services/queue.js" ["push"; "pop"] ]
                       ["users"; "areas"] []))
    by (vm_compute; reflexivity).
  split; [ exact E | ]. split; [ exact E' | ]. split; [ discriminate | ].
  exact (summary_independent_of_set_order last_seen first_seen twice_tree
           _ _ E E').
Defined.

(** ** The counts of the methods *)









(** ** The text of the intermediate artifact *)

Lemma all_chars_app p (s t : string) :
  Lang.all_chars p (s ++ t) = Lang.all_chars p s && Lang.all_chars p t.
Proof.
  induction s as [ | a s IH ]; cbn; [ reflexivity | ].
  now rewrite IH, andb_assoc.
Qed.

Lemma escape_char_plain c :
  Lang.all_chars is_plain (Json.escape_char c) = true.
Proof.
  destruct c as [[] [] [] [] [] [] [] []]; reflexivity.
Qed.

Lemma encode_string_plain s :
  Lang.all_chars is_plain (Json.encode_string s) = true.
Proof.
  unfold Json.encode_string. cbn [Lang.all_chars].
  change (is_plain Text.dquote) with true. cbn [andb].
  rewrite all_chars_app.
  replace (Lang.all_chars is_plain (Json.escape s)) with true; [ reflexivity | ].
  symmetry. induction s as [ | c s IH ]; cbn [Json.escape]; [ reflexivity | ].
  now rewrite all_chars_app, escape_char_plain, IH.
Qed.

Lemma newline_indent_plain level :
  Lang.all_chars is_plain (Json.newline_indent level) = true.
Proof.
  unfold Json.newline_indent. cbn [Lang.all_chars].
  change (is_plain Text.newline) with true. cbn [andb].
  induction (2 * level) as [ | n IH ]; [ reflexivity | exact IH ].
Qed.

Lemma items_tail_plain level l :
  Forall (fun y => forall lvl,
            Lang.all_chars is_plain (Json.dumps_at lvl y) = true) l ->
  Lang.all_chars is_plain (Json.items_tail level "" l) = true.
Proof.
  induction 1 as [ | y l Hy _ IH ]; cbn [Json.items_tail].
  - now rewrite all_chars_app, newline_indent_plain.
  - unfold Json.item_separator. cbn [append Lang.all_chars].
    now rewrite !all_chars_app, newline_indent_plain, Hy, IH.
Qed.

Lemma members_tail_plain level l :
  Forall (fun m => forall lvl,
            Lang.all_chars is_plain (Json.dumps_at lvl (snd m)) = true) l ->
  Lang.all_chars is_plain (Json.members_tail level "" l) = true.
Proof.
  induction 1 as [ | m l Hm _ IH ]; cbn [Json.members_tail].
  - now rewrite all_chars_app, newline_indent_plain.
  - unfold Json.item_separator. cbn [append Lang.all_chars].
    rewrite !all_chars_app, newline_indent_plain. cbn [Lang.all_chars andb].
    change (is_plain Text.dquote) with true. cbn [andb].
    rewrite all_chars_app. cbn [Lang.all_chars].
    change (is_plain Text.dquote) with true. cbn [andb].
    rewrite all_chars_app, Hm, IH, andb_true_r.
    pose proof (encode_string_plain (fst m)) as E.
    unfold Json.encode_string in E. cbn [Lang.all_chars] in E.
    rewrite all_chars_app in E.
    apply andb_true_iff in E. destruct E as [_ E].
    apply andb_true_iff in E. now destruct E.
Qed.

Lemma Forall_textual {A : Type} (f : A -> Json.value) (P : Json.value -> Prop)
    (l : list A) :
  Forall (fun x => Json.textual (f x) = true -> P (f x)) l ->
  forallb (fun x => Json.textual (f x)) l = true ->
  Forall (fun x => P (f x)) l.
Proof.
  induction 1 as [ | x l Hx _ IH ]; intros T; [ constructor | ].
  cbn [forallb] in T. apply andb_true_iff in T. destruct T as [Tx T].
  constructor; auto.
Qed.

Lemma dumps_at_plain v :
  Json.textual v = true ->
  forall level, Lang.all_chars is_plain (Json.dumps_at level v) = true.
Proof.
  induction v as [ | b | z | literal | s | items IH | members IH ]
    using Json.value_induction;
    intros T level; try discriminate T.
  - apply encode_string_plain.
  - apply (Forall_textual (fun x => x)
             (fun v => forall level,
                Lang.all_chars is_plain (Json.dumps_at level v) = true))
      in IH; [ | exact T ].
    destruct items as [ | x l ]; [ reflexivity | ].
    rewrite <- (JsonFacts.append_nil_r (Json.dumps_at level (Json.Arr (x :: l)))).
    rewrite JsonFacts.dumps_at_array. inversion IH as [ | ? ? Hx Hl ]; subst.
    cbn [append Lang.all_chars].
    now rewrite !all_chars_app, newline_indent_plain, Hx, items_tail_plain.
  - apply (Forall_textual snd
             (fun v => forall level,
                Lang.all_chars is_plain (Json.dumps_at level v) = true))
      in IH; [ | exact T ].
    destruct members as [ | m l ]; [ reflexivity | ].
    rewrite <- (JsonFacts.append_nil_r (Json.dumps_at level (Json.Obj (m :: l)))).
    rewrite JsonFacts.dumps_at_object. inversion IH as [ | ? ? Hm Hl ]; subst.
    cbn [append Lang.all_chars].
    rewrite !all_chars_app, newline_indent_plain. cbn [Lang.all_chars andb].
    change (is_plain Text.dquote) with true. cbn [andb].
    rewrite all_chars_app. cbn [Lang.all_chars].
    change (is_plain Text.dquote) with true. cbn [andb].
    rewrite all_chars_app, Hm, (members_tail_plain level l Hl), andb_true_r.
    pose proof (encode_string_plain (fst m)) as E.
    unfold Json.encode_string in E. cbn [Lang.all_chars] in E.
    rewrite all_chars_app in E.
    apply andb_true_iff in E. destruct E as [_ E].
    apply andb_true_iff in E. now destruct E.
Qed.

Lemma forallb_map_true {A B : Type} (f : B -> bool) (g : A -> B) (l : list A) :
  (forall x, f (g x) = true) -> forallb f (map g l) = true.
Proof.
  intros H. induction l as [ | x l IH ]; [ reflexivity | ].
  cbn [map forallb]. now rewrite H, IH.
Qed.

Lemma textual_strings l : Json.textual (strings l) = true.
Proof.
  unfold strings. cbn [Json.textual]. now apply forallb_map_true.
Qed.

Lemma textual_analysis_data r : Json.textual (analysis_data r) = true.
Proof.
  unfold analysis_data, dict_of_dependencies.
  cbn [Json.textual forallb snd].
  rewrite !textual_strings, !andb_true_r.
  repeat (apply andb_true_iff; split); try reflexivity;
    apply forallb_map_true; intros x; try reflexivity;
    cbn [asdict_route asdict_controller asdict_service
         Json.textual forallb snd];
    now rewrite !textual_strings.
Qed.

(** The text that [save_analysis] writes has printable ASCII characters
    and line feeds only, whatever characters the model holds: every other
    character is written as an escape. *)
Theorem saved_analysis_is_plain_text (r : AnalysisResult) :
  Lang.all_chars is_plain (save_analysis r) = true.
Proof.
  apply dumps_at_plain, textual_analysis_data.
Qed.

(** ** From the analyzer to the generator *)



Lemma written_app path a b :
  written path (a ++ b)%list
  = match written path b with
    | Some content => Some content
    | None => written path a
    end.
Proof.
  induction a as [ | e a IH ]; cbn [app written].
  - now destruct (written path b).
  - rewrite IH. now destruct (written path b).
Qed.


Lemma only_prints_app a b :
  only_prints (a ++ b)%list = only_prints a && only_prints b.
Proof. apply forallb_app. Qed.

Lemma only_prints_found there n what : only_prints (found there n what) = true.
Proof. now destruct there. Qed.


(** What the analyzer has printed up to a pass. *)
Lemma pass_raised {A : Type} (x : result A) line rest :
  (forall a, only_prints (line a) = true) ->
  (forall a, snd (rest a) = Raised -> only_prints (fst (rest a)) = true) ->
  snd (pass x line rest) = Raised ->
  only_prints (fst (pass x line rest)) = true.
Proof.
  intros L R. destruct x as [a | ]; cbn [pass raise fst snd]; [ | reflexivity ].
  intros H. now rewrite only_prints_app, L, R.
Qed.

Lemma pass_ok {A : Type} (x : result A) line rest a :
  x = Ok a ->
  pass x line rest = (List.app (line a) (fst (rest a)), snd (rest a)).
Proof. now intros ->. Qed.



Lemma analyzer_main_returns order b made r :
  analyze order b = Ok r ->
  exists before,
    only_prints before = true /\
    analyzer_main order b made
    = if existsb (String.eqb "migration-tools") made
      then ((before ++ print_summary r ++
             [ WriteText saved_to (save_analysis r);
               Print ("
✅ Analysis saved to " ++ saved_to) ])%list, Ok tt)
      else ((before ++ print_summary r)%list, Raised).
Proof.
  intros H. apply analyze_ok_iff in H.
  destruct H as (R & C & M & S & T & D).
  unfold analyzer_main.
  rewrite (pass_ok _ _ _ _ R), (pass_ok _ _ _ _ C), (pass_ok _ _ _ _ M),
    (pass_ok _ _ _ _ S), (pass_ok _ _ _ _ T), (pass_ok _ _ _ _ D).
  replace {| routes := routes r; controllers := controllers r;
             middleware_list := middleware_list r; services := services r;
             database_tables := database_tables r;
             dependencies := dependencies r |} with r by now destruct r.
  unfold write_text.
  change (parent saved_to) with "migration-tools".
  exists (Print "🔍 Analyzing backend structure..."
          :: found (exists_ (routes_dir b)) (List.length (routes r)) "routes"
          ++ found (exists_ (controllers_dir b))
                   (List.length (controllers r)) "controllers"
          ++ found (exists_ (middleware_dir b))
                   (List.length (middleware_list r)) "middleware"
          ++ found (exists_ (services_dir b))
                   (List.length (services r)) "services"
          ++ found (exists_ (migrations_dir b))
                   (List.length (database_tables r)) "database tables"
          ++ found (exists_ (package_json b))
                   (List.length (dependencies r)) "dependencies")%list.
  split.
  - cbn [only_prints forallb is_write negb andb].
    change (forallb (fun e => negb (is_write e))) with only_prints.
    now rewrite !only_prints_app, !only_prints_found.
  - destruct (existsb (String.eqb "migration-tools") made);
      cbn [fst snd emit and_then raise app];
      rewrite ?app_nil_r, <- ?app_assoc; reflexivity.
Qed.



(** The two programs run one after the other in the same working
    directory.  After a run of the analyzer that returns, the generator
    finds the artifact where it looks for it, loads the dictionary of the
    model, returns, and writes its twelve files. *)
Theorem generator_runs_after_analyzer order b made r argv (fs : files) :
  analyze order b = Ok r ->
  snd (analyzer_main order b made) = Ok tt ->
  NoDup (map fst (dependencies r)) ->
  let fs' := after fs (fst (analyzer_main order b made)) in
  load_analysis fs' = Some (analysis_data r) /\
  snd (main argv fs') = Ok tt /\
  List.length (files_written (fst (main argv fs'))) = 12 /\
  Forall (fun line => line <> "   Run analyze_backend.py first!")
         (printed (fst (main argv fs'))).
Proof.
  intros E R N. cbv zeta.
  destruct (analyzer_main_returns _ _ made _ E) as (before & Q & A).
  rewrite A in R |- *.
  destruct (existsb (String.eqb "migration-tools") made);
    [ clear R | discriminate R ].
  assert (F : after fs (fst ((before ++ print_summary r ++
                [ WriteText saved_to (save_analysis r);
                  Print ("
✅ Analysis saved to " ++ saved_to) ])%list, Ok tt)) analysis_file
              = Some (Some (save_analysis r))).
  { unfold after. cbn [fst]. rewrite !app_assoc, written_app. reflexivity. }
  assert (L : load_analysis (after fs (fst ((before ++ print_summary r ++
                [ WriteText saved_to (save_analysis r);
                  Print ("
✅ Analysis saved to " ++ saved_to) ])%list, Ok tt)))
              = Some (analysis_data r)).
  { unfold load_analysis. rewrite F.
    apply JsonFacts.loads_dumps, wf_analysis_data, N. }
  split; [ exact L | ].
  unfold main. rewrite F, L.
  change (generate_all (analysis_data r))
    with (generate_all (Json.Obj [])).
  destruct argv as [ | a [ | name argv ] ];
    repeat split; try (vm_compute; reflexivity);
    vm_compute; repeat (constructor; [ discriminate | ]); constructor.
Qed.

Lemma generator_runs_after_analyzer_witness :
  let fs' := after (fun _ => None)
                   (fst (analyzer_main last_seen tree_without_it
                           ["migration-tools"])) in
  snd (main ["generate_golang.py"] fs') = Ok tt.
Proof.
  cbv zeta.
  refine (proj1 (proj2
    (generator_runs_after_analyzer last_seen tree_without_it
       ["migration-tools"]
       (mkAnalysisResult
          [ mkRoute "GET" "/areas" "AreaController.list" [] "areaController" ]
          [ mkController "areaController" "controllers/areaController.js"
                         ["list"] ]
          [] [] [] [])
       ["generate_golang.py"] (fun _ => None) _ _ _))).
  - vm_compute. reflexivity.
  - vm_compute. reflexivity.
  - constructor.
Defined.

(** ** Routes in the two forms of the comments *)

Module RouteFacts.
Import Re.

Lemma rep_greedy_deeper ok (k : string -> outcome) t s o :
  Lang.all_chars ok t = true ->
  rep_greedy ok k s = Some o ->
  rep_greedy ok k (t ++ s) = Some o.
Proof.
  intros T K. induction t as [ | a t IH ]; [ exact K | ].
  cbn in T. apply andb_true_iff in T. destruct T as [Ha T].
  cbn [append rep_greedy]. now rewrite Ha, (IH T).
Qed.

Lemma rep_greedy_stop ok (k : string -> outcome) s o :
  match s with
  | EmptyString => True
  | String a _ => ok a = false
  end ->
  k s = Some o ->
  rep_greedy ok k s = Some o.
Proof.
  intros S K. destruct s as [ | a s ]; cbn [rep_greedy]; [ exact K | ].
  now rewrite S.
Qed.

Lemma rep_lazy_hit ok (k : string -> outcome) s o :
  k s = Some o -> rep_lazy ok k s = Some o.
Proof.
  intros K. destruct s; cbn [rep_lazy]; now rewrite K.
Qed.

Lemma run_plus_take ic cl t s c k o :
  t <> "" ->
  Lang.all_chars (accepts ic cl) t = true ->
  match s with
  | EmptyString => True
  | String a _ => accepts ic cl a = false
  end ->
  k s c = Some o ->
  run ic (plus true cl) (t ++ s) c k = Some o.
Proof.
  intros N T S K. destruct t as [ | a t ]; [ congruence | ].
  cbn in T. apply andb_true_iff in T. destruct T as [Ha T].
  unfold plus. cbn [run append]. rewrite Ha.
  apply rep_greedy_deeper; [ exact T | ].
  now apply (rep_greedy_stop _ (fun s' => k s' c)).
Qed.

Lemma run_str_app (w s : string) c k :
  run false (str w) (w ++ s) c k = k s c.
Proof.
  induction w as [ | a w IH ]; cbn [str run append accepts]; [ reflexivity | ].
  now rewrite Ascii.eqb_refl.
Qed.

Lemma run_alt_hit ic r1 r2 s c k o :
  run ic r1 s c k = Some o -> run ic (Alt r1 r2) s c k = Some o.
Proof. intros H. cbn [run]. now rewrite H. Qed.

Lemma run_alt_miss ic r1 r2 s c k :
  run ic r1 s c k = None -> run ic (Alt r1 r2) s c k = run ic r2 s c k.
Proof. intros H. cbn [run]. now rewrite H. Qed.

(** *** From the method to the path, whatever follows the path *)

Section AnyTail.

(** The text from the closing quote on, where the match ends, and the
    handler that the rest of the pattern finds in it. *)
Variables tail after h : string.
Hypothesis tail_starts_with_quote :
  match tail with
  | EmptyString => True
  | String a _ => is_quote a = true
  end.
Hypothesis tail_match :
  forall c, run false after_path tail c k0 = Some (after, (3, h) :: c).

Lemma path_match path c :
  path <> "" ->
  Lang.all_chars (fun a => negb (is_quote a)) path = true ->
  run false (Seq (Grp 2 (plus true Patterns.not_quote)) after_path)
    (path ++ tail) c k0
  = Some (after, (3, h) :: (2, path) :: c).
Proof.
  intros N Q. cbn [run].
  assert (E : forall a, accepts false Patterns.not_quote a = negb (is_quote a)).
  { intros a. unfold is_quote. cbn. now rewrite orb_false_r. }
  apply run_plus_take.
  - exact N.
  - rewrite <- Q. now apply all_chars_ext.
  - destruct tail as [ | a t ]; [ exact I | ].
    now rewrite E, tail_starts_with_quote.
  - rewrite RegexFacts.consumed_app. apply tail_match.
Qed.

Lemma method_match m path c :
  In m [ "get"; "post"; "put"; "delete"; "patch" ] ->
  path <> "" ->
  Lang.all_chars (fun a => negb (is_quote a)) path = true ->
  run false (seq [Grp 1 Patterns.http_method; Cls (Lit "("); Cls Patterns.quote;
                  Grp 2 (plus true Patterns.not_quote); Cls Patterns.quote;
                  Rep false Dot; Grp 3 fastify_handler])
    (m ++ "('" ++ path ++ tail) c k0
  = Some (after, (3, h) :: (2, path) :: (1, m) :: c).
Proof.
  intros M N Q.
  set (R := seq [Cls (Lit "("); Cls Patterns.quote;
                 Grp 2 (plus true Patterns.not_quote); Cls Patterns.quote;
                 Rep false Dot; Grp 3 fastify_handler]).
  set (S := "('" ++ path ++ tail).
  assert (K : forall w,
             run false (str w) (w ++ S) c
               (fun s' c' =>
                  run false R s' ((1, consumed (w ++ S) s') :: c') k0)
             = Some (after, (3, h) :: (2, path) :: (1, w) :: c)).
  { intros w. rewrite run_str_app, RegexFacts.consumed_app.
    exact (path_match path ((1, w) :: c) N Q). }
  change (run false Patterns.http_method (m ++ S) c
            (fun s' c' => run false R s' ((1, consumed (m ++ S) s') :: c') k0)
          = Some (after, (3, h) :: (2, path) :: (1, m) :: c)).
  unfold Patterns.http_method. cbn [alt].
  destruct M as [ <- | [ <- | [ <- | [ <- | [ <- | [] ] ] ] ] ];
    repeat (rewrite run_alt_miss by reflexivity);
    try apply run_alt_hit; apply K.
Qed.

Lemma route_match m path :
  In m [ "get"; "post"; "put"; "delete"; "patch" ] ->
  path <> "" ->
  Lang.all_chars (fun a => negb (is_quote a)) path = true ->
  match_here false Patterns.fastify_route (route_text m path tail)
  = Some (after, [ (3, h); (2, path); (1, m) ]).
Proof.
  intros M N Q. exact (method_match m path [] M N Q).
Qed.

Lemma first_route stem m path :
  In m [ "get"; "post"; "put"; "delete"; "patch" ] ->
  path <> "" ->
  Lang.all_chars (fun a => negb (is_quote a)) path = true ->
  exists others,
    routes_of_file stem (route_text m path tail)
    = {| method := Text.upper m;
         path := path;
         handler := h;
         middleware := middleware_of (route_text m path tail);
         controller := Text.replace "Routes" "Controller" stem |} :: others.
Proof.
  intros M N Q. pose proof (route_match m path M N Q) as H.
  assert (E : exists l,
             scan false Patterns.fastify_route 0 (route_text m path tail)
             = ((0, substring 0 (String.length (route_text m path tail)
                                 - String.length after)
                      (route_text m path tail))
                :: [ (3, h); (2, path); (1, m) ]) :: l).
  { destruct (route_text m path tail); cbn [scan]; rewrite H; eauto. }
  destruct E as [l E].
  unfold routes_of_file, Patterns.route_patterns, finditer.
  cbn [flat_map]. rewrite E. cbn [map app]. eexists. reflexivity.
Qed.

End AnyTail.

(** *** The options object *)

Lemma options_tail rest c :
  run false after_path (options_text rest) c k0
  = Some (": " ++ rest, (3, "preHandler") :: c).
Proof.
  change (run false after_path (options_text rest) c k0)
    with (Some (": " ++ rest,
          (3, consumed ("preHandler" ++ ": " ++ rest) (": " ++ rest)) :: c)).
  now rewrite RegexFacts.consumed_app.
Qed.

End RouteFacts.

(** For a route written with an options object that starts with
    [preHandler], the form the source gives for its first pattern, the
    lazy gap stops at the first word after the path: the handler recorded is
    the word [preHandler], whatever handler the source names after the
    options. *)
Theorem options_object_hides_handler stem m path rest :
  In m [ "get"; "post"; "put"; "delete"; "patch" ] ->
  path <> "" ->
  Lang.all_chars (fun a => negb (is_quote a)) path = true ->
  exists others,
    routes_of_file stem (route_with_options m path rest)
    = {| method := Text.upper m;
         path := path;
         handler := "preHandler";
         middleware := middleware_of (route_with_options m path rest);
         controller := Text.replace "Routes" "Controller" stem |} :: others.
Proof.
  intros M N Q.
  exact (RouteFacts.first_route (options_text rest) (": " ++ rest) "preHandler"
           eq_refl (RouteFacts.options_tail rest) stem m path M N Q).
Qed.

Lemma options_object_witness :
  exists others,
    routes_of_file "areaRoutes"
      "fastify.post('/areas', { preHandler: [auth] }, AreaController.create)"
    = mkRoute "POST" "/areas" "preHandler" ["auth"] "areaController" :: others.
Proof.
  destruct (options_object_hides_handler "areaRoutes" "post" "/areas"
              "[auth] }, AreaController.create)") as [others E].
  - right. left. reflexivity.
  - discriminate.
  - reflexivity.
  - exists others. exact E.
Defined.

(** *** The plain form *)
Module PlainFacts.
Import Re.

Lemma first_stop (p : ascii -> bool) u w a b s1 s2 :
  Lang.all_chars p u = true -> Lang.all_chars p w = true ->
  p a = false -> p b = false ->
  u ++ String a s1 = w ++ String b s2 -> a = b.
Proof.
  revert w. induction u as [ | x u IH ]; intros [ | y w ] U W A B E;
    cbn in *.
  - now injection E.
  - injection E as -> _. apply andb_true_iff in W. destruct W. congruence.
  - injection E as -> _. apply andb_true_iff in U. destruct U. congruence.
  - injection E as _ E. apply andb_true_iff in U, W.
    destruct U, W. now apply (IH w).
Qed.

Lemma identifier_chars h :
  Lang.is_identifier h = true ->
  h <> "" /\ Lang.all_chars Text.is_word h = true.
Proof.
  destruct h; cbn [Lang.is_identifier]; [ discriminate | ].
  intros H. split; [ discriminate | exact H ].
Qed.

(** The longer alternative fails on an identifier before a parenthesis. *)
Lemma qualified_misses h rest c k :
  Lang.is_identifier h = true ->
  run false (seq [plus true Word; str "Controller"; Cls (Lit ".");
                  plus true Word])
    (h ++ ")" ++ rest) c k = None.
Proof.
  intros H. destruct (identifier_chars h H) as [_ W].
  destruct (run false _ (h ++ ")" ++ rest) c k) as [o | ] eqn:E;
    [ exfalso | reflexivity ].
  apply RegexFacts.run_sound in E.
  destruct E as (t & s' & c' & E & L & _).
  cbn [seq] in L.
  apply lang_seq_inv in L. destruct L as (x & t2 & -> & Lx & L).
  apply (RegexFacts.lang_plus_inv false true Word) in Lx.
  destruct Lx as [_ Wx].
  apply lang_seq_inv in L. destruct L as (w & t3 & -> & Lw & L).
  apply (RegexFacts.lang_str_inv "Controller") in Lw. subst w.
  apply lang_seq_inv in L. destruct L as (d & t4 & -> & Ld & L).
  inversion Ld as [ | ? a A | | | | | ]; subst.
  cbn in A. apply Ascii.eqb_eq in A. subst a.
  rewrite !JsonFacts.append_assoc in E.
  rewrite <- (JsonFacts.append_assoc x "Controller") in E.
  cbn [append] in E.
  assert (X : ")"%char = "."%char).
  { eapply (first_stop Text.is_word h (x ++ "Controller")); try exact E;
      try reflexivity; [ exact W | ].
    rewrite all_chars_app.
    rewrite (all_chars_ext Text.is_word (accepts false Word) x)
      by reflexivity.
    now rewrite Wx. }
  discriminate.
Qed.

(** The handler in either shape, before a closing parenthesis. *)
Lemma handler_match h rest c k o :
  handler_symbol h ->
  k (")" ++ rest) ((3, h) :: c) = Some o ->
  run false (Grp 3 fastify_handler) (h ++ ")" ++ rest) c k = Some o.
Proof.
  intros [ H | (x & y & -> & Hx & Hy) ] K; cbn [run]; unfold fastify_handler.
  - rewrite RouteFacts.run_alt_miss by now apply qualified_misses.
    destruct (identifier_chars h H) as [N W].
    apply RouteFacts.run_plus_take; try assumption; try reflexivity.
    now rewrite RegexFacts.consumed_app.
  - apply RouteFacts.run_alt_hit.
    destruct (identifier_chars x Hx) as [Nx Wx].
    destruct (identifier_chars y Hy) as [Ny Wy].
    set (K' := fun (s' : string) (c' : captures) =>
                 k s' ((3, consumed ((x ++ "Controller." ++ y) ++ ")" ++ rest) s')
                       :: c')).
    assert (KS : K' (")" ++ rest) c = Some o)
      by (unfold K'; now rewrite RegexFacts.consumed_app).
    clearbody K'.
    replace ((x ++ "Controller." ++ y) ++ ")" ++ rest)
      with (x ++ "Controller" ++ String "." (y ++ ")" ++ rest))
      by (now rewrite !JsonFacts.append_assoc).
    destruct x as [ | a x ]; [ congruence | ].
    cbn in Wx. apply andb_true_iff in Wx. destruct Wx as [Wa Wx].
    change (String a x ++ "Controller" ++ String "." (y ++ ")" ++ rest))
      with (String a (x ++ "Controller" ++ String "." (y ++ ")" ++ rest))).
    cbn [seq]. cbn [run plus].
    change (accepts false Word a) with (Text.is_word a). rewrite Wa.
    apply RouteFacts.rep_greedy_deeper; [ exact Wx | ].
    match goal with
    | |- rep_greedy ?ok ?k1 ?s = _ => change (rep_greedy ok k1 s) with (k1 s)
    end.
    cbv beta. rewrite RouteFacts.run_str_app.
    change (run false (plus true Word) (y ++ ")" ++ rest) c K' = Some o).
    apply RouteFacts.run_plus_take; try assumption; try reflexivity.
Qed.

(** The text after the path of a plain route. *)
Lemma plain_tail h rest c :
  handler_symbol h ->
  run false after_path (plain_text h rest) c k0
  = Some (")" ++ rest, (3, h) :: c).
Proof.
  intros H.
  change (run false after_path (plain_text h rest) c k0)
    with (rep_lazy (accepts false Dot)
            (fun s' => run false (Grp 3 fastify_handler) s' c k0)
            (String "," (String " " (h ++ ")" ++ rest)))).
  change (rep_lazy (accepts false Dot)
            (fun s' => run false (Grp 3 fastify_handler) s' c k0)
            (String "," (String " " (h ++ ")" ++ rest))))
    with (rep_lazy (accepts false Dot)
            (fun s' => run false (Grp 3 fastify_handler) s' c k0)
            (h ++ ")" ++ rest)).
  apply RouteFacts.rep_lazy_hit. now apply handler_match.
Qed.

End PlainFacts.

(** For a route written in the plain form, the second form the source
    gives, with a handler that is an identifier or two identifiers around
    [Controller.], the first route of the file has the method in upper
    case, the path and the handler as written. *)
Theorem plain_route_keeps_handler stem m path h rest :
  In m [ "get"; "post"; "put"; "delete"; "patch" ] ->
  path <> "" ->
  Lang.all_chars (fun a => negb (is_quote a)) path = true ->
  handler_symbol h ->
  exists others,
    routes_of_file stem (plain_route m path h rest)
    = {| method := Text.upper m;
         path := path;
         handler := h;
         middleware := middleware_of (plain_route m path h rest);
         controller := Text.replace "Routes" "Controller" stem |} :: others.
Proof.
  intros M N Q H.
  exact (RouteFacts.first_route (plain_text h rest) (")" ++ rest) h
           eq_refl (fun c => PlainFacts.plain_tail h rest c H)
           stem m path M N Q).
Qed.

Lemma plain_route_witness :
  exists others,
    routes_of_file "areaRoutes"
      "fastify.delete('/areas/:id', AreaController.remove)"
    = mkRoute "DELETE" "/areas/:id" "AreaController.remove" []
              "areaController" :: others.
Proof.
  destruct (plain_route_keeps_handler "areaRoutes" "delete" "/areas/:id"
              "AreaController.remove" "") as [others E].
  - do 3 right. left. reflexivity.
  - discriminate.
  - reflexivity.
  - right. exists "Area", "remove". repeat split.
  - exists others. exact E.
Defined.

(** ** The middleware lists of a file, read off its text *)

Lemma split_no_separator sep s :
  Lang.all_chars (fun a => negb (Ascii.eqb a sep)) s = true ->
  Text.split sep s = [s].
Proof.
  induction s as [ | a s IH ]; cbn [Text.split Lang.all_chars]; intros H;
    [ reflexivity | ].
  apply andb_true_iff in H. destruct H as [Ha Hs].
  apply negb_true_iff in Ha. rewrite Ha, (IH Hs). reflexivity.
Qed.

Lemma split_at_separator sep x y :
  Lang.all_chars (fun a => negb (Ascii.eqb a sep)) x = true ->
  Text.split sep (x ++ String sep y) = x :: Text.split sep y.
Proof.
  induction x as [ | a x IH ]; cbn [append Text.split Lang.all_chars]; intros H.
  - now rewrite Ascii.eqb_refl.
  - apply andb_true_iff in H. destruct H as [Ha Hx].
    apply negb_true_iff in Ha. rewrite Ha, (IH Hx). reflexivity.
Qed.

Lemma split_between (l : list string) :
  l <> [] ->
  Forall (fun x => Lang.all_chars (fun a => negb (Ascii.eqb a ",")) x = true) l ->
  Text.split "," (String.concat "," l) = l.
Proof.
  induction l as [ | x l IH ]; intros N H; [ congruence | ].
  inversion H as [ | ? ? Hx Hl ]; subst.
  destruct l as [ | y l ].
  - cbn [String.concat]. now apply split_no_separator.
  - change (String.concat "," (x :: y :: l))
      with (x ++ String "," (String.concat "," (y :: l))).
    rewrite split_at_separator by exact Hx.
    rewrite IH; [ reflexivity | discriminate | exact Hl ].
Qed.

Lemma all_chars_impl (p q : ascii -> bool) s :
  (forall a, p a = true -> q a = true) ->
  Lang.all_chars p s = true -> Lang.all_chars q s = true.
Proof.
  intros I. induction s as [ | a s IH ]; cbn [Lang.all_chars]; [ auto | ].
  intros H. apply andb_true_iff in H. destruct H as [Ha Hs].
  now rewrite (I a Ha), (IH Hs).
Qed.

Lemma space_is_no_comma a :
  Text.is_space a = true -> negb (Ascii.eqb a ",") = true.
Proof.
  intros H. destruct (Ascii.eqb a ",") eqn:E; [ | reflexivity ].
  apply Ascii.eqb_eq in E. subst a. discriminate H.
Qed.

Lemma lstrip_lead lead s :
  Lang.all_chars Text.is_space lead = true ->
  Text.lstrip (lead ++ s) = Text.lstrip s.
Proof.
  induction lead as [ | a lead IH ]; cbn [Lang.all_chars append Text.lstrip];
    [ reflexivity | ].
  intros H. apply andb_true_iff in H. destruct H as [Ha Hl].
  now rewrite Ha, (IH Hl).
Qed.

Lemma rstrip_blank t :
  Lang.all_chars Text.is_space t = true -> Text.rstrip t = "".
Proof.
  induction t as [ | a t IH ]; [ reflexivity | ].
  cbn [Lang.all_chars]. intros H. apply andb_true_iff in H.
  destruct H as [Ha Ht]. rewrite rstrip_cons, (IH Ht), Ha. reflexivity.
Qed.

Lemma rstrip_trail s t :
  Lang.all_chars Text.is_space t = true ->
  Text.rstrip (s ++ t) = Text.rstrip s.
Proof.
  intros H. induction s as [ | a s IH ].
  - cbn [append]. now rewrite rstrip_blank.
  - change (String a s ++ t) with (String a (s ++ t)).
    now rewrite !rstrip_cons, IH.
Qed.

Lemma rstrip_trimmed_end s : ends_trimmed s = true -> Text.rstrip s = s.
Proof.
  induction s as [ | a s IH ]; [ reflexivity | ].
  intros H. rewrite rstrip_cons. destruct s as [ | b s ].
  - cbn in H. apply negb_true_iff in H. cbn [Text.rstrip]. now rewrite H.
  - change (ends_trimmed (String b s) = true) in H. now rewrite (IH H).
Qed.

(** Stripping gives the item back from its text in the file. *)
Lemma strip_item_text w :
  item_ok w = true -> Text.strip (item_text w) = item w.
Proof.
  unfold item_ok, item_text, Text.strip. intros H.
  repeat (apply andb_true_iff in H; destruct H as [H ?]).
  rewrite lstrip_lead by assumption.
  destruct (item w) as [ | a s ] eqn:E.
  - cbn [append]. rewrite <- (JsonFacts.append_nil_r (trail w)) at 1.
    rewrite lstrip_lead by assumption. reflexivity.
  - rewrite lstrip_fixed.
    + rewrite rstrip_trail by assumption. now apply rstrip_trimmed_end.
    + cbn. match goal with S : starts_trimmed _ = true |- _ =>
        cbn in S; now apply negb_true_iff in S end.
Qed.

Lemma item_text_has_no_comma w :
  item_ok w = true ->
  Lang.all_chars (fun a => negb (Ascii.eqb a ",")) (item_text w) = true.
Proof.
  unfold item_ok, item_text. intros H.
  repeat (apply andb_true_iff in H; destruct H as [H ?]).
  rewrite !all_chars_app.
  rewrite (all_chars_impl _ _ (lead w) space_is_no_comma) by assumption.
  rewrite (all_chars_impl _ _ (trail w) space_is_no_comma) by assumption.
  now rewrite andb_true_r.
Qed.

(** The items of a list, read off the text between its brackets. *)
Lemma items_of_list_body (ws : list written_item) :
  ws <> [] ->
  forallb item_ok ws = true ->
  items (list_body ws) = map item ws.
Proof.
  intros N H. unfold items, list_body.
  rewrite forallb_forall in H.
  rewrite split_between.
  - rewrite map_map. apply map_ext_in. intros w Hw.
    now apply strip_item_text, H.
  - destruct ws; [ congruence | discriminate ].
  - apply Forall_forall. intros x Hx. apply in_map_iff in Hx.
    destruct Hx as [w [<- Hw]]. now apply item_text_has_no_comma, H.
Qed.

Module ListFacts.
Import Re.

(** No occurrence of the marker with its colon can start before a marker
    and end in it: none of its other characters is its first one. *)
Lemma marker_does_not_straddle (u t : string) :
  u <> "" ->
  prefix "preHandler" u = false ->
  prefix "preHandler:" (u ++ "preHandler:" ++ t) = false.
Proof.
  intros Hne H.
  destruct u as [ | c1 u ]; [ congruence | clear Hne ].
  cbn [append prefix] in *.
  destruct (ascii_dec "p" c1); [ subst c1 | reflexivity ].
  destruct u as [ | c2 u ]; [ reflexivity | ]. cbn [append prefix] in *.
  destruct (ascii_dec "r" c2); [ subst c2 | reflexivity ].
  destruct u as [ | c3 u ]; [ reflexivity | ]. cbn [append prefix] in *.
  destruct (ascii_dec "e" c3); [ subst c3 | reflexivity ].
  destruct u as [ | c4 u ]; [ reflexivity | ]. cbn [append prefix] in *.
  destruct (ascii_dec "H" c4); [ subst c4 | reflexivity ].
  destruct u as [ | c5 u ]; [ reflexivity | ]. cbn [append prefix] in *.
  destruct (ascii_dec "a" c5); [ subst c5 | reflexivity ].
  destruct u as [ | c6 u ]; [ reflexivity | ]. cbn [append prefix] in *.
  destruct (ascii_dec "n" c6); [ subst c6 | reflexivity ].
  destruct u as [ | c7 u ]; [ reflexivity | ]. cbn [append prefix] in *.
  destruct (ascii_dec "d" c7); [ subst c7 | reflexivity ].
  destruct u as [ | c8 u ]; [ reflexivity | ]. cbn [append prefix] in *.
  destruct (ascii_dec "l" c8); [ subst c8 | reflexivity ].
  destruct u as [ | c9 u ]; [ reflexivity | ]. cbn [append prefix] in *.
  destruct (ascii_dec "e" c9); [ subst c9 | reflexivity ].
  destruct u as [ | c10 u ]; [ reflexivity | ]. cbn [append prefix] in *.
  destruct (ascii_dec "r" c10); [ subst c10 | reflexivity ].
  destruct u; discriminate.
Qed.

Lemma miss_without_marker s :
  prefix "preHandler:" s = false ->
  match_here false Patterns.prehandler_list s = None.
Proof.
  intros H.
  destruct (match_here false Patterns.prehandler_list s) as [o | ] eqn:E;
    [ | reflexivity ].
  unfold match_here, Patterns.prehandler_list in E. cbn [seq] in E.
  apply run_seq_str_inv in E. destruct E as [s' ->].
  rewrite prefix_app in H. discriminate.
Qed.

(** The scan finds nothing before the first marker. *)
Lemma scan_to_marker text t :
  Text.contains "preHandler" text = false ->
  scan false Patterns.prehandler_list 0 (text ++ "preHandler:" ++ t)
  = scan false Patterns.prehandler_list 0 ("preHandler:" ++ t).
Proof.
  induction text as [ | a text IH ]; intros H; [ reflexivity | ].
  cbn [Text.contains] in H. apply orb_false_iff in H. destruct H as [Hp Hc].
  change (String a text ++ "preHandler:" ++ t)
    with (String a (text ++ "preHandler:" ++ t)).
  cbn [scan].
  change (String a (text ++ "preHandler:" ++ t))
    with (String a text ++ "preHandler:" ++ t).
  rewrite miss_without_marker
    by (apply marker_does_not_straddle; [ discriminate | exact Hp ]).
  now apply IH.
Qed.

Lemma scan_skip ic r u rest :
  scan ic r (String.length u) (u ++ rest) = scan ic r 0 rest.
Proof.
  induction u as [ | a u IH ]; [ reflexivity | exact IH ].
Qed.

(** A match at the start of the text, and the scan after it. *)
Lemma scan_hit ic r m rest c :
  m <> "" ->
  match_here ic r (m ++ rest) = Some (rest, c) ->
  scan ic r 0 (m ++ rest) = ((0, m) :: c) :: scan ic r 0 rest.
Proof.
  intros N H. destruct m as [ | a m ]; [ congruence | ].
  change (String a m ++ rest) with (String a (m ++ rest)) in *.
  cbn [scan]. rewrite H.
  cbn [String.length]. rewrite string_length_app.
  replace (S (String.length m + String.length rest) - String.length rest)
    with (S (String.length m)) by lia.
  cbn [substring pred]. now rewrite substring_prefix_app, scan_skip.
Qed.

(** The lazy run goes on to the first closing bracket of the line. *)
Lemma lazy_to_bracket (k : string -> outcome) body s :
  one_line body = true ->
  (forall a t, Ascii.eqb a "]" = false -> k (String a t) = None) ->
  rep_lazy (accepts false Dot) k (body ++ s)
  = rep_lazy (accepts false Dot) k s.
Proof.
  intros L K. induction body as [ | a body IH ]; [ reflexivity | ].
  unfold one_line in L. cbn [Lang.all_chars] in L.
  apply andb_true_iff in L. destruct L as [La L].
  apply andb_true_iff in La. destruct La as [Hn Hb].
  apply negb_true_iff in Hb.
  change (String a body ++ s) with (String a (body ++ s)).
  cbn [rep_lazy]. rewrite (K a _ Hb).
  cbn [accepts]. rewrite Hn. now apply IH.
Qed.

(** The match of a list on one line. *)
Lemma list_match gap body rest :
  Lang.all_chars Text.is_space gap = true ->
  one_line body = true ->
  match_here false Patterns.prehandler_list
    (("preHandler:" ++ gap ++ "[" ++ body ++ "]") ++ rest)
  = Some (rest, [(1, body)]).
Proof.
  intros G L.
  rewrite !JsonFacts.append_assoc.
  unfold match_here, Patterns.prehandler_list. cbn [seq]. cbn [run].
  rewrite RouteFacts.run_str_app. cbn [run].
  apply RouteFacts.rep_greedy_deeper; [ exact G | ].
  apply RouteFacts.rep_greedy_stop; [ reflexivity | ].
  cbn [append accepts]. rewrite Ascii.eqb_refl.
  rewrite lazy_to_bracket.
  - apply RouteFacts.rep_lazy_hit. cbn [append accepts].
    rewrite Ascii.eqb_refl.
    change (String "]" rest) with ("]" ++ rest).
    now rewrite RegexFacts.consumed_app.
  - exact L.
  - intros a t Ha. cbn [accepts]. now rewrite Ha.
Qed.

End ListFacts.

Lemma prehandler_lists_none s :
  Text.contains "preHandler" s = false -> prehandler_lists s = [].
Proof.
  intros H. destruct (prehandler_lists s) as [ | mw l ] eqn:E; [ reflexivity | ].
  rewrite (prehandler_match_has_marker s mw) in H; [ discriminate | ].
  rewrite E. now left.
Qed.

(** The middleware of a file is made of the lists that the pattern finds,
    marker or no marker. *)
Lemma middleware_of_lists content :
  middleware_of content = flat_map items (prehandler_lists content).
Proof.
  unfold middleware_of.
  destruct (Text.contains "preHandler" content) eqn:E; [ reflexivity | ].
  now rewrite prehandler_lists_none.
Qed.

(** The first list of a file, and the lists after it. *)
Lemma prehandler_lists_first text gap body rest :
  Text.contains "preHandler" text = false ->
  Lang.all_chars Text.is_space gap = true ->
  one_line body = true ->
  prehandler_lists ((text ++ "preHandler:" ++ gap ++ "[" ++ body ++ "]") ++ rest)
  = body :: prehandler_lists rest.
Proof.
  intros T G L. unfold prehandler_lists, Re.findall1, Re.finditer.
  replace ((text ++ "preHandler:" ++ gap ++ "[" ++ body ++ "]") ++ rest)
    with (text ++ "preHandler:" ++ (gap ++ "[" ++ body ++ "]") ++ rest)
    by (now rewrite !JsonFacts.append_assoc).
  rewrite ListFacts.scan_to_marker by exact T.
  replace ("preHandler:" ++ (gap ++ "[" ++ body ++ "]") ++ rest)
    with (("preHandler:" ++ gap ++ "[" ++ body ++ "]") ++ rest)
    by (now rewrite !JsonFacts.append_assoc).
  rewrite (ListFacts.scan_hit false _ _ rest [(1, body)]).
  - reflexivity.
  - discriminate.
  - now apply ListFacts.list_match.
Qed.

Lemma list_ok_parts l :
  list_ok l = true ->
  Text.contains "preHandler" (before l) = false /\
  Lang.all_chars Text.is_space (gap l) = true /\
  members l <> [] /\
  forallb item_ok (members l) = true /\
  one_line (list_body (members l)) = true.
Proof.
  unfold list_ok. intros H.
  repeat (apply andb_true_iff in H; destruct H as [H ?]).
  apply negb_true_iff in H.
  repeat split; try assumption.
  destruct (members l); [ discriminate | discriminate ].
Qed.

(** The lists that the pattern finds in a file of lists on one line are
    the lists of the file, in order. *)
Lemma prehandler_lists_of_file lists tail :
  forallb list_ok lists = true ->
  Text.contains "preHandler" tail = false ->
  prehandler_lists (file_with_lists lists tail)
  = map (fun l => list_body (members l)) lists.
Proof.
  intros H T. induction lists as [ | l lists IH ].
  - now apply prehandler_lists_none.
  - cbn [forallb] in H. apply andb_true_iff in H. destruct H as [Hl H].
    destruct (list_ok_parts l Hl) as (B & G & _ & _ & L).
    cbn [file_with_lists map]. unfold list_text.
    rewrite prehandler_lists_first by assumption.
    now rewrite (IH H).
Qed.

Lemma middleware_of_file lists tail :
  forallb list_ok lists = true ->
  Text.contains "preHandler" tail = false ->
  middleware_of (file_with_lists lists tail)
  = flat_map (fun l => map item (members l)) lists.
Proof.
  intros H T. rewrite middleware_of_lists, prehandler_lists_of_file by assumption.
  induction lists as [ | l lists IH ]; [ reflexivity | ].
  cbn [forallb] in H. apply andb_true_iff in H. destruct H as [Hl H].
  destruct (list_ok_parts l Hl) as (_ & _ & N & I & _).
  cbn [map flat_map]. rewrite items_of_list_body by assumption.
  now rewrite (IH H).
Qed.

(** C2, as the code has it.  The middleware of a route is that of its
    file: every route of a file has the same.  A file without the marker
    gives none.  In a file where every marker is followed by a list on one
    line ([preHandler:], white space, and the items between brackets),
    every route has all the items of all the lists, in order, each without
    the white space around it, whichever route they were written for. *)
Theorem C2_middleware_is_file_scoped stem content r :
  In r (routes_of_file stem content) ->
  (Text.contains "preHandler" content = false -> middleware r = []) /\
  (forall lists tail,
     content = file_with_lists lists tail ->
     forallb list_ok lists = true ->
     Text.contains "preHandler" tail = false ->
     middleware r = flat_map (fun l => map item (members l)) lists) /\
  (forall r', In r' (routes_of_file stem content) ->
              middleware r' = middleware r).
Proof.
  intros Hr. destruct (in_routes_of_file _ _ _ Hr) as [m ->].
  cbn [middleware route_of_match]. split; [ | split ].
  - apply middleware_of_no_marker.
  - intros lists tail -> H T. now apply middleware_of_file.
  - intros r' Hr'. destruct (in_routes_of_file _ _ _ Hr') as [m' ->].
    reflexivity.
Qed.

Lemma C2_witness :
  let r := {| method := "GET"; path := "/areas"; handler := "list";
              middleware := ["auth"; "admin"];
              controller := "areaController" |} in
  let lists := [ mkList "fastify.get('/areas', list)
fastify.post('/areas', { " " "
                        [ mkItem "" "auth" ""; mkItem " " "admin" "" ] ] in
  two_routes_one_list = file_with_lists lists " }, create)" /\
  In r (routes_of_file "areaRoutes" two_routes_one_list) /\
  middleware r = ["auth"; "admin"].
Proof.
  cbv zeta. split; [ reflexivity | ].
  assert (H : In {| method := "GET"; path := "/areas"; handler := "list";
                    middleware := ["auth"; "admin"];
                    controller := "areaController" |}
                 (routes_of_file "areaRoutes" two_routes_one_list)).
  { vm_compute. left. reflexivity. }
  split; [ exact H | ].
  destruct (C2_middleware_is_file_scoped "areaRoutes" two_routes_one_list _ H)
    as (_ & L & _).
  apply (L [ mkList "fastify.get('/areas', list)
fastify.post('/areas', { " " "
                   [ mkItem "" "auth" ""; mkItem " " "admin" "" ] ]
           " }, create)"); reflexivity.
Defined.

(** C2, as stated, fails: the file has the marker and a list after it,
    but the list spans several lines; the pattern finds no list, and the
    route of the file has no middleware. *)
Lemma C2_counterexample :
  Text.contains "preHandler" list_over_lines = true /\
  Text.contains "auth" list_over_lines = true /\
  Text.contains "admin" list_over_lines = true /\
  routes_of_file "areaRoutes" list_over_lines
  = [ {| method := "GET"; path := "/areas"; handler := "list";
         middleware := []; controller := "areaController" |} ].
Proof.
  repeat split; vm_compute; reflexivity.
Qed.

(** C10, as the code has it.  In a file whose one marker is followed by a
    list on one line, every route has the items of the list as they stand
    between the commas, without the white space around them and without
    any check: an item may be empty, or any text without a comma.  So an
    empty list, or one with white space only between its brackets, gives
    every route the one-element list of the empty string. *)
Theorem C10_empty_list_gives_empty_item stem text space tail r :
  Text.contains "preHandler" text = false ->
  Lang.all_chars Text.is_space space = true ->
  Text.contains "preHandler" tail = false ->
  (forall blank,
     Lang.all_chars Text.is_space blank = true ->
     one_line blank = true ->
     In r (routes_of_file stem
             (text ++ "preHandler:" ++ space ++ "[" ++ blank ++ "]" ++ tail)) ->
     middleware r = [""]) /\
  (forall ws,
     ws <> [] ->
     forallb item_ok ws = true ->
     one_line (list_body ws) = true ->
     In r (routes_of_file stem
             (text ++ "preHandler:" ++ space ++ "[" ++ list_body ws ++ "]" ++ tail)) ->
     middleware r = map item ws).
Proof.
  intros T G Tl.
  assert (General : forall ws,
             ws <> [] ->
             forallb item_ok ws = true ->
             one_line (list_body ws) = true ->
             In r (routes_of_file stem
                     (text ++ "preHandler:" ++ space ++ "[" ++ list_body ws
                      ++ "]" ++ tail)) ->
             middleware r = map item ws).
  { intros ws N I L Hr. destruct (in_routes_of_file _ _ _ Hr) as [m ->].
    cbn [middleware route_of_match].
    replace (text ++ "preHandler:" ++ space ++ "[" ++ list_body ws ++ "]" ++ tail)
      with (file_with_lists [ mkList text space ws ] tail)
      by (cbn [file_with_lists]; unfold list_text; cbn [before members];
          now rewrite !JsonFacts.append_assoc).
    rewrite middleware_of_file; [ apply app_nil_r | | exact Tl ].
    cbn [forallb]. unfold list_ok. cbn [before gap members].
    rewrite T, G, I, L. destruct ws; [ congruence | reflexivity ]. }
  split; [ | exact General ].
  intros blank B L Hr.
  apply (General [ mkItem blank "" "" ]).
  - discriminate.
  - cbn [forallb]. unfold item_ok. cbn. now rewrite B.
  - unfold list_body. cbn. now rewrite JsonFacts.append_nil_r.
  - unfold list_body. cbn. now rewrite JsonFacts.append_nil_r.
Qed.

Lemma C10_witness :
  let r := {| method := "GET"; path := "/areas"; handler := "preHandler";
              middleware := [""]; controller := "areaController" |} in
  routes_of_file "areaRoutes" route_with_empty_list = [r] /\
  middleware r = [""] /\
  (forall r',
     In r' (routes_of_file "areaRoutes"
              "fastify.get('/areas', { preHandler: [ a b ,, x ] }, list)") ->
     middleware r' = ["a b"; ""; "x"]).
Proof.
  cbv zeta.
  assert (H : routes_of_file "areaRoutes" route_with_empty_list =
              [ {| method := "GET"; path := "/areas"; handler := "preHandler";
                   middleware := [""]; controller := "areaController" |} ])
    by (vm_compute; reflexivity).
  split; [ exact H | ]. split.
  - destruct (C10_empty_list_gives_empty_item "areaRoutes"
                "fastify.get('/areas', { " " " " }, list)"
                {| method := "GET"; path := "/areas"; handler := "preHandler";
                   middleware := [""]; controller := "areaController" |}
                eq_refl eq_refl eq_refl) as [E _].
    apply (E ""); [ reflexivity | reflexivity | ].
    change (In {| method := "GET"; path := "/areas"; handler := "preHandler";
                  middleware := [""]; controller := "areaController" |}
               (routes_of_file "areaRoutes" route_with_empty_list)).
    rewrite H. now left.
  - intros r' Hr'.
    destruct (C10_empty_list_gives_empty_item "areaRoutes"
                "fastify.get('/areas', { " " " " }, list)" r'
                eq_refl eq_refl eq_refl) as [_ E].
    apply (E [ mkItem " " "a b" " "; mkItem "" "" ""; mkItem " " "x" " " ]);
      [ discriminate | reflexivity | reflexivity | exact Hr' ].
Defined.

(** C10, as stated, fails: the file has the marker followed by an empty
    list, but on the same line a list before it is not closed; the pattern
    takes the text up to the bracket that closes the empty list for the
    first list, and no route has an empty item. *)
Lemma C10_counterexample :
  Text.contains "preHandler: []" empty_list_after_open_list = true /\
  map middleware (routes_of_file "aRoutes" empty_list_after_open_list)
  = [ [ "auth }"; "h); fastify.get('/b'"; "{ preHandler: [" ];
      [ "auth }"; "h); fastify.get('/b'"; "{ preHandler: [" ] ] /\
  Forall (fun r => ~ In "" (middleware r))
         (routes_of_file "aRoutes" empty_list_after_open_list).
Proof.
  split; [ vm_compute; reflexivity | ].
  split; [ vm_compute; reflexivity | ].
  vm_compute. repeat constructor;
    intros [ H | [ H | [ H | [] ] ] ]; discriminate.
Qed.
